(** * Git-Bot: a contribution-graph filler (index.js)

    A shallow embedding of [src/index.js] and the properties of its
    day sequencer, pattern compiler, commit writer and mode drivers.

    Modelling conventions.
    - JavaScript numbers that the script manipulates are integers
      (day counts, loop counters, configuration values); they are
      modelled as [Z].  The range check of time values (TimeClip,
      about 273,000 years around 1970) is outside the model.
    - JavaScript strings are modelled as [string] (sequences of
      8-bit characters); case conversion acts on the ASCII letters.
    - The local time zone is the rule [LocalTZA] of the engine (the
      offset, in milliseconds east of UTC, at a time value or at a
      local time): it may change with daylight saving, by at most two
      hours around its standard offset.
    - What the engine's date parser makes of a string that is not of
      the form [YYYY-MM-DD] is a parameter of the engine.
    - [Math.random] is an oracle [random : nat -> Q]; the world counts
      the draws made so far.
    - The version-control tool is an external collaborator: the model
      records the requests it receives (init, add, commit); [add] and
      [commit] fail outside a repository, and whether [commit] takes a
      request is decided by an oracle that sees the environment, the
      message and the options of the request.  Hooks, the identity of
      the committer and the permissions of the file system are outside
      the model. *)

From Stdlib Require Import ZArith QArith Qround String Ascii List Lia DecimalString.
From stdpp Require Import base gmap strings list.
Import ListNotations.

Open Scope string_scope.
Open Scope list_scope.
Open Scope Z_scope.

(* ===================================================================== *)
(** * JavaScript strings *)
(* ===================================================================== *)

Module Js.

(** The double-quote character and the line feed, as one-character strings. *)
Definition dquote : string := String "034"%char "".
Definition LF : string := String "010"%char "".

(** [String(n)] for an integer [n]. *)
Definition String_ (n : Z) : string := NilZero.string_of_int (Z.to_int n).

(** [String(x)] for a number that may be [NaN] ([None]). *)
Definition String_num (x : option Z) : string :=
  match x with Some n => String_ n | None => "NaN" end.

Fixpoint repeat_char (c : ascii) (n : nat) : string :=
  match n with O => "" | S k => String c (repeat_char c k) end.

(** [s.padStart(n, c)] with a one-character filler. *)
Definition padStart (n : nat) (c : ascii) (s : string) : string :=
  repeat_char c (n - String.length s) +:+ s.

Definition upper_char (c : ascii) : ascii :=
  let n := nat_of_ascii c in
  if ((97 <=? n) && (n <=? 122))%nat then ascii_of_nat (n - 32) else c.

Definition lower_char (c : ascii) : ascii :=
  let n := nat_of_ascii c in
  if ((65 <=? n) && (n <=? 90))%nat then ascii_of_nat (n + 32) else c.

Fixpoint map_chars (f : ascii -> ascii) (s : string) : string :=
  match s with
  | EmptyString => EmptyString
  | String c r => String (f c) (map_chars f r)
  end.

(** [s.toUpperCase()] and [s.toLowerCase()] on the letters of the ASCII
    range; the statements that depend on the case of a name take the name
    in that range. *)
Definition toUpperCase : string -> string := map_chars upper_char.
Definition toLowerCase : string -> string := map_chars lower_char.

(** [s.startsWith(p)]. *)
Definition startsWith (s p : string) : bool := String.prefix p s.

(** [s.replace(pat, by)] for a string pattern: the first occurrence only.
    (The replacement strings of the script hold no [$] pattern.) *)
Fixpoint replace (s pat by_ : string) : string :=
  if String.prefix pat s
  then by_ +:+ substring (String.length pat) (String.length s - String.length pat) s
  else match s with
       | EmptyString => EmptyString
       | String c r => String c (replace r pat by_)
       end.

(** [s.slice(0, n)]. *)
Definition slice0 (n : nat) (s : string) : string := substring 0 n s.

(** [s.repeat(n)]. *)
Fixpoint repeat (s : string) (n : nat) : string :=
  match n with O => "" | S k => s +:+ repeat s k end.

(** [xs.join(sep)]. *)
Definition join (sep : string) (xs : list string) : string := String.concat sep xs.

(** [xs.find(p)]. *)
Definition find {A} (p : A -> bool) (xs : list A) : option A := List.find p xs.

(** [xs.indexOf(x)]: the first index holding [x], or [-1]. *)
Fixpoint indexOf (xs : list string) (x : string) : Z :=
  match xs with
  | [] => -1
  | y :: r => if String.eqb y x then 0
              else let i := indexOf r x in if i <? 0 then -1 else i + 1
  end.

(** [xs[i]] for an integer index: [None] is [undefined]. *)
Definition at_ {A} (xs : list A) (i : Z) : option A :=
  if i <? 0 then None else xs !! Z.to_nat i.

(** [x || d] on a possibly-undefined string: [undefined] and the empty
    string are falsy. *)
Definition or_else (x : option string) (d : string) : string :=
  match x with
  | Some s => if String.eqb s "" then d else s
  | None => d
  end.

(** [char === c] for a character read by index, [None] being
    [undefined]. *)
Definition char_is (char : option ascii) (c : ascii) : bool :=
  match char with Some x => Ascii.eqb x c | None => false end.

(** Whether a character occurs in a string. *)
Fixpoint has_char (c : ascii) (s : string) : bool :=
  match s with
  | EmptyString => false
  | String x r => Ascii.eqb x c || has_char c r
  end.

(** Number of line feeds in a string. *)
Fixpoint count_LF (s : string) : nat :=
  match s with
  | EmptyString => 0%nat
  | String c r => ((if Ascii.eqb c "010" then 1 else 0) + count_LF r)%nat
  end.

End Js.

(* ===================================================================== *)
(** * JavaScript dates (ECMAScript time values) *)
(* ===================================================================== *)

Module JsDate.

Definition msPerDay : Z := 86400000.

Definition Day (t : Z) : Z := t / msPerDay.
Definition TimeWithinDay (t : Z) : Z := t mod msPerDay.

Definition DaysInYear (y : Z) : Z :=
  if (y mod 4 =? 0) && (negb (y mod 100 =? 0) || (y mod 400 =? 0)) then 366 else 365.

Definition DayFromYear (y : Z) : Z :=
  365 * (y - 1970) + (y - 1969) / 4 - (y - 1901) / 100 + (y - 1601) / 400.

(** The largest [y] with [DayFromYear y <= Day t]: the mean-year estimate
    is off by at most one. *)
Definition YearFromTime (t : Z) : Z :=
  let d := Day t in
  let y := 1970 + (400 * d) / 146097 in
  if d <? DayFromYear y then y - 1
  else if DayFromYear (y + 1) <=? d then y + 1
  else y.

Definition InLeapYear (t : Z) : Z :=
  if DaysInYear (YearFromTime t) =? 366 then 1 else 0.

Definition DayWithinYear (t : Z) : Z := Day t - DayFromYear (YearFromTime t).

(** Day within the year on which month [m] (0 = January) starts. *)
Definition monthStart (m leap : Z) : Z :=
  match m with
  | 0 => 0 | 1 => 31 | 2 => 59 + leap | 3 => 90 + leap
  | 4 => 120 + leap | 5 => 151 + leap | 6 => 181 + leap | 7 => 212 + leap
  | 8 => 243 + leap | 9 => 273 + leap | 10 => 304 + leap | _ => 334 + leap
  end.

Definition MonthFromTime (t : Z) : Z :=
  let d := DayWithinYear t in
  let l := InLeapYear t in
  if d <? 31 then 0
  else if d <? 59 + l then 1
  else if d <? 90 + l then 2
  else if d <? 120 + l then 3
  else if d <? 151 + l then 4
  else if d <? 181 + l then 5
  else if d <? 212 + l then 6
  else if d <? 243 + l then 7
  else if d <? 273 + l then 8
  else if d <? 304 + l then 9
  else if d <? 334 + l then 10
  else 11.

Definition DateFromTime (t : Z) : Z :=
  DayWithinYear t - monthStart (MonthFromTime t) (InLeapYear t) + 1.

(** Day of the week, 0 = Sunday. *)
Definition WeekDay (t : Z) : Z := (Day t + 4) mod 7.

Definition HourFromTime (t : Z) : Z := (t / 3600000) mod 24.
Definition MinFromTime (t : Z) : Z := (t / 60000) mod 60.
Definition SecFromTime (t : Z) : Z := (t / 1000) mod 60.
Definition msFromTime (t : Z) : Z := t mod 1000.

(** [MakeDay(year, month, date)]: the day number of the first of the
    month, plus [date - 1]. *)
Definition MakeDay (year month date : Z) : Z :=
  let ym := year + month / 12 in
  let mn := month mod 12 in
  DayFromYear ym + monthStart mn (if DaysInYear ym =? 366 then 1 else 0) + date - 1.

Definition MakeDate (day time : Z) : Z := day * msPerDay + time.

(** A [Date] object: an invalid date ([NaN]) or a time value in
    milliseconds since the epoch, UTC. *)
Inductive Date : Type :=
| InvalidDate
| DateAt (tv : Z).

(** [a <= b] on dates: a comparison with [NaN] is false. *)
Definition le (a b : Date) : bool :=
  match a, b with
  | DateAt x, DateAt y => x <=? y
  | _, _ => false
  end.

Definition digit (c : ascii) : option Z :=
  let n := Z.of_nat (nat_of_ascii c) in
  if (48 <=? n) && (n <=? 57) then Some (n - 48) else None.

(** Reads an unsigned decimal field of digits only. *)
Fixpoint digits (acc : Z) (s : string) : option Z :=
  match s with
  | EmptyString => Some acc
  | String c r => match digit c with
                  | Some d => digits (10 * acc + d) r
                  | None => None
                  end
  end.

(** The calendar fields of a date-only string [YYYY-MM-DD], month in
    1..12 and day in 1..31 (the engine accepts a day up to 31 in every
    month and lets [MakeDay] carry it over). *)
Definition parseYMD (s : string) : option (Z * Z * Z) :=
  if negb (String.length s =? 10)%nat then None
  else if negb (String.eqb (substring 4 1 s) "-" && String.eqb (substring 7 1 s) "-") then None
  else match digits 0 (substring 0 4 s), digits 0 (substring 5 2 s), digits 0 (substring 8 2 s) with
       | Some y, Some m, Some d =>
           if (1 <=? m) && (m <=? 12) && (1 <=? d) && (d <=? 31) then Some (y, m, d) else None
       | _, _, _ => None
       end.

(** The engine's knowledge of the local time zone and of dates written in
    other ways than [YYYY-MM-DD].

    [LocalTZA t isUTC] is the offset of local time, in milliseconds east
    of UTC, at the time value [t] ([isUTC = true]) or at the local time
    [t] ([isUTC = false]; a local time that a transition skips or repeats
    is read with the offset before the transition).  The offsets of a
    zone stay within two hours of its [standard] offset.

    [parse_fallback s] is what [new Date(s + "T00:00:00")] gives for a
    string [s] that is not of the form [YYYY-MM-DD]. *)
Record Engine : Type := {
  standard : Z;
  LocalTZA : Z -> bool -> Z;
  LocalTZA_range : forall t isUTC, standard <= LocalTZA t isUTC <= standard + 7200000;
  parse_fallback : string -> Date
}.

Section Zone.
Variable engine : Engine.

Definition LocalTime (t : Z) : Z := t + LocalTZA engine t true.
Definition UTC (t : Z) : Z := t - LocalTZA engine t false.

(** [new Date(iso + "T00:00:00")]: a date-time without offset is local
    time. *)
Definition new_Date_midnight (iso : string) : Date :=
  match parseYMD iso with
  | Some (y, m, d) => DateAt (UTC (MakeDate (MakeDay y (m - 1) d) 0))
  | None => parse_fallback engine iso
  end.

(** Local day number of a time value. *)
Definition localDay (t : Z) : Z := Day (LocalTime t).

Definition getFullYear_tv (t : Z) : Z := YearFromTime (LocalTime t).
Definition getMonth_tv (t : Z) : Z := MonthFromTime (LocalTime t).
Definition getDate_tv (t : Z) : Z := DateFromTime (LocalTime t).

(** [d.setDate(dt)] on a valid date. *)
Definition setDate_tv (t dt : Z) : Z :=
  let lt := LocalTime t in
  UTC (MakeDate (MakeDay (YearFromTime lt) (MonthFromTime lt) dt) (TimeWithinDay lt)).

(** The getters give [NaN] ([None]) on an invalid date. *)
Definition getFullYear (d : Date) : option Z :=
  match d with DateAt t => Some (getFullYear_tv t) | InvalidDate => None end.
Definition getMonth (d : Date) : option Z :=
  match d with DateAt t => Some (getMonth_tv t) | InvalidDate => None end.
Definition getDate (d : Date) : option Z :=
  match d with DateAt t => Some (getDate_tv t) | InvalidDate => None end.

Definition setDate (d : Date) (dt : option Z) : Date :=
  match d, dt with
  | DateAt t, Some n => DateAt (setDate_tv t n)
  | _, _ => InvalidDate
  end.
End Zone.

(** The year of [toISOString]: four digits for 0..9999, a sign and six
    digits otherwise. *)
Definition isoYear (y : Z) : string :=
  if (0 <=? y) && (y <=? 9999) then Js.padStart 4 "0" (Js.String_ y)
  else (if y <? 0 then "-" else "+") +:+ Js.padStart 6 "0" (Js.String_ (Z.abs y)).

Definition pad2 (n : Z) : string := Js.padStart 2 "0" (Js.String_ n).
Definition pad3 (n : Z) : string := Js.padStart 3 "0" (Js.String_ n).

(** [toISOString] of a time value: the UTC fields. *)
Definition isoString (t : Z) : string :=
  isoYear (YearFromTime t) +:+ "-" +:+ pad2 (MonthFromTime t + 1) +:+ "-" +:+
  pad2 (DateFromTime t) +:+ "T" +:+ pad2 (HourFromTime t) +:+ ":" +:+
  pad2 (MinFromTime t) +:+ ":" +:+ pad2 (SecFromTime t) +:+ "." +:+
  pad3 (msFromTime t) +:+ "Z".

(** [d.toISOString()]: throws a RangeError ([None]) on an invalid date. *)
Definition toISOString (d : Date) : option string :=
  match d with DateAt t => Some (isoString t) | InvalidDate => None end.

End JsDate.

Import JsDate.

(* ===================================================================== *)
(** * Day sequencer *)
(* ===================================================================== *)

(** What [dayRange] yields: a fresh [Date] (a copy of the loop variable, so
    later steps of the loop do not change it) and its ISO label. *)
Record DayEntry : Type := { date : Date; iso : string }.

Section DayRange.
Variable engine : Engine.

(** [current.setDate(current.getDate() + 1)]. *)
Definition nextDay (current : Z) : Z :=
  setDate_tv engine current (getDate_tv engine current + 1).

(** The [while (current <= end)] loop of [dayRange], cut after [fuel]
    rounds.  Inside the loop both dates are valid, so the loop runs on
    their time values. *)
Fixpoint dayRange_while (fuel : nat) (end_ current : Z) : list DayEntry :=
  match fuel with
  | O => []
  | S fuel' =>
      if current <=? end_ then
        {| date := DateAt current; iso := Js.slice0 10 (isoString current) |}
        :: dayRange_while fuel' end_ (nextDay current)
      else []
  end.

(** The least time, in milliseconds, by which one round of the loop moves
    its date forward: one day of local time less what the offset may
    gain, that is 22 hours. *)
Definition leastStep : Z := 79200000.

(** The loop itself: it ends by its test within
    [(end - current) / leastStep + 1] rounds, so the cut is never what
    stops it (lemma [dayRange_loop_equation]). *)
Definition dayRange_loop (end_ current : Z) : list DayEntry :=
  dayRange_while (Z.to_nat ((end_ - current) / leastStep + 1)) end_ current.

(** [function* dayRange(startISO, endISO)], as the list of its yields. *)
Definition dayRange (startISO endISO : string) : list DayEntry :=
  match new_Date_midnight engine startISO, new_Date_midnight engine endISO with
  | DateAt current, DateAt end_ => dayRange_loop end_ current
  | _, _ => []
  end.
End DayRange.

(* ===================================================================== *)
(** * User configuration and pattern definitions *)
(* ===================================================================== *)

Record Config : Type := {
  START_DATE : string;
  END_DATE : string;
  MIN_COMMITS_PER_DAY : Z;
  MAX_COMMITS_PER_DAY : Z;
  ACTIVITY_FILE : string;
  COMMIT_MESSAGE : string;
  PATTERN_START_DATE : string;
  PATTERN_COMMITS : Z
}.

Definition CONFIG : Config := {|
  START_DATE := "2025-01-01";
  END_DATE := "2025-12-31";
  MIN_COMMITS_PER_DAY := 0;
  MAX_COMMITS_PER_DAY := 3;
  ACTIVITY_FILE := "activity.txt";
  COMMIT_MESSAGE := "Activity update #{n} on {date}";
  PATTERN_START_DATE := "2025-01-05";
  PATTERN_COMMITS := 3
|}.

(** A pattern: an array of row strings, [#] lit and [.] blank. *)
Abbreviation Grid := (list string).

(** An object with string keys, in insertion order; a value may be [null]
    ([None]). *)
Abbreviation Patterns := (list (string * option Grid)).

Module Obj.
(** [obj[key]]: [None] when the key is absent ([undefined]). *)
Fixpoint get {V} (obj : list (string * V)) (key : string) : option V :=
  match obj with
  | [] => None
  | (k, v) :: r => if String.eqb k key then Some v else get r key
  end.

(** [obj[key] = v]: an existing key keeps its place. *)
Fixpoint set {V} (obj : list (string * V)) (key : string) (v : V) : list (string * V) :=
  match obj with
  | [] => [(key, v)]
  | (k, x) :: r => if String.eqb k key then (k, v) :: r else (k, x) :: set r key v
  end.

(** [Object.keys(obj)]. *)
Definition keys {V} (obj : list (string * V)) : list string := map fst obj.
End Obj.

Module Glyph.
Definition H : Grid := ["#.#"; "#.#"; "#.#"; "###"; "#.#"; "#.#"; "#.#"].
Definition I : Grid := ["###"; ".#."; ".#."; ".#."; ".#."; ".#."; "###"].
Definition HEART : Grid := [".#.#."; "#####"; "#####"; ".###."; ".###."; "..#.."; "..#.."].
Definition SMILE : Grid := ["..##.."; ".#..#."; "#.##.#"; "#....#"; "#.##.#"; ".#..#."; "..##.."].
End Glyph.

(** The object literal, with [HI: null]. *)
Definition PATTERNS_literal : Patterns :=
  [("H", Some Glyph.H); ("I", Some Glyph.I); ("HEART", Some Glyph.HEART);
   ("SMILE", Some Glyph.SMILE); ("HI", None)].

(* ===================================================================== *)
(** * Pattern compiler *)
(* ===================================================================== *)

Definition spacer : Grid := ["."; "."; "."; "."; "."; "."; "."].

(** The [forEach] that fills [parts]: a spacer before every letter but the
    first. *)
Fixpoint push_letters (i : nat) (letters : list Grid) (parts : list Grid) : list Grid :=
  match letters with
  | [] => parts
  | letter :: rest =>
      push_letters (S i) rest ((if (0 <? i)%nat then parts ++ [spacer] else parts) ++ [letter])
  end.

(** [p[row]] inside a [join]: a missing row ([undefined]) joins as the empty
    string. *)
Definition row_of (row : nat) (p : Grid) : string := default "" (p !! row).

(** [function combinePatterns(...letters)]. *)
Definition combinePatterns (letters : list Grid) : Grid :=
  let parts := push_letters 0 letters [] in
  map (fun row => Js.join "" (map (row_of row) parts)) (seq 0 7).

(** [PATTERNS.HI = combinePatterns(PATTERNS.H, PATTERNS.I)]. *)
Definition PATTERNS : Patterns :=
  Obj.set PATTERNS_literal "HI" (Some (combinePatterns [Glyph.H; Glyph.I])).

(* ===================================================================== *)
(** * The process and its world *)
(* ===================================================================== *)

(** A commit of the history. *)
Record Commit : Type := {
  c_message : string;
  c_author_date : string;
  c_committer_date : string;
  c_tree : gmap string string
}.

(** Everything the script can change: the files of the working directory
    (by path relative to it), the repository (whether it exists, its index
    and its history, oldest commit first), the two output streams, and the
    number of random draws made. *)
Record World : Type := {
  fs : gmap string string;
  repo : bool;
  staged : gmap string string;
  history : list Commit;
  out : list string;
  err : list string;
  draws : nat
}.

(** How a computation ends: with a value, with an uncaught exception, or by
    [process.exit]. *)
Inductive Outcome (A : Type) : Type :=
| Ok (a : A)
| Thrown (e : string)
| Exited (code : Z).
Arguments Ok {A} a.
Arguments Thrown {A} e.
Arguments Exited {A} code.

Definition M (A : Type) : Type := World -> Outcome A * World.

Definition ret {A} (a : A) : M A := fun w => (Ok a, w).

Definition bind {A B} (m : M A) (k : A -> M B) : M B :=
  fun w => match m w with
           | (Ok a, w') => k a w'
           | (Thrown e, w') => (Thrown e, w')
           | (Exited c, w') => (Exited c, w')
           end.

Notation "x <- m ;; k" := (bind m (fun x => k))
  (at level 100, m at next level, right associativity).
Notation "m ;;; k" := (bind m (fun _ => k))
  (at level 100, right associativity).

Definition throw {A} (e : string) : M A := fun w => (Thrown e, w).

(** [process.exit(code)]. *)
Definition process_exit {A} (code : Z) : M A := fun w => (Exited code, w).

(** [promise.catch(handler)]. *)
Definition catch {A} (m : M A) (handler : string -> M A) : M A :=
  fun w => match m w with
           | (Thrown e, w') => handler e w'
           | r => r
           end.

Definition console_log (s : string) : M unit :=
  fun w => (Ok tt, {| fs := fs w; repo := repo w; staged := staged w; history := history w;
                      out := out w ++ [s]; err := err w; draws := draws w |}).

Definition console_error (s : string) : M unit :=
  fun w => (Ok tt, {| fs := fs w; repo := repo w; staged := staged w; history := history w;
                      out := out w; err := err w ++ [s]; draws := draws w |}).

(** [for (const x of xs) body], with loop-carried local variables [s]. *)
Fixpoint for_of {A S} (xs : list A) (s : S) (body : S -> A -> M S) : M S :=
  match xs with
  | [] => ret s
  | x :: r => s' <- body s x ;; for_of r s' body
  end.

(** The values of [n] in [for (let n = lo; n < lo + count; n++)]. *)
Definition counting (lo : Z) (count : Z) : list Z :=
  map (fun i => lo + Z.of_nat i) (seq 0 (Z.to_nat count)).

(** The exit status of the process. *)
Definition exit_code {A} (o : Outcome A) : Z :=
  match o with
  | Ok _ => 0
  | Thrown _ => 1
  | Exited c => c
  end.

(* ===================================================================== *)
(** * Core logic *)
(* ===================================================================== *)

(** What [git commit] answers to a request, given the environment
    variables it runs under, the message and the options: [None] when it
    takes the commit, [Some e] when it refuses with the error text [e] (an
    empty message, a date it cannot read or will not store, an
    environment the wrapper library rejects). *)
Abbreviation Git := (gmap string string -> string -> list (string * string) -> option string).

Section Script.
(** The host of the process: its engine (time zone and date parser), its
    random source, its git, its command line, its environment variables
    and its wall clock. *)
Variable engine : Engine.
Variable random : nat -> Q.
Variable git : Git.
Variable argv : list string.
Variable process_env : gmap string string.
Variable wall_clock : string.

(** The user configuration and the pattern table. *)
Variable CONFIG : Config.
Variable PATTERNS : Patterns.

(** [Math.random()]: the next draw of the oracle. *)
Definition Math_random : M Q :=
  fun w => (Ok (random (draws w)),
            {| fs := fs w; repo := repo w; staged := staged w; history := history w;
               out := out w; err := err w; draws := S (draws w) |}).

(** [function randomInt(min, max)]. *)
Definition randomInt (min max : Z) : M Z :=
  r <- Math_random ;;
  ret (Qfloor (r * inject_Z (max - min + 1)) + min).

(** [function formatGitDate(date)]. *)
Definition formatGitDate (date : Date) : M string :=
  hour <- randomInt 9 21 ;;
  minute <- randomInt 0 59 ;;
  second <- randomInt 0 59 ;;
  let pad := fun n : option Z => Js.padStart 2 "0" (Js.String_num n) in
  let y := getFullYear engine date in
  let m := pad ((fun month => month + 1) <$> getMonth engine date) in
  let d := pad (getDate engine date) in
  ret (Js.String_num y +:+ "-" +:+ m +:+ "-" +:+ d +:+ " " +:+
       pad (Some hour) +:+ ":" +:+ pad (Some minute) +:+ ":" +:+ pad (Some second)).

(** ** The version-control tool *)

Definition git_checkIsRepo : M bool := fun w => (Ok (repo w), w).

Definition git_init : M unit :=
  fun w => (Ok tt, {| fs := fs w; repo := true; staged := staged w; history := history w;
                      out := out w; err := err w; draws := draws w |}).

(** What git answers outside a repository. *)
Definition not_a_repository : string :=
  "fatal: not a git repository (or any of the parent directories): .git".

(** [git add file]: the index takes the current content of the file. *)
Definition git_add (file : string) : M unit :=
  fun w => if negb (repo w) then (Thrown not_a_repository, w)
           else match fs w !! file with
                | Some content =>
                    (Ok tt, {| fs := fs w; repo := repo w;
                               staged := <[file := content]> (staged w);
                               history := history w; out := out w; err := err w;
                               draws := draws w |})
                | None => (Thrown ("fatal: pathspec '" +:+ file +:+ "' did not match any files"), w)
                end.

(** [git commit -m message] under the environment [env] with the given
    options.  Outside a repository, and when git refuses the request, the
    call throws and the repository is as it was.  Otherwise the commit is
    added: its author date is the [--date] option, else
    [GIT_AUTHOR_DATE], else the clock; its committer date is
    [GIT_COMMITTER_DATE], else the clock. *)
Definition git_commit (env : gmap string string) (message : string)
    (options : list (string * string)) : M unit :=
  fun w =>
    if negb (repo w) then (Thrown not_a_repository, w)
    else match git env message options with
         | Some e => (Thrown e, w)
         | None =>
             let author := match Obj.get options "--date" with
                           | Some d => d
                           | None => default wall_clock (env !! "GIT_AUTHOR_DATE")
                           end in
             let committer := default wall_clock (env !! "GIT_COMMITTER_DATE") in
             (Ok tt, {| fs := fs w; repo := repo w; staged := staged w;
                        history := history w ++ [{| c_message := message; c_author_date := author;
                                                    c_committer_date := committer;
                                                    c_tree := staged w |}];
                        out := out w; err := err w; draws := draws w |})
         end.

(** [fs.appendFileSync(file, text)]: creates the file when it is missing. *)
Definition appendFileSync (file text : string) : M unit :=
  fun w => (Ok tt, {| fs := <[file := default "" (fs w !! file) +:+ text]> (fs w);
                      repo := repo w; staged := staged w; history := history w;
                      out := out w; err := err w; draws := draws w |}).

(** [async function ensureRepo()]. *)
Definition ensureRepo : M unit :=
  isRepo <- git_checkIsRepo ;;
  if negb isRepo
  then console_log "📁  Initialising a new Git repository…" ;;; git_init
  else ret tt.

(** [async function makeCommit(dateStr, message)]. *)
Definition makeCommit (dateStr message : string) : M unit :=
  appendFileSync (ACTIVITY_FILE CONFIG) (message +:+ "  |  " +:+ dateStr +:+ Js.LF) ;;;
  git_add (ACTIVITY_FILE CONFIG) ;;;
  git_commit (<["GIT_COMMITTER_DATE" := dateStr]> (<["GIT_AUTHOR_DATE" := dateStr]> process_env))
             message [("--date", dateStr)].

(** ** Mode: fill *)

(** The body of [for (let n = 1; n <= numCommits; n++)]. *)
Definition fill_commit (entry : DayEntry) (totalCommits : Z) (n : Z) : M Z :=
  dateStr <- formatGitDate (date entry) ;;
  let message := Js.replace (Js.replace (COMMIT_MESSAGE CONFIG) "{n}" (Js.String_ n))
                            "{date}" (iso entry) in
  makeCommit dateStr message ;;;
  ret (totalCommits + 1).

(** The body of [for (const { date, iso } of dayRange(...))]; the loop
    carries [(totalCommits, totalDays)]. *)
Definition fill_day (totals : Z * Z) (entry : DayEntry) : M (Z * Z) :=
  let '(totalCommits, totalDays) := totals in
  numCommits <- randomInt (MIN_COMMITS_PER_DAY CONFIG) (MAX_COMMITS_PER_DAY CONFIG) ;;
  totalCommits <- for_of (counting 1 numCommits) totalCommits (fill_commit entry) ;;
  let totalDays := totalDays + 1 in
  (if totalDays mod 30 =? 0
   then console_log ("    ✔  Processed " +:+ Js.String_ totalDays +:+ " days  (" +:+
                     Js.String_ totalCommits +:+ " commits so far)")
   else ret tt) ;;;
  ret (totalCommits, totalDays).

(** [async function runFillMode()]. *)
Definition runFillMode : M unit :=
  console_log "🟩  MODE: Fill the contribution graph" ;;;
  console_log ("    From " +:+ START_DATE CONFIG +:+ "  →  " +:+ END_DATE CONFIG) ;;;
  console_log ("    Commits per day: " +:+ Js.String_ (MIN_COMMITS_PER_DAY CONFIG) +:+ "–" +:+
               Js.String_ (MAX_COMMITS_PER_DAY CONFIG) +:+ Js.LF) ;;;
  totals <- for_of (dayRange engine (START_DATE CONFIG) (END_DATE CONFIG)) (0, 0) fill_day ;;
  console_log (Js.LF +:+ "✅  Done!  " +:+ Js.String_ (fst totals) +:+ " commits across " +:+
               Js.String_ (snd totals) +:+ " days.").

(** ** Mode: pattern *)

(** The exception of reading the property [key] of [undefined]. *)
Definition cannot_read (key : string) : string :=
  "TypeError: Cannot read properties of undefined (reading '" +:+ key +:+ "')".

(** The body of [for (let n = 0; n < CONFIG.PATTERN_COMMITS; n++)]. *)
Definition pattern_commit (patternName : string) (target : Date)
    (totalCommits : Z) (n : Z) : M Z :=
  dateStr <- formatGitDate target ;;
  match toISOString target with
  | None => throw "RangeError: Invalid time value"
  | Some s =>
      let iso := Js.slice0 10 s in
      let message := "Pattern " +:+ Js.dquote +:+ patternName +:+ Js.dquote +:+ " commit #" +:+
                     Js.String_ (n + 1) +:+ " on " +:+ iso in
      makeCommit dateStr message ;;;
      ret (totalCommits + 1)
  end.

(** The body of [for (let day = 0; day < 7; day++)] in column [week]. *)
Definition pattern_cell (patternName : string) (pattern : Grid) (week : nat)
    (totalCommits : Z) (day : nat) : M Z :=
  match pattern !! day with
  | None => throw (cannot_read (Js.String_ (Z.of_nat week)))
  | Some row =>
      let char := String.get week row in
      if negb (Js.char_is char "#") then ret totalCommits
      else
        let target := new_Date_midnight engine (PATTERN_START_DATE CONFIG) in
        let target := setDate engine target
                        ((fun d => d + Z.of_nat week * 7 + Z.of_nat day)
                           <$> getDate engine target) in
        for_of (counting 0 (PATTERN_COMMITS CONFIG)) totalCommits
               (pattern_commit patternName target)
  end.

(** [const patternName = (process.argv[3] || "HI").toUpperCase()]. *)
Definition patternName : string := Js.toUpperCase (Js.or_else (Js.at_ argv 3) "HI").

(** [async function runPatternMode()]. *)
Definition runPatternMode : M unit :=
  match Obj.get PATTERNS patternName with
  | Some (Some pattern) =>
      console_log ("🎨  MODE: Draw pattern " +:+ Js.dquote +:+ patternName +:+ Js.dquote) ;;;
      console_log ("    Starting on " +:+ PATTERN_START_DATE CONFIG +:+ "  (must be a Sunday)") ;;;
      console_log ("    Commits per lit cell: " +:+ Js.String_ (PATTERN_COMMITS CONFIG) +:+ Js.LF) ;;;
      match pattern !! 0%nat with
      | None => throw (cannot_read "length")
      | Some row0 =>
          let numWeeks := String.length row0 in
          totalCommits <-
            for_of (seq 0 numWeeks) 0
                   (fun totalCommits week =>
                      for_of (seq 0 7) totalCommits (pattern_cell patternName pattern week)) ;;
          console_log (Js.LF +:+ "✅  Done!  " +:+ Js.String_ totalCommits +:+
                       " pattern commits created.")
      end
  | _ =>
      console_error ("❌  Unknown pattern " +:+ Js.dquote +:+ patternName +:+ Js.dquote +:+ ".") ;;;
      console_error ("    Available: " +:+ Js.join ", " (Obj.keys PATTERNS)) ;;;
      process_exit 1
  end.

(** ** Entry point *)

(** The mode parsed from the command line:
    [modeFlag = argv.find((a) => a.startsWith("--mode"))],
    [modeArg = argv[argv.indexOf("--mode") + 1]] and
    [mode = modeFlag ? (modeArg || "fill").toLowerCase() : "fill"]
    (a flag that was found starts with [--mode], hence is truthy). *)
Definition parse_mode : string :=
  let modeFlag := Js.find (fun a => Js.startsWith a "--mode") argv in
  let modeArg := Js.at_ argv (Js.indexOf argv "--mode" + 1) in
  match modeFlag with
  | Some _ => Js.toLowerCase (Js.or_else modeArg "fill")
  | None => "fill"
  end.

(** [async function main()]. *)
Definition main : M unit :=
  console_log (Js.repeat "═" 60) ;;;
  console_log "  GitHub Contribution Graph Filler" ;;;
  console_log (Js.repeat "═" 60 +:+ Js.LF) ;;;
  ensureRepo ;;;
  let mode := parse_mode in
  (if String.eqb mode "fill" then runFillMode
   else if String.eqb mode "pattern" then runPatternMode
   else
     console_error ("❌  Unknown mode " +:+ Js.dquote +:+ mode +:+ Js.dquote +:+
                    ". Use " +:+ Js.dquote +:+ "fill" +:+ Js.dquote +:+ " or " +:+
                    Js.dquote +:+ "pattern" +:+ Js.dquote +:+ ".") ;;;
     process_exit 1) ;;;
  console_log (Js.LF +:+ "📌  Next steps:") ;;;
  console_log "    git remote add origin https://github.com/<you>/<repo>.git" ;;;
  console_log "    git branch -M main" ;;;
  console_log ("    git push -u origin main" +:+ Js.LF).

(** [main().catch(err => { console.error(...); process.exit(1); })]. *)
Definition script : M unit :=
  catch main (fun e => console_error ("💥  Fatal error: " +:+ e) ;;; process_exit 1).

End Script.

(* ===================================================================== *)
(** * Vocabulary of the statements *)
(* ===================================================================== *)

(** Days in month [m] (0 = January). *)
Definition DaysInMonth (m leap : Z) : Z :=
  match m with
  | 1 => 28 + leap
  | 3 | 5 | 8 | 10 => 30
  | _ => 31
  end.

(** The local day number of a [Date]. *)
Definition dateDay (engine : Engine) (d : Date) : option Z :=
  match d with DateAt t => Some (localDay engine t) | InvalidDate => None end.

(** A zone whose offset is [tza] at every time: no daylight saving. *)
Definition steady (engine : Engine) (tza : Z) : Prop :=
  forall t isUTC, LocalTZA engine t isUTC = tza.

(** A local time read and written back is never earlier than it was: it
    is the same time, or a later one when a transition skips it.  This is
    what the language standard prescribes: a local time that a transition
    skips or repeats is read with the offset before the transition. *)
Definition forward (engine : Engine) : Prop :=
  forall t, LocalTZA engine t false <= LocalTZA engine (t - LocalTZA engine t false) true.

(** The engine of a zone at the constant offset [tza], with a parser that
    reads nothing but [YYYY-MM-DD]. *)
Definition fixed_zone (tza : Z) : Engine :=
  {| standard := tza;
     LocalTZA := fun _ _ => tza;
     LocalTZA_range := fun _ _ => ltac:(cbn; lia);
     parse_fallback := fun _ => InvalidDate |}.

(** The two transitions of the zone of Cairo in 2025: at local midnight
    of 25 April the clocks go to 01:00 (22:00 UTC of the 24th), and at
    local midnight of 31 October they go back to 23:00 (21:00 UTC of the
    30th). *)
Definition cairo_spring_utc : Z := 20202 * msPerDay + 22 * 3600000.
Definition cairo_autumn_utc : Z := 20391 * msPerDay + 21 * 3600000.
Definition cairo_spring_local : Z := 20203 * msPerDay + 3600000.
Definition cairo_autumn_local : Z := 20392 * msPerDay.

(** The offset of Cairo in 2025: two hours east of UTC, three in summer.
    A local time of the skipped hour and of the repeated hour is read
    with the offset before the transition. *)
Definition cairo_offset (t : Z) (isUTC : bool) : Z :=
  if isUTC
  then (if (cairo_spring_utc <=? t) && (t <? cairo_autumn_utc) then 10800000 else 7200000)
  else (if (cairo_spring_local <=? t) && (t <? cairo_autumn_local) then 10800000 else 7200000).

(** The engine of a host in the zone of Cairo. *)
Definition cairo : Engine :=
  {| standard := 7200000;
     LocalTZA := cairo_offset;
     LocalTZA_range := fun t isUTC =>
       ltac:(cbn; unfold cairo_offset; destruct isUTC;
             match goal with |- context [if ?b then _ else _] => destruct b end; lia);
     parse_fallback := fun _ => InvalidDate |}.

(** The entry the loop yields at time value [t]. *)
Definition entry_at (t : Z) : DayEntry :=
  {| date := DateAt t; iso := Js.slice0 10 (isoString t) |}.

(** The parts pushed for the letters: the letters with a spacer between
    neighbours. *)
Fixpoint with_spacers (letters : list Grid) : list Grid :=
  match letters with
  | [] => []
  | [letter] => [letter]
  | letter :: rest => letter :: spacer :: with_spacers rest
  end.

(** An input of eight rows. *)
Definition tall_glyph : Grid := ["#"; "#"; "#"; "#"; "#"; "#"; "#"; "#"].

(** An input of five rows. *)
Definition short_glyph : Grid := ["#"; "#"; "#"; "#"; "#"].

(** The calendar date of a day number, as [formatGitDate] writes it. *)
Definition calendarDate (day : Z) : string :=
  Js.String_ (YearFromTime (day * msPerDay)) +:+ "-" +:+
  pad2 (MonthFromTime (day * msPerDay) + 1) +:+ "-" +:+
  pad2 (DateFromTime (day * msPerDay)).

(** The time of day [formatGitDate] writes. *)
Definition timeOfDay (hour minute second : Z) : string :=
  pad2 hour +:+ ":" +:+ pad2 minute +:+ ":" +:+ pad2 second.

(** The timestamp [formatGitDate] writes for a local day and a time. *)
Definition timestamp (day hour minute second : Z) : string :=
  calendarDate day +:+ " " +:+ timeOfDay hour minute second.

(** The times of day that [formatGitDate] draws. *)
Definition working_hours (hour minute second : Z) : Prop :=
  9 <= hour <= 21 /\ 0 <= minute <= 59 /\ 0 <= second <= 59.

(** A commit the script asks for: the local day of its timestamp and its
    message; the time of day is drawn when the commit is made. *)
Abbreviation Ask := (Z * string)%type.

(** The environment [makeCommit] gives to git. *)
Definition commit_env (env : gmap string string) (dateStr : string) : gmap string string :=
  <["GIT_COMMITTER_DATE" := dateStr]> (<["GIT_AUTHOR_DATE" := dateStr]> env).

(** Git takes the commit asked for, at whatever time of the working hours
    it is stamped. *)
Definition accepts (git : Git) (env : gmap string string) (ask : Ask) : Prop :=
  forall h m s, working_hours h m s ->
    git (commit_env env (timestamp (fst ask) h m s)) (snd ask)
        [("--date", timestamp (fst ask) h m s)] = None.

(** Git refuses the commit asked for with the text [e], at whatever time
    of the working hours it is stamped. *)
Definition refuses (git : Git) (env : gmap string string) (ask : Ask) (e : string) : Prop :=
  forall h m s, working_hours h m s ->
    git (commit_env env (timestamp (fst ask) h m s)) (snd ask)
        [("--date", timestamp (fst ask) h m s)] = Some e.

(** A git that takes every commit. *)
Definition obliging : Git := fun _ _ _ => None.

(** The year a timestamp starts with, when it starts with four digits. *)
Definition stamp_year (dateStr : string) : option Z := digits 0 (substring 0 4 dateStr).

(** A git that, like git 2.39 behind the wrapper library, refuses an
    empty message, a date whose year is not in 1970..2099, and an
    environment that sets [GIT_EDITOR]. *)
Definition strict_git : Git :=
  fun env message options =>
    if String.eqb message "" then Some "Aborting commit due to empty commit message."
    else if bool_decide (is_Some (env !! "GIT_EDITOR"))
    then Some "Use of GIT_EDITOR is not permitted without enabling allowUnsafeEditor"
    else match Obj.get options "--date" with
         | Some d =>
             match stamp_year d with
             | Some y => if (1970 <=? y) && (y <=? 2099) then None
                         else Some ("fatal: invalid date format: " +:+ d)
             | None => Some ("fatal: invalid date format: " +:+ d)
             end
         | None => None
         end.

(** A commit made for an ask: its message is the one asked for, its
    author timestamp is the calendar date of the day followed by a time
    of the working hours, and its committer timestamp is the same
    string. *)
Definition made (ask : Ask) (c : Commit) : Prop :=
  c_message c = snd ask
  /\ (exists h m s, working_hours h m s /\ c_author_date c = timestamp (fst ask) h m s)
  /\ c_committer_date c = c_author_date c.

(** What a run did to the world: it added the commits asked for by
    [asks], in that order, wrote [lines] to the error stream, and, when it
    made no commit, left every file as it was. *)
Definition effect (asks : list Ask) (lines : list string) (w w' : World) : Prop :=
  (exists cs, history w' = history w ++ cs /\ Forall2 made asks cs)
  /\ (asks = [] -> fs w' = fs w)
  /\ err w' = err w ++ lines.

(** Started inside a repository, [m] returns normally with a value
    satisfying [P], still inside the repository. *)
Definition runs {A} (asks : list Ask) (lines : list string) (P : A -> Prop) (m : M A) : Prop :=
  forall w, repo w = true ->
    exists a w', m w = (Ok a, w') /\ P a /\ effect asks lines w w' /\ repo w' = true.

(** Started inside a repository, [m] ends the process with exit status
    [code]. *)
Definition exits {A} (asks : list Ask) (lines : list string) (code : Z) (m : M A) : Prop :=
  forall w, repo w = true -> exists w', m w = (Exited code, w') /\ effect asks lines w w'.

(** Started inside a repository, [m] ends with the uncaught exception
    [e]. *)
Definition fails {A} (asks : list Ask) (lines : list string) (e : string) (m : M A) : Prop :=
  forall w, repo w = true -> exists w', m w = (Thrown e, w') /\ effect asks lines w w'.

(** The same three, wherever [m] is started. *)
Definition runs_anywhere {A} (asks : list Ask) (lines : list string) (P : A -> Prop)
    (m : M A) : Prop :=
  forall w, exists a w', m w = (Ok a, w') /\ P a /\ effect asks lines w w'.
Definition exits_anywhere {A} (asks : list Ask) (lines : list string) (code : Z)
    (m : M A) : Prop :=
  forall w, exists w', m w = (Exited code, w') /\ effect asks lines w w'.
Definition fails_anywhere {A} (asks : list Ask) (lines : list string) (e : string)
    (m : M A) : Prop :=
  forall w, exists w', m w = (Thrown e, w') /\ effect asks lines w w'.

(** No condition on the value returned. *)
Definition any {A} : A -> Prop := fun _ => True.

(** An empty working directory that is not yet a repository. *)
Definition fresh_world : World :=
  {| fs := ∅; repo := false; staged := ∅; history := []; out := []; err := []; draws := 0 |}.

(** An empty working directory that is a repository without a commit. *)
Definition fresh_repo : World :=
  {| fs := ∅; repo := true; staged := ∅; history := []; out := []; err := []; draws := 0 |}.

(** The local day number of an entry of the day sequencer. *)
Definition entryDay (engine : Engine) (e : DayEntry) : Z :=
  default 0 (dateDay engine (date e)).

(** Whether the cell at column [week] and row [weekday] is lit. *)
Definition is_lit (grid : Grid) (week weekday : nat) : bool :=
  match grid !! weekday with
  | Some row => Js.char_is (String.get week row) "#"
  | None => false
  end.

(** The number of columns: the length of row 0. *)
Definition width (grid : Grid) : nat := String.length (default "" (grid !! 0%nat)).

(** The lit cells [(week, weekday)], columns left to right and rows top to
    bottom. *)
Definition litCells (grid : Grid) : list (nat * nat) :=
  flat_map (fun week =>
              flat_map (fun weekday => if is_lit grid week weekday then [(week, weekday)] else [])
                       (seq 0 7))
           (seq 0 (width grid)).

(** The number of [#] characters of a row. *)
Fixpoint count_lit (row : string) : nat :=
  match row with
  | EmptyString => 0%nat
  | String c r => ((if Ascii.eqb c "#" then 1 else 0) + count_lit r)%nat
  end.

(** The number of [#] characters of a grid. *)
Definition litCount (grid : Grid) : nat := list_sum (map count_lit grid).

(** The date of the cell [(week, weekday)] in pattern mode:
    [target.setDate(target.getDate() + week * 7 + day)] on the start date
    [start]. *)
Definition cellDate (engine : Engine) (start : Z) (cell : nat * nat) : Z :=
  setDate_tv engine start
    (getDate_tv engine start + Z.of_nat (fst cell) * 7 + Z.of_nat (snd cell)).

(** The message of commit number [n] of a cell with the ISO label [iso]
    in pattern mode. *)
Definition pattern_message (name : string) (n : Z) (iso : string) : string :=
  "Pattern " +:+ Js.dquote +:+ name +:+ Js.dquote +:+ " commit #" +:+
  Js.String_ n +:+ " on " +:+ iso.

(** The commits pattern mode asks for at one lit cell: numbers 1 to
    [PATTERN_COMMITS], on the local day of the date of the cell. *)
Definition cell_asks (engine : Engine) (cfg : Config) (name : string) (start : Z)
    (cell : nat * nat) : list Ask :=
  map (fun n => (localDay engine (cellDate engine start cell),
                 pattern_message name (n + 1)
                   (Js.slice0 10 (isoString (cellDate engine start cell)))))
      (counting 0 (PATTERN_COMMITS cfg)).

(** The commits pattern mode asks for on a grid: those of its lit cells,
    columns left to right and rows top to bottom. *)
Definition pattern_asks (engine : Engine) (cfg : Config) (name : string) (grid : Grid)
    (start : Z) : list Ask :=
  flat_map (cell_asks engine cfg name start) (litCells grid).

(** The message of commit number [n] of a day with the ISO label [iso] in
    fill mode. *)
Definition fill_message (cfg : Config) (n : Z) (iso : string) : string :=
  Js.replace (Js.replace (COMMIT_MESSAGE cfg) "{n}" (Js.String_ n)) "{date}" iso.

(** The commits fill mode asks for on one entry of the day sequencer
    that gets [count] commits: numbers 1 to [count], on the local day of
    the entry. *)
Definition entry_asks (engine : Engine) (cfg : Config) (count : Z) (e : DayEntry) : list Ask :=
  map (fun n => (entryDay engine e, fill_message cfg n (iso e))) (counting 1 count).

(** The commits fill mode asks for when the entry at position [i] of
    [entries] gets the number of commits at position [i] of [counts]. *)
Definition fill_asks (engine : Engine) (cfg : Config) (entries : list DayEntry)
    (counts : list Z) : list Ask :=
  flat_map (fun en => entry_asks engine cfg (snd en) (fst en)) (combine entries counts).

(** Git takes every commit of a list of asks. *)
Definition takes (git : Git) (env : gmap string string) (asks : list Ask) : Prop :=
  forall ask, In ask asks -> accepts git env ask.

(** Git takes every commit fill mode may ask for on the entries, with up
    to [most] commits a day. *)
Definition fill_accepted (git : Git) (env : gmap string string) (engine : Engine)
    (cfg : Config) (entries : list DayEntry) (most : Z) : Prop :=
  forall e n, In e entries -> 1 <= n <= most ->
              accepts git env (entryDay engine e, fill_message cfg n (iso e)).

(** The line printed for a mode that is neither [fill] nor [pattern]. *)
Definition unknown_mode_line (mode : string) : string :=
  "❌  Unknown mode " +:+ Js.dquote +:+ mode +:+ Js.dquote +:+
  ". Use " +:+ Js.dquote +:+ "fill" +:+ Js.dquote +:+ " or " +:+
  Js.dquote +:+ "pattern" +:+ Js.dquote +:+ ".".

(** The default configuration with its two dates exchanged. *)
Definition reversed_range : Config := {|
  START_DATE := "2025-12-31";
  END_DATE := "2025-01-01";
  MIN_COMMITS_PER_DAY := 0;
  MAX_COMMITS_PER_DAY := 3;
  ACTIVITY_FILE := "activity.txt";
  COMMIT_MESSAGE := "Activity update #{n} on {date}";
  PATTERN_START_DATE := "2025-01-05";
  PATTERN_COMMITS := 3
|}.

(** The two lines an unknown pattern name puts on the error stream. *)
Definition unknown_pattern_lines (patterns : Patterns) (name : string) : list string :=
  ["❌  Unknown pattern " +:+ Js.dquote +:+ name +:+ Js.dquote +:+ ".";
   "    Available: " +:+ Js.join ", " (Obj.keys patterns)].

(** A path of the runtime executable: it holds a path separator. *)
Definition is_exec_path (s : string) : Prop :=
  Js.has_char "/" s = true \/ Js.has_char "092" s = true.

(** The world after [n] more random draws. *)
Definition after_draws (n : nat) (w : World) : World :=
  {| fs := fs w; repo := repo w; staged := staged w; history := history w;
     out := out w; err := err w; draws := (draws w + n)%nat |}.

(** The exit statuses the script uses: an outcome that is no exit with a
    status other than 1. *)
Definition tame {A} (o : Outcome A) : Prop :=
  match o with Exited code => code = 1 | _ => True end.

(** [w'] comes from [w] by additions only: new commits after the old ones,
    each with equal author and committer timestamps and the activity file
    [file] in its tree; new lines after the old ones on both streams; text
    appended to the activity file, every other file as it was; more draws;
    and a repository stays one. *)
Definition grows (file : string) (w w' : World) : Prop :=
  (exists cs, history w' = history w ++ cs
              /\ Forall (fun c => c_author_date c = c_committer_date c
                                  /\ is_Some (c_tree c !! file)) cs)
  /\ (exists lines, out w' = out w ++ lines)
  /\ (exists lines, err w' = err w ++ lines)
  /\ (forall path, path <> file -> fs w' !! path = fs w !! path)
  /\ (exists text, default "" (fs w' !! file) = default "" (fs w !! file) +:+ text)
  /\ (draws w <= draws w')%nat
  /\ (repo w = true -> repo w' = true).

(** Whatever the world, [m] ends tamely in a world grown from it. *)
Definition safe {A} (file : string) (m : M A) : Prop :=
  forall w, tame (fst (m w)) /\ grows file w (snd (m w)).

(** Whatever the world and however [m] ends, the working directory is a
    repository afterwards. *)
Definition settles {A} (m : M A) : Prop := forall w, repo (snd (m w)) = true.

(** The line the handler of the script prints for an exception [e], given
    by its name and message (the stack trace that the engine prints after
    them is outside the model). *)
Definition fatal_line (e : string) : string := "💥  Fatal error: " +:+ e.

(** The commits pattern mode asks for at the lit cells of column 0 in the
    rows that a grid has. *)
Definition first_column_asks (engine : Engine) (cfg : Config) (name : string) (grid : Grid)
    (start : Z) : list Ask :=
  flat_map (fun weekday => if is_lit grid 0 weekday
                           then cell_asks engine cfg name start (0%nat, weekday) else [])
           (seq 0 (length grid)).

(** The date of [toISOString] for a day number: the first ten characters
    of the ISO form of a time of that (UTC) day. *)
Definition isoDate (day : Z) : string := Js.slice0 10 (isoString (day * msPerDay)).

(** The date part of [toISOString]. *)
Definition isoDatePart (t : Z) : string :=
  isoYear (YearFromTime t) +:+ "-" +:+ pad2 (MonthFromTime t + 1) +:+ "-" +:+
  pad2 (DateFromTime t).

(** The last line fill mode prints. *)
Definition fill_done_line (commits days : Z) : string :=
  Js.LF +:+ "✅  Done!  " +:+ Js.String_ commits +:+ " commits across " +:+
  Js.String_ days +:+ " days.".

(** Whether a row is made of [#] and [.] only. *)
Fixpoint only_cells (row : string) : bool :=
  match row with
  | EmptyString => true
  | String c r => (Ascii.eqb c "#" || Ascii.eqb c ".") && only_cells r
  end.

(** A grid as the pattern table describes it: seven rows of one length,
    made of [#] and [.] only. *)
Definition well_formed (grid : Grid) : Prop :=
  length grid = 7%nat
  /\ Forall (fun row => String.length row = width grid /\ only_cells row = true) grid.

(** The lit cells, each as many times as it gets commits. *)
Definition cell_commits (cfg : Config) (grid : Grid) : list (nat * nat) :=
  flat_map (fun cell => repeat cell (Z.to_nat (PATTERN_COMMITS cfg))) (litCells grid).

(** The character of a decimal digit. *)
Definition digit_char (k : Z) : ascii := ascii_of_nat (Z.to_nat (k + 48)).

(** Two and four decimal digits, as written. *)
Definition two_digits (n : Z) : string :=
  String (digit_char (n / 10)) (String (digit_char (n mod 10)) "").
Definition four_digits (n : Z) : string :=
  String (digit_char (n / 1000)) (String (digit_char (n / 100 mod 10)) (two_digits (n mod 100))).

(** The last line pattern mode prints. *)
Definition pattern_done_line (commits : Z) : string :=
  Js.LF +:+ "✅  Done!  " +:+ Js.String_ commits +:+ " pattern commits created.".

(** Whether a string holds characters of the ASCII range only. *)
Fixpoint is_ascii (s : string) : bool :=
  match s with
  | EmptyString => true
  | String c r => (nat_of_ascii c <? 128)%nat && is_ascii r
  end.

(** The pattern name given on the command line, [HI] when there is none,
    is made of ASCII characters: the case conversions of the model are
    those of the engine on such names only. *)
Definition ascii_name (argv : list string) : Prop :=
  is_ascii (Js.or_else (Js.at_ argv 3) "HI") = true.

(** The progress line of fill mode after [days] days and [commits] commits. *)
Definition progress_line (days commits : Z) : string :=
  "    ✔  Processed " +:+ Js.String_ days +:+ " days  (" +:+
  Js.String_ commits +:+ " commits so far)".

(** The day counts, among the [n] that follow [done], at which fill mode
    prints a progress line. *)
Definition progress_days (done n : Z) : list Z :=
  List.filter (fun d => d mod 30 =? 0) (counting (done + 1) n).

(** The three lines fill mode prints first. *)
Definition fill_header (cfg : Config) : list string :=
  ["🟩  MODE: Fill the contribution graph";
   "    From " +:+ START_DATE cfg +:+ "  →  " +:+ END_DATE cfg;
   "    Commits per day: " +:+ Js.String_ (MIN_COMMITS_PER_DAY cfg) +:+ "–" +:+
   Js.String_ (MAX_COMMITS_PER_DAY cfg) +:+ Js.LF].

(** [m] writes nothing to the output stream, however it ends. *)
Definition silent {A} (m : M A) : Prop := forall w, out (snd (m w)) = out w.

(* ===================================================================== *)
(** * Checks of the model on sample inputs *)
(* ===================================================================== *)

Example day_2025_01_01 : MakeDay 2025 0 1 = 20089.
Proof. reflexivity. Qed.

Example iso_2025_01_05 : isoString (20093 * msPerDay) = "2025-01-05T00:00:00.000Z".
Proof. vm_compute. reflexivity. Qed.

Example weekday_2025_01_05 : WeekDay (MakeDay 2025 0 5 * msPerDay) = 0.
Proof. reflexivity. Qed.

Example replace_placeholders :
  Js.replace (Js.replace "Activity update #{n} on {date}" "{n}" (Js.String_ 2))
             "{date}" "2025-01-01"
  = "Activity update #2 on 2025-01-01".
Proof. reflexivity. Qed.

Example iso_leap_day : Js.slice0 10 (isoString (MakeDay 2024 1 29 * msPerDay)) = "2024-02-29".
Proof. vm_compute. reflexivity. Qed.

Example iso_before_epoch : Js.slice0 10 (isoString (-1)) = "1969-12-31".
Proof. vm_compute. reflexivity. Qed.

Example parse_ist :
  new_Date_midnight (fixed_zone 19800000) "2025-01-01" = DateAt (20089 * msPerDay - 19800000).
Proof. vm_compute. reflexivity. Qed.

Example dayRange_three_days :
  map iso (dayRange (fixed_zone 0) "2025-02-27" "2025-03-01")
  = ["2025-02-27"; "2025-02-28"; "2025-03-01"].
Proof. vm_compute. reflexivity. Qed.

Example PATTERNS_HI :
  Obj.get PATTERNS "HI" =
  Some (Some ["#.#.###"; "#.#..#."; "#.#..#."; "###..#."; "#.#..#."; "#.#..#."; "#.#.###"]).
Proof. reflexivity. Qed.

(* ===================================================================== *)
(** * Soundness of the calendar *)
(* ===================================================================== *)

(** Arithmetic on day numbers, with the floor divisions made explicit. *)
Ltac div_lia := unfold msPerDay in *; Z.to_euclidean_division_equations; lia.

(** [YearFromTime t] is the year whose days include the day of [t]. *)
Lemma YearFromTime_spec t :
  DayFromYear (YearFromTime t) <= Day t < DayFromYear (YearFromTime t + 1).
Proof.
  unfold YearFromTime. generalize (Day t). intros d.
  set (y := 1970 + 400 * d / 146097).
  assert (Hy : 146097 * (y - 1970) <= 400 * d < 146097 * (y - 1970) + 146097).
  { unfold y. Z.to_euclidean_division_equations; lia. }
  clearbody y.
  destruct (Z.ltb_spec d (DayFromYear y)) as [H1|H1].
  - replace (y - 1 + 1) with y by lia. split; [|assumption].
    unfold DayFromYear in *. Z.to_euclidean_division_equations; lia.
  - destruct (Z.leb_spec (DayFromYear (y + 1)) d) as [H2|H2].
    + split; [assumption|]. unfold DayFromYear in *. Z.to_euclidean_division_equations; lia.
    + split; assumption.
Qed.

Lemma DayFromYear_succ y : DayFromYear (y + 1) = DayFromYear y + DaysInYear y.
Proof.
  unfold DayFromYear, DaysInYear.
  destruct (Z.eqb_spec (y mod 4) 0), (Z.eqb_spec (y mod 100) 0), (Z.eqb_spec (y mod 400) 0);
    cbn [andb orb negb]; Z.to_euclidean_division_equations; lia.
Qed.

Lemma DayFromYear_mono a b : a <= b -> DayFromYear a <= DayFromYear b.
Proof. intros Hab. unfold DayFromYear. Z.to_euclidean_division_equations; lia. Qed.

Lemma DaysInYear_cases y : DaysInYear y = 365 \/ DaysInYear y = 366.
Proof. unfold DaysInYear. destruct (_ && _); auto. Qed.

Lemma DayWithinYear_range t : 0 <= DayWithinYear t < DaysInYear (YearFromTime t).
Proof.
  unfold DayWithinYear. pose proof (YearFromTime_spec t) as Hy.
  rewrite DayFromYear_succ in Hy. lia.
Qed.

Lemma MonthFromTime_range t : 0 <= MonthFromTime t <= 11.
Proof.
  unfold MonthFromTime.
  repeat match goal with |- context [if ?b then _ else _] => destruct b end; lia.
Qed.

Ltac split_months :=
  repeat match goal with
         | |- context [if ?b <? ?c then _ else _] => destruct (Z.ltb_spec b c); try lia
         end.

Lemma DateFromTime_range t :
  1 <= DateFromTime t <= DaysInMonth (MonthFromTime t) (InLeapYear t).
Proof.
  pose proof (DayWithinYear_range t) as Hd.
  unfold DateFromTime, MonthFromTime, InLeapYear in *.
  destruct (DaysInYear_cases (YearFromTime t)) as [Hy|Hy]; rewrite Hy in *;
    cbn [Z.eqb Pos.eqb] in *; split_months; cbn [monthStart DaysInMonth]; lia.
Qed.

Lemma YearFromTime_unique t y :
  DayFromYear y <= Day t < DayFromYear (y + 1) -> YearFromTime t = y.
Proof.
  intros Hy. pose proof (YearFromTime_spec t) as Ht.
  destruct (Z.lt_trichotomy (YearFromTime t) y) as [Hlt | [Heq | Hgt]]; [|assumption|].
  - pose proof (DayFromYear_mono (YearFromTime t + 1) y ltac:(lia)). lia.
  - pose proof (DayFromYear_mono (y + 1) (YearFromTime t) ltac:(lia)). lia.
Qed.

Lemma Day_of_day d : Day (d * msPerDay) = d.
Proof. unfold Day. div_lia. Qed.

(** The calendar fields of the day [MakeDay] computes for a date of the
    calendar are that date. *)
Lemma fields_of_MakeDay y m d :
  0 <= m <= 11 -> 1 <= d <= DaysInMonth m (if DaysInYear y =? 366 then 1 else 0) ->
  let t := MakeDay y m d * msPerDay in
  YearFromTime t = y /\ MonthFromTime t = m /\ DateFromTime t = d.
Proof.
  intros Hm Hd t.
  assert (HD : Day t = MakeDay y m d) by apply Day_of_day.
  assert (Hc : m = 0 \/ m = 1 \/ m = 2 \/ m = 3 \/ m = 4 \/ m = 5 \/ m = 6
               \/ m = 7 \/ m = 8 \/ m = 9 \/ m = 10 \/ m = 11) by lia.
  assert (Hyear : YearFromTime t = y).
  { apply YearFromTime_unique. rewrite HD, DayFromYear_succ. unfold MakeDay.
    rewrite (Z.div_small m 12), (Z.mod_small m 12), Z.add_0_r by lia.
    destruct (DaysInYear_cases y) as [Hy|Hy]; rewrite Hy in *; cbn [Z.eqb Pos.eqb] in *;
      repeat (destruct Hc as [-> | Hc]; [cbn [monthStart DaysInMonth] in *; lia|]);
      subst m; cbn [monthStart DaysInMonth] in *; lia. }
  split; [exact Hyear|].
  unfold DateFromTime, MonthFromTime, DayWithinYear, InLeapYear. rewrite Hyear, HD.
  unfold MakeDay. rewrite (Z.div_small m 12), (Z.mod_small m 12), Z.add_0_r by lia.
  destruct (DaysInYear_cases y) as [Hy|Hy]; rewrite Hy in *; cbn [Z.eqb Pos.eqb] in *;
    repeat (destruct Hc as [-> | Hc];
            [cbn [monthStart DaysInMonth] in *; split_months; cbn [monthStart]; lia|]);
    subst m; cbn [monthStart DaysInMonth] in *; split_months; cbn [monthStart]; lia.
Qed.

(** [MakeDay] undoes [DateFromTime]: the day number of a time moved to the
    [k]-th day after its own day of the month. *)
Lemma MakeDay_DateFromTime lt k :
  MakeDay (YearFromTime lt) (MonthFromTime lt) (DateFromTime lt + k) = Day lt + k.
Proof.
  unfold MakeDay, DateFromTime, DayWithinYear, InLeapYear.
  pose proof (MonthFromTime_range lt) as Hm.
  rewrite (Z.div_small _ 12), (Z.mod_small _ 12), Z.add_0_r by lia.
  lia.
Qed.

Lemma steady_LocalTime engine tza t : steady engine tza -> LocalTime engine t = t + tza.
Proof. intros Hz. unfold LocalTime. now rewrite Hz. Qed.

Lemma steady_UTC engine tza t : steady engine tza -> UTC engine t = t - tza.
Proof. intros Hz. unfold UTC. now rewrite Hz. Qed.

Lemma steady_fixed_zone tza : steady (fixed_zone tza) tza.
Proof. intros t isUTC. reflexivity. Qed.

(** In a zone without daylight saving, [d.setDate(d.getDate() + k)] moves
    a date by [k] whole days. *)
Lemma setDate_getDate_tv engine tza t k :
  steady engine tza ->
  setDate_tv engine t (getDate_tv engine t + k) = t + k * msPerDay.
Proof.
  intros Hz. unfold setDate_tv, getDate_tv.
  rewrite MakeDay_DateFromTime, (steady_UTC _ _ _ Hz), (steady_LocalTime _ _ _ Hz).
  unfold MakeDate, TimeWithinDay, Day. div_lia.
Qed.

(** What [new Date(iso + "T00:00:00")] is for a string [YYYY-MM-DD]. *)
Lemma new_Date_midnight_parsed engine iso y m d :
  parseYMD iso = Some (y, m, d) ->
  new_Date_midnight engine iso = DateAt (UTC engine (MakeDay y (m - 1) d * msPerDay)).
Proof.
  intros Hparse. unfold new_Date_midnight, MakeDate. rewrite Hparse. do 2 f_equal. lia.
Qed.

Lemma parseYMD_range iso y m d : parseYMD iso = Some (y, m, d) -> 1 <= m <= 12 /\ 1 <= d <= 31.
Proof.
  intros Hparse. unfold parseYMD in Hparse.
  repeat match type of Hparse with
         | (if ?b then _ else _) = _ => destruct b eqn:?; try discriminate
         | match ?o with Some _ => _ | None => _ end = _ => destruct o; try discriminate
         end.
  injection Hparse as -> -> ->. lia.
Qed.

(* ===================================================================== *)
(** * Properties of the day sequencer *)
(* ===================================================================== *)

Lemma Day_shift t k : Day (t + k * msPerDay) = Day t + k.
Proof. unfold Day. div_lia. Qed.

Lemma localDay_shift engine tza t k :
  steady engine tza -> localDay engine (t + k * msPerDay) = localDay engine t + k.
Proof.
  intros Hz. unfold localDay. rewrite !(steady_LocalTime _ _ _ Hz).
  replace (t + k * msPerDay + tza) with (t + tza + k * msPerDay) by lia.
  apply Day_shift.
Qed.

(** In a zone without daylight saving, the date made of a string
    [YYYY-MM-DD] is the local midnight of the day written. *)
Lemma new_Date_midnight_local engine tza s y m d :
  steady engine tza ->
  parseYMD s = Some (y, m, d) ->
  new_Date_midnight engine s = DateAt (MakeDay y (m - 1) d * msPerDay - tza)
  /\ localDay engine (MakeDay y (m - 1) d * msPerDay - tza) = MakeDay y (m - 1) d.
Proof.
  intros Hz Hparse. rewrite (new_Date_midnight_parsed _ _ _ _ _ Hparse), (steady_UTC _ _ _ Hz).
  split; [reflexivity|]. unfold localDay. rewrite (steady_LocalTime _ _ _ Hz).
  replace (MakeDay y (m - 1) d * msPerDay - tza + tza)
    with (MakeDay y (m - 1) d * msPerDay) by lia.
  apply Day_of_day.
Qed.

(** Every round of the loop moves its date at least 22 hours forward,
    whatever the zone. *)
Lemma nextDay_advances engine current : current + leastStep <= nextDay engine current.
Proof.
  unfold nextDay, setDate_tv, getDate_tv. rewrite MakeDay_DateFromTime.
  unfold MakeDate, UTC, TimeWithinDay, Day.
  match goal with
  | |- context [LocalTZA engine ?u false] =>
      pose proof (LocalTZA_range engine u false) as Hlocal;
      generalize dependent (LocalTZA engine u false)
  end.
  intros after Hafter. unfold LocalTime.
  pose proof (LocalTZA_range engine current true) as Hutc.
  generalize dependent (LocalTZA engine current true). intros before Hbefore.
  unfold leastStep. div_lia.
Qed.

(** The cut of the loop is never what stops it: more rounds than
    [(end - current) / leastStep + 1] change nothing. *)
Lemma dayRange_while_enough engine end_ (n m : nat) :
  forall current,
    ((end_ - current) / leastStep + 1 <= Z.of_nat n) ->
    ((end_ - current) / leastStep + 1 <= Z.of_nat m) ->
    dayRange_while engine n end_ current = dayRange_while engine m end_ current.
Proof.
  revert m. induction n as [|n IH]; intros m current Hn Hm.
  - destruct m as [|m]; [reflexivity|]. cbn [dayRange_while].
    destruct (Z.leb_spec current end_) as [Hle|]; [|reflexivity].
    exfalso. unfold leastStep in *. Z.to_euclidean_division_equations; lia.
  - destruct m as [|m]; cbn [dayRange_while];
      (destruct (Z.leb_spec current end_) as [Hle|]; [|reflexivity]).
    + exfalso. unfold leastStep in *. Z.to_euclidean_division_equations; lia.
    + f_equal. pose proof (nextDay_advances engine current) as Hnext.
      apply IH; generalize dependent (nextDay engine current); intros next Hnext;
        unfold leastStep in *; Z.to_euclidean_division_equations; lia.
Qed.

(** The equation of the [while] loop. *)
Lemma dayRange_loop_equation engine end_ current :
  dayRange_loop engine end_ current
  = if current <=? end_
    then {| date := DateAt current; iso := Js.slice0 10 (isoString current) |}
         :: dayRange_loop engine end_ (nextDay engine current)
    else [].
Proof.
  unfold dayRange_loop.
  destruct (Z.leb_spec current end_) as [Hle|Hgt].
  - assert (Hfuel : exists k, Z.to_nat ((end_ - current) / leastStep + 1) = S k).
    { exists (Z.to_nat ((end_ - current) / leastStep)).
      unfold leastStep. Z.to_euclidean_division_equations; lia. }
    destruct Hfuel as [k Hk]. rewrite Hk. cbn [dayRange_while].
    destruct (Z.leb_spec current end_); [|lia]. f_equal.
    pose proof (nextDay_advances engine current) as Hnext.
    apply dayRange_while_enough; generalize dependent (nextDay engine current);
      intros next Hnext; unfold leastStep in *; Z.to_euclidean_division_equations; lia.
  - destruct (Z.to_nat _); [reflexivity|]. cbn [dayRange_while].
    destruct (Z.leb_spec current end_); [lia | reflexivity].
Qed.

(** Every entry the loop yields holds a valid date and the first ten
    characters of its ISO form. *)
Lemma dayRange_while_entries engine (n : nat) end_ current e :
  In e (dayRange_while engine n end_ current) -> exists t, e = entry_at t.
Proof.
  revert current. induction n as [|n IH]; intros current; cbn [dayRange_while]; [intros []|].
  destruct (current <=? end_); [|intros []].
  intros [<-|Hin]; [now exists current | now apply IH in Hin].
Qed.

Lemma dayRange_entries engine startISO endISO e :
  In e (dayRange engine startISO endISO) -> exists t, e = entry_at t.
Proof.
  unfold dayRange, dayRange_loop.
  destruct (new_Date_midnight engine startISO); [intros []|].
  destruct (new_Date_midnight engine endISO); [intros []|].
  apply dayRange_while_entries.
Qed.

(** In a zone without daylight saving, the loop started [n] days before
    it runs past [end_] yields [n] entries, one per day. *)
Lemma dayRange_loop_days engine tza end_ (n : nat) :
  steady engine tza ->
  forall current,
    ((0 < n)%nat -> current + (Z.of_nat n - 1) * msPerDay <= end_) ->
    end_ < current + Z.of_nat n * msPerDay ->
    dayRange_loop engine end_ current
    = map (fun i : nat => entry_at (current + Z.of_nat i * msPerDay)) (seq 0 n).
Proof.
  intros Hz.
  induction n as [|n IH]; intros current Hlo Hhi; rewrite dayRange_loop_equation.
  - destruct (Z.leb_spec current end_); [unfold msPerDay in *; lia | reflexivity].
  - specialize (Hlo ltac:(lia)).
    destruct (Z.leb_spec current end_); [|unfold msPerDay in *; lia].
    unfold nextDay.
    rewrite (setDate_getDate_tv _ _ _ _ Hz), IH by (unfold msPerDay in *; lia).
    cbn [seq map]. rewrite Z.add_0_r. f_equal.
    rewrite <- seq_shift, map_map. apply map_ext. intros i.
    f_equal. lia.
Qed.

(** All the yields of the loop in such a zone, whatever its bounds. *)
Lemma dayRange_loop_entries engine tza end_ current :
  steady engine tza ->
  dayRange_loop engine end_ current
  = map (fun i : nat => entry_at (current + Z.of_nat i * msPerDay))
        (seq 0 (Z.to_nat ((end_ - current) / msPerDay + 1))).
Proof.
  intros Hz. apply (dayRange_loop_days _ _ _ _ Hz); [intros Hpos|]; div_lia.
Qed.

(** In a zone without daylight saving and for two dates written
    [YYYY-MM-DD], the first not after the second, [dayRange] yields
    exactly (end - start in days + 1) entries; the date of the i-th entry
    is the local midnight of day start + i; the first date is the start
    date and the last is the end date. *)
Theorem dayRange_yields_every_day engine tza startISO endISO ys ms ds ye me de :
  steady engine tza ->
  parseYMD startISO = Some (ys, ms, ds) ->
  parseYMD endISO = Some (ye, me, de) ->
  let first := MakeDay ys (ms - 1) ds in
  let last_ := MakeDay ye (me - 1) de in
  first <= last_ ->
  let days := dayRange engine startISO endISO in
  length days = Z.to_nat (last_ - first + 1)
  /\ (forall (i : nat) e, days !! i = Some e ->
        date e = DateAt ((first + Z.of_nat i) * msPerDay - tza)
        /\ dateDay engine (date e) = Some (first + Z.of_nat i))
  /\ date <$> head days = Some (DateAt (first * msPerDay - tza))
  /\ date <$> last days = Some (DateAt (last_ * msPerDay - tza))
  /\ new_Date_midnight engine startISO = DateAt (first * msPerDay - tza)
  /\ new_Date_midnight engine endISO = DateAt (last_ * msPerDay - tza).
Proof.
  intros Hz Hps Hpe first last_ Hle days.
  destruct (new_Date_midnight_local engine tza _ _ _ _ Hz Hps) as [Hs Hds].
  destruct (new_Date_midnight_local engine tza _ _ _ _ Hz Hpe) as [He Hde].
  fold first in Hs, Hds. fold last_ in He, Hde.
  set (n := Z.to_nat (last_ - first + 1)).
  assert (Hdays : days = map (fun i : nat => entry_at ((first + Z.of_nat i) * msPerDay - tza))
                             (seq 0 n)).
  { unfold days, dayRange. rewrite Hs, He.
    rewrite (dayRange_loop_days engine tza _ n Hz) by (unfold n, msPerDay in *; lia).
    apply map_ext. intros i. f_equal. lia. }
  rewrite Hdays. split; [|split; [|split; [|split; [|split]]]]; try assumption.
  - now rewrite length_map, length_seq.
  - intros i e Hi. rewrite list_lookup_fmap in Hi.
    destruct (seq 0 n !! i) as [j|] eqn:Hj; [|discriminate].
    apply lookup_seq in Hj as [-> _]. injection Hi as <-. cbn [entry_at date dateDay].
    split; [reflexivity|]. f_equal.
    replace ((first + Z.of_nat i) * msPerDay - tza)
      with (first * msPerDay - tza + Z.of_nat i * msPerDay) by lia.
    now rewrite (localDay_shift _ _ _ _ Hz), Hds.
  - destruct n as [|k] eqn:En; [unfold n in En; lia|].
    cbn. do 3 f_equal. lia.
  - destruct n as [|k] eqn:En; [unfold n in En; lia|].
    rewrite seq_S, map_app. cbn [map]. rewrite last_snoc. cbn. do 3 f_equal.
    unfold n in *. lia.
Qed.

Lemma dayRange_yields_every_day_witness :
  length (dayRange (fixed_zone 19800000) "2025-01-30" "2025-02-02") = 4%nat.
Proof.
  exact (proj1 (dayRange_yields_every_day (fixed_zone 19800000) 19800000
                  "2025-01-30" "2025-02-02" 2025 1 30 2025 2 2
                  (steady_fixed_zone 19800000) eq_refl eq_refl
                  ltac:(vm_compute; discriminate))).
Defined.

Example dayRange_iso_east :
  map iso (dayRange (fixed_zone 19800000) "2025-01-01" "2025-01-02")
  = ["2024-12-31"; "2025-01-01"].
Proof. vm_compute. reflexivity. Qed.

(** In the zone of Cairo the midnight of 25 April 2025 does not exist:
    the date made of that day is 01:00 local time. *)
Example cairo_skipped_midnight :
  new_Date_midnight cairo "2025-04-25" = DateAt (cairo_spring_utc)
  /\ LocalTime cairo cairo_spring_utc = cairo_spring_local.
Proof. vm_compute. split; reflexivity. Qed.

(** C1 fails on the code in a zone where a transition skips midnight.
    With the default configuration (the year 2025) in the zone of Cairo
    the loop yields 364 entries, not 365: from 25 April on the dates sit
    at 01:00 local time, so the last turn of the loop finds 31 December
    01:00, which is after the end date, and 31 December is not yielded.
    The last entry is 30 December; and east of Greenwich the ISO label of
    an entry names the day before its date (here the first entry, 1
    January, is labelled 31 December 2024). *)
Theorem dayRange_drops_the_end_date :
  let days := dayRange cairo (START_DATE CONFIG) (END_DATE CONFIG) in
  new_Date_midnight cairo (START_DATE CONFIG) = DateAt (20089 * msPerDay - 7200000)
  /\ new_Date_midnight cairo (END_DATE CONFIG) = DateAt (20453 * msPerDay - 7200000)
  /\ length days = 364%nat
  /\ entryDay cairo <$> last days = Some 20452
  /\ date <$> last days <> Some (DateAt (20453 * msPerDay - 7200000))
  /\ iso <$> head days = Some "2024-12-31".
Proof. vm_compute. repeat split; discriminate. Qed.

(* ===================================================================== *)
(** * Properties of the pattern compiler *)
(* ===================================================================== *)

Lemma string_app_nil_l (s : string) : "" +:+ s = s.
Proof. reflexivity. Qed.

Lemma string_app_cons (c : ascii) (s t : string) : String c s +:+ t = String c (s +:+ t).
Proof. reflexivity. Qed.

Lemma string_length_append (s1 s2 : string) :
  String.length (s1 +:+ s2) = (String.length s1 + String.length s2)%nat.
Proof.
  induction s1 as [|c s1 IH]; [reflexivity|].
  rewrite string_app_cons. simpl. now f_equal.
Qed.

(** A row of the first grid, a blank, a row of the second grid. *)
Lemma joined_row (ra rb : string) (w1 w2 : nat) :
  String.length ra = w1 -> String.length rb = w2 ->
  let r := ra +:+ "." +:+ rb in
  String.length r = (w1 + 1 + w2)%nat
  /\ String.get w1 r = Some "."%char
  /\ (forall j, (j < w1)%nat -> String.get j r = String.get j ra)
  /\ (forall j, (j < w2)%nat -> String.get (w1 + 1 + j) r = String.get j rb).
Proof.
  intros <- <- r. unfold r. repeat split.
  - rewrite string_length_append, string_app_cons, string_app_nil_l. simpl. lia.
  - change (String.length ra) with (0 + String.length ra)%nat.
    now rewrite <- append_correct2.
  - intros j Hj. symmetry. now apply append_correct1.
  - intros j Hj.
    replace (String.length ra + 1 + j)%nat with (S j + String.length ra)%nat by lia.
    now rewrite <- append_correct2.
Qed.

Lemma push_letters_later letters :
  forall i parts,
    push_letters (S i) letters parts = parts ++ flat_map (fun l => [spacer; l]) letters.
Proof.
  induction letters as [|l rest IH]; intros i parts.
  - cbn. now rewrite app_nil_r.
  - cbn [push_letters flat_map]. rewrite IH.
    change (0 <? S i)%nat with true. cbv iota.
    now rewrite <- !app_assoc.
Qed.

Lemma with_spacers_cons l rest :
  with_spacers (l :: rest) = l :: flat_map (fun l => [spacer; l]) rest.
Proof.
  revert l. induction rest as [|l' rest IH]; intros l; [reflexivity|].
  change (with_spacers (l :: l' :: rest)) with (l :: spacer :: with_spacers (l' :: rest)).
  now rewrite IH.
Qed.

Lemma push_letters_spec letters : push_letters 0 letters [] = with_spacers letters.
Proof.
  destruct letters as [|l rest]; [reflexivity|].
  cbn [push_letters]. rewrite push_letters_later, with_spacers_cons. reflexivity.
Qed.

Lemma combinePatterns_rows letters :
  combinePatterns letters
  = map (fun row => Js.join "" (map (row_of row) (with_spacers letters))) (seq 0 7).
Proof. unfold combinePatterns. now rewrite push_letters_spec. Qed.

(** C5.  Combining two 7-row grids of widths [w1] and [w2] gives a 7-row
    grid of width [w1 + 1 + w2]; each row is the row of the first grid, a
    blank, and the row of the second grid, so column [w1] is blank, the
    columns before it are those of the first grid and the columns after it
    those of the second, in order. *)
Theorem combinePatterns_two_grids (a b : Grid) (w1 w2 : nat) :
  length a = 7%nat -> length b = 7%nat ->
  Forall (fun r => String.length r = w1) a ->
  Forall (fun r => String.length r = w2) b ->
  let g := combinePatterns [a; b] in
  length g = 7%nat
  /\ Forall (fun r => String.length r = (w1 + 1 + w2)%nat) g
  /\ (forall (row : nat) r, g !! row = Some r ->
        exists ra rb,
          a !! row = Some ra /\ b !! row = Some rb
          /\ r = ra +:+ "." +:+ rb
          /\ String.get w1 r = Some "."%char
          /\ (forall j, (j < w1)%nat -> String.get j r = String.get j ra)
          /\ (forall j, (j < w2)%nat -> String.get (w1 + 1 + j) r = String.get j rb)).
Proof.
  intros Ha Hb Hwa Hwb g.
  assert (Hrow : forall (row : nat) r, g !! row = Some r ->
            exists ra rb, a !! row = Some ra /\ b !! row = Some rb /\ r = ra +:+ "." +:+ rb).
  { unfold g.
    do 8 (destruct a as [|? a]; try discriminate Ha).
    do 8 (destruct b as [|? b]; try discriminate Hb).
    intros row r Hr.
    do 7 (destruct row as [|row]; [injection Hr as <-; eauto|]).
    discriminate Hr. }
  split; [reflexivity|]. split.
  - apply Forall_lookup_2. intros row r Hr.
    destruct (Hrow row r Hr) as (ra & rb & Hra & Hrb & ->).
    apply joined_row.
    + exact (Forall_lookup_1 _ _ _ _ Hwa Hra).
    + exact (Forall_lookup_1 _ _ _ _ Hwb Hrb).
  - intros row r Hr.
    destruct (Hrow row r Hr) as (ra & rb & Hra & Hrb & ->).
    exists ra, rb. do 3 (split; [reflexivity || assumption|]).
    apply (joined_row ra rb w1 w2).
    + exact (Forall_lookup_1 _ _ _ _ Hwa Hra).
    + exact (Forall_lookup_1 _ _ _ _ Hwb Hrb).
Qed.

Lemma combinePatterns_two_grids_witness :
  length (combinePatterns [Glyph.H; Glyph.I]) = 7%nat
  /\ Forall (fun r => String.length r = 7%nat) (combinePatterns [Glyph.H; Glyph.I]).
Proof.
  pose proof (combinePatterns_two_grids Glyph.H Glyph.I 3 3 eq_refl eq_refl
                ltac:(repeat constructor) ltac:(repeat constructor)) as (Hlen & Hwidth & _).
  exact (conj Hlen Hwidth).
Defined.

(** ** Inputs that do not have seven rows *)

(** The claim C7 fails on the code: an eight-row input is cut to its first
    seven rows and a five-row input is filled up with empty rows; in both
    cases an ordinary seven-row array comes back. *)
Lemma combinePatterns_silent_on_bad_rows :
  length tall_glyph = 8%nat
  /\ combinePatterns [tall_glyph] = take 7 tall_glyph
  /\ length short_glyph = 5%nat
  /\ combinePatterns [short_glyph] = short_glyph ++ [""; ""].
Proof. repeat split. Qed.

Lemma row_of_take (row : nat) (p : Grid) :
  (row < 7)%nat -> row_of row (take 7 p) = row_of row p.
Proof. intros Hrow. unfold row_of. now rewrite lookup_take_lt. Qed.

Lemma with_spacers_take letters row :
  (row < 7)%nat ->
  map (row_of row) (with_spacers (map (take 7) letters))
  = map (row_of row) (with_spacers letters).
Proof.
  intros Hrow. induction letters as [|l rest IH]; [reflexivity|].
  destruct rest as [|l' rest].
  - cbn. now rewrite row_of_take.
  - change (map (take 7) (l :: l' :: rest)) with (take 7 l :: map (take 7) (l' :: rest)).
    cbn [with_spacers map] in *. rewrite row_of_take by assumption.
    f_equal. f_equal. exact IH.
Qed.

(** C7, as the code has it.  [combinePatterns] checks no row count: for
    every input it returns seven rows; row [r] of the result joins row [r]
    of every part, a part without such a row giving the empty string; rows
    after the seventh play no role. *)
Theorem combinePatterns_any_rows (letters : list Grid) :
  length (combinePatterns letters) = 7%nat
  /\ (forall row : nat, (row < 7)%nat ->
        combinePatterns letters !! row
        = Some (Js.join "" (map (fun p => default "" (p !! row)) (with_spacers letters))))
  /\ combinePatterns letters = combinePatterns (map (take 7) letters).
Proof.
  rewrite !combinePatterns_rows. split; [reflexivity|]. split.
  - intros row Hrow.
    do 7 (destruct row as [|row]; [reflexivity|]). lia.
  - apply map_ext_in. intros row Hrow%in_seq.
    now rewrite with_spacers_take by lia.
Qed.

(* ===================================================================== *)
(** * Reasoning about runs of the script *)
(* ===================================================================== *)

Example calendarDate_2025_01_05 : calendarDate 20093 = "2025-01-05".
Proof. vm_compute. reflexivity. Qed.

(** For a date of the calendar it is the year, the month and the day, the
    last two on two digits. *)
Lemma calendarDate_of_date y m d :
  1 <= m <= 12 -> 1 <= d <= DaysInMonth (m - 1) (if DaysInYear y =? 366 then 1 else 0) ->
  calendarDate (MakeDay y (m - 1) d) = Js.String_ y +:+ "-" +:+ pad2 m +:+ "-" +:+ pad2 d.
Proof.
  intros Hm Hd. unfold calendarDate.
  destruct (fields_of_MakeDay y (m - 1) d) as (-> & -> & ->); [lia | lia |].
  now replace (m - 1 + 1) with m by lia.
Qed.

Lemma effect_refl w : effect [] [] w w.
Proof.
  split; [|split].
  - exists []. split; [now rewrite app_nil_r | constructor].
  - reflexivity.
  - now rewrite app_nil_r.
Qed.

Lemma effect_trans d1 l1 d2 l2 w1 w2 w3 :
  effect d1 l1 w1 w2 -> effect d2 l2 w2 w3 -> effect (d1 ++ d2) (l1 ++ l2) w1 w3.
Proof.
  intros ((cs1 & Hh1 & Hd1) & Hf1 & He1) ((cs2 & Hh2 & Hd2) & Hf2 & He2).
  split; [|split].
  - exists (cs1 ++ cs2). split.
    + now rewrite Hh2, Hh1, app_assoc.
    + now apply Forall2_app.
  - intros [-> ->]%app_eq_nil. now rewrite Hf2, Hf1.
  - now rewrite He2, He1, app_assoc.
Qed.

(** A world that differs only in its output stream, draw count and
    repository flag shows no effect. *)
Lemma effect_quiet w w' :
  fs w' = fs w -> history w' = history w -> err w' = err w -> effect [] [] w w'.
Proof.
  intros Hf Hh He. split; [|split].
  - exists []. split; [now rewrite app_nil_r | constructor].
  - intros _. assumption.
  - now rewrite app_nil_r.
Qed.

Lemma runs_ret {A} (a : A) (P : A -> Prop) : P a -> runs [] [] P (ret a).
Proof. intros Ha w Hrepo. exists a, w. auto using effect_refl. Qed.

Lemma runs_bind {A B} d1 l1 d2 l2 (P : A -> Prop) (Q : B -> Prop) (m : M A) (k : A -> M B) :
  runs d1 l1 P m -> (forall a, P a -> runs d2 l2 Q (k a)) ->
  runs (d1 ++ d2) (l1 ++ l2) Q (bind m k).
Proof.
  intros Hm Hk w Hrepo. destruct (Hm w Hrepo) as (a & w1 & Hrun & Ha & He1 & Hrepo1).
  destruct (Hk a Ha w1 Hrepo1) as (b & w2 & Hrun2 & Hb & He2 & Hrepo2).
  exists b, w2. unfold bind. rewrite Hrun. eauto using effect_trans.
Qed.

Lemma runs_weaken {A} d l (P Q : A -> Prop) (m : M A) :
  (forall a, P a -> Q a) -> runs d l P m -> runs d l Q m.
Proof.
  intros HPQ Hm w Hrepo. destruct (Hm w Hrepo) as (a & w' & Hrun & Ha & Heff).
  exists a, w'. auto.
Qed.

Lemma exits_bind_r {A B} d1 l1 d2 l2 code (P : A -> Prop) (m : M A) (k : A -> M B) :
  runs d1 l1 P m -> (forall a, P a -> exits d2 l2 code (k a)) ->
  exits (d1 ++ d2) (l1 ++ l2) code (bind m k).
Proof.
  intros Hm Hk w Hrepo. destruct (Hm w Hrepo) as (a & w1 & Hrun & Ha & He1 & Hrepo1).
  destruct (Hk a Ha w1 Hrepo1) as (w2 & Hrun2 & He2).
  exists w2. unfold bind. rewrite Hrun. eauto using effect_trans.
Qed.

(** A loop whose body at [x] makes the commits asked for by [f x] and
    moves its counter by their number makes, in all, the commits of every
    element in turn, and moves its counter by their number. *)
Lemma runs_for_of_tally {A} (f : A -> list Ask) (xs : list A) (body : Z -> A -> M Z) :
  (forall s x, In x xs ->
               runs (f x) [] (fun s' => s' = s + Z.of_nat (length (f x))) (body s x)) ->
  forall s, runs (flat_map f xs) [] (fun s' => s' = s + Z.of_nat (length (flat_map f xs)))
                 (for_of xs s body).
Proof.
  induction xs as [|x xs IH]; intros Hbody s.
  - apply runs_ret. cbn. lia.
  - cbn [for_of flat_map]. change (@nil string) with (@nil string ++ @nil string).
    eapply runs_bind.
    + apply Hbody. now left.
    + intros s' ->.
      eapply runs_weaken; [|apply IH; intros s'' y Hy; apply Hbody; now right].
      intros a ->. rewrite length_app. lia.
Qed.

Lemma runs_console_log s : runs [] [] any (console_log s).
Proof.
  intros w Hrepo. exists tt. eexists. split; [reflexivity|]. split; [exact Logic.I|].
  split; [now apply effect_quiet | exact Hrepo].
Qed.

Lemma runs_console_error s : runs [] [s] any (console_error s).
Proof.
  intros w Hrepo. exists tt. eexists. split; [reflexivity|]. split; [exact Logic.I|].
  split; [|exact Hrepo]. split; [|split]; [|reflexivity..].
  exists []. split; [now rewrite app_nil_r | constructor].
Qed.

Lemma exits_process_exit {A} code : exits [] [] code (@process_exit A code).
Proof. intros w _. exists w. split; [reflexivity | apply effect_refl]. Qed.

(** [runs] and [exits] with the lists of asks and lines given up to
    equality. *)
Lemma runs_seq {A B} d1 l1 d2 l2 d l (P : A -> Prop) (Q : B -> Prop) (m : M A) (k : A -> M B) :
  runs d1 l1 P m -> (forall a, P a -> runs d2 l2 Q (k a)) ->
  d = d1 ++ d2 -> l = l1 ++ l2 ->
  runs d l Q (bind m k).
Proof. intros Hm Hk -> ->. eapply runs_bind; eassumption. Qed.

Lemma exits_seq {A B} d1 l1 d2 l2 d l code (P : A -> Prop) (m : M A) (k : A -> M B) :
  runs d1 l1 P m -> (forall a, P a -> exits d2 l2 code (k a)) ->
  d = d1 ++ d2 -> l = l1 ++ l2 ->
  exits d l code (bind m k).
Proof. intros Hm Hk -> ->. eapply exits_bind_r; eassumption. Qed.

(** A quiet step followed by the rest. *)
Lemma runs_after {A B} d l (Q : B -> Prop) (m : M A) (k : A -> M B) :
  runs [] [] any m -> (forall a, runs d l Q (k a)) -> runs d l Q (bind m k).
Proof. intros Hm Hk. eapply runs_seq; [exact Hm | intros a _; apply Hk | reflexivity..]. Qed.

(* ===================================================================== *)
(** * The commit writer *)
(* ===================================================================== *)

Lemma string_app_assoc (a b c : string) : (a +:+ b) +:+ c = a +:+ (b +:+ c).
Proof.
  induction a as [|x a IH]; [reflexivity|].
  rewrite !string_app_cons. now f_equal.
Qed.

Lemma count_LF_append (a b : string) :
  Js.count_LF (a +:+ b) = (Js.count_LF a + Js.count_LF b)%nat.
Proof.
  induction a as [|x a IH]; [reflexivity|].
  rewrite string_app_cons. simpl. rewrite IH. lia.
Qed.

(** What one call of [makeCommit] does inside a repository when git takes
    the commit. *)
Lemma makeCommit_run git env clock cfg dateStr message w :
  repo w = true ->
  git (commit_env env dateStr) message [("--date", dateStr)] = None ->
  let file := ACTIVITY_FILE cfg in
  let after := default "" (fs w !! file) +:+ message +:+ "  |  " +:+ dateStr +:+ Js.LF in
  makeCommit git env clock cfg dateStr message w
  = (Ok tt,
     {| fs := <[file := after]> (fs w); repo := true;
        staged := <[file := after]> (staged w);
        history := history w ++ [{| c_message := message; c_author_date := dateStr;
                                    c_committer_date := dateStr;
                                    c_tree := <[file := after]> (staged w) |}];
        out := out w; err := err w; draws := draws w |}).
Proof.
  intros Hrepo Hgit file after. unfold makeCommit, bind, appendFileSync, git_add, git_commit.
  cbn [fs repo staged history out err draws]. rewrite Hrepo. cbn [negb].
  rewrite lookup_insert_eq. cbn [fs repo staged history out err draws negb].
  fold (commit_env env dateStr). rewrite Hgit.
  unfold commit_env. rewrite lookup_insert_eq. reflexivity.
Qed.

(** What it does inside a repository when git refuses the commit: the
    text is appended and staged, no commit is added, and the call
    throws. *)
Lemma makeCommit_refused git env clock cfg dateStr message e w :
  repo w = true ->
  git (commit_env env dateStr) message [("--date", dateStr)] = Some e ->
  let file := ACTIVITY_FILE cfg in
  let after := default "" (fs w !! file) +:+ message +:+ "  |  " +:+ dateStr +:+ Js.LF in
  makeCommit git env clock cfg dateStr message w
  = (Thrown e,
     {| fs := <[file := after]> (fs w); repo := true;
        staged := <[file := after]> (staged w);
        history := history w; out := out w; err := err w; draws := draws w |}).
Proof.
  intros Hrepo Hgit file after. unfold makeCommit, bind, appendFileSync, git_add, git_commit.
  cbn [fs repo staged history out err draws]. rewrite Hrepo. cbn [negb].
  rewrite lookup_insert_eq. cbn [fs repo staged history out err draws negb].
  fold (commit_env env dateStr). now rewrite Hgit.
Qed.

(** What it does outside a repository: the text is appended, and staging
    throws. *)
Lemma makeCommit_outside git env clock cfg dateStr message w :
  repo w = false ->
  let file := ACTIVITY_FILE cfg in
  let after := default "" (fs w !! file) +:+ message +:+ "  |  " +:+ dateStr +:+ Js.LF in
  makeCommit git env clock cfg dateStr message w
  = (Thrown not_a_repository,
     {| fs := <[file := after]> (fs w); repo := false; staged := staged w;
        history := history w; out := out w; err := err w; draws := draws w |}).
Proof.
  intros Hrepo file after. unfold makeCommit, bind, appendFileSync, git_add.
  cbn [fs repo staged history out err draws]. now rewrite Hrepo.
Qed.

(** The claim C4 fails on the code.  For a message with a line break,
    inside a repository and with a git that takes the commit, the call
    appends two lines to a file that had none; and for an empty timestamp,
    which git refuses, it creates no commit (the text is appended all the
    same). *)
Lemma makeCommit_two_lines :
  let message := "Fix" +:+ Js.LF +:+ "see notes" in
  let taken := makeCommit strict_git ∅ "now" CONFIG "2025-01-01 12:00:00" message fresh_repo in
  let refused := makeCommit strict_git ∅ "now" CONFIG "" "Fix" fresh_repo in
  fresh_repo.(fs) !! "activity.txt" = None
  /\ fst taken = Ok tt
  /\ length (history (snd taken)) = 1%nat
  /\ Js.count_LF (default "" (fs (snd taken) !! "activity.txt")) = 2%nat
  /\ fst refused = Thrown "fatal: invalid date format: "
  /\ history (snd refused) = []
  /\ Js.count_LF (default "" (fs (snd refused) !! "activity.txt")) = 1%nat.
Proof. vm_compute. repeat split. Qed.

(** Such a message reaches [makeCommit] from a commit-message template of
    two paragraphs: one commit of fill mode then adds three lines. *)
Example fill_mode_two_paragraphs :
  let cfg := {| START_DATE := "2025-01-01"; END_DATE := "2025-01-01";
                MIN_COMMITS_PER_DAY := 1; MAX_COMMITS_PER_DAY := 1;
                ACTIVITY_FILE := "activity.txt";
                COMMIT_MESSAGE := "Activity update #{n}" +:+ Js.LF +:+ Js.LF +:+ "on {date}";
                PATTERN_START_DATE := "2025-01-05"; PATTERN_COMMITS := 3 |} in
  let w' := snd (runFillMode (fixed_zone 0) (fun _ => 1 # 2) strict_git ∅ "now" cfg fresh_repo) in
  length (history w') = 1%nat
  /\ Js.count_LF (default "" (fs w' !! "activity.txt")) = 3%nat.
Proof. vm_compute. split; reflexivity. Qed.

(** C4, as the code has it.  Inside a repository [makeCommit] appends to
    the activity file exactly the text [message  |  timestamp] and one
    line feed (so the file gains one line plus one for every line feed
    inside the two strings) and stages the file with that content.  When
    git takes the commit, one commit is added with the given message,
    whose author and committer timestamps are both the given timestamp
    string; when git refuses it, no commit is added and the call throws
    what git answered. *)
Theorem makeCommit_appends_stages_commits git env clock cfg dateStr message w :
  repo w = true ->
  let file := ACTIVITY_FILE cfg in
  let before := default "" (fs w !! file) in
  let after := before +:+ message +:+ "  |  " +:+ dateStr +:+ Js.LF in
  let answer := git (commit_env env dateStr) message [("--date", dateStr)] in
  let result := makeCommit git env clock cfg dateStr message w in
  fs (snd result) = <[file := after]> (fs w)
  /\ staged (snd result) = <[file := after]> (staged w)
  /\ err (snd result) = err w
  /\ Js.count_LF after
     = (Js.count_LF before + 1 + Js.count_LF message + Js.count_LF dateStr)%nat
  /\ (answer = None ->
      fst result = Ok tt
      /\ history (snd result)
         = history w ++ [{| c_message := message; c_author_date := dateStr;
                            c_committer_date := dateStr;
                            c_tree := <[file := after]> (staged w) |}])
  /\ (forall e, answer = Some e ->
      fst result = Thrown e /\ history (snd result) = history w).
Proof.
  intros Hrepo file before after answer result.
  assert (Hcount : Js.count_LF after
                   = (Js.count_LF before + 1 + Js.count_LF message + Js.count_LF dateStr)%nat).
  { unfold after. rewrite !count_LF_append. cbn. lia. }
  unfold result. destruct answer as [e|] eqn:Hanswer.
  - rewrite (makeCommit_refused _ _ _ _ _ _ e _ Hrepo Hanswer).
    cbn [fst snd fs staged history err]. do 3 (split; [reflexivity|]).
    split; [exact Hcount|]. split; [discriminate|]. now intros e' [= <-].
  - rewrite (makeCommit_run _ _ _ _ _ _ _ Hrepo Hanswer).
    cbn [fst snd fs staged history err]. do 3 (split; [reflexivity|]).
    split; [exact Hcount|]. split; [now split | discriminate].
Qed.

Lemma makeCommit_appends_stages_commits_witness :
  let result := makeCommit strict_git ∅ "now" CONFIG "2025-01-01 12:00:00" "Activity" fresh_repo in
  fst result = Ok tt /\ length (history (snd result)) = 1%nat.
Proof.
  destruct (makeCommit_appends_stages_commits strict_git ∅ "now" CONFIG "2025-01-01 12:00:00"
              "Activity" fresh_repo eq_refl) as (_ & _ & _ & _ & Htaken & _).
  destruct (Htaken eq_refl) as [Hfst Hhist].
  split; [exact Hfst|]. rewrite Hhist. reflexivity.
Defined.

(** A call for an ask that git accepts, stamped at a time of the working
    hours, makes the commit asked for. *)
Lemma runs_makeCommit git env clock cfg (ask : Ask) h m s :
  accepts git env ask -> working_hours h m s ->
  runs [ask] [] any (makeCommit git env clock cfg (timestamp (fst ask) h m s) (snd ask)).
Proof.
  intros Haccept Hhours w Hrepo. exists tt. eexists.
  split; [apply makeCommit_run; [exact Hrepo | now apply Haccept]|].
  split; [exact Logic.I|]. split; [|reflexivity]. split; [|split].
  - eexists. split; [reflexivity|]. repeat constructor. cbn. now exists h, m, s.
  - discriminate.
  - cbn. now rewrite app_nil_r.
Qed.

(* ===================================================================== *)
(** * Random draws and timestamps *)
(* ===================================================================== *)

Lemma Qfloor_scaled (r : Q) (k : Z) :
  (0 <= r < 1)%Q -> 0 < k -> 0 <= Qfloor (r * inject_Z k) < k.
Proof.
  intros [Hlo Hhi] Hk.
  assert (Hk' : (0 < inject_Z k)%Q) by (rewrite (Zlt_Qlt 0 k) in Hk; exact Hk).
  split.
  - change 0 with (Qfloor 0%Q). apply Qfloor_resp_le.
    apply Qmult_le_0_compat; [exact Hlo | now apply Qlt_le_weak].
  - rewrite Zlt_Qlt. eapply Qle_lt_trans; [apply Qfloor_le|].
    apply Qlt_le_trans with (1 * inject_Z k)%Q;
      [now apply Qmult_lt_compat_r | rewrite Qmult_1_l; apply Qle_refl].
Qed.

(** What [randomInt] returns, whatever the draw. *)
Lemma randomInt_value random min max w :
  randomInt random min max w
  = (Ok (Qfloor (random (draws w) * inject_Z (max - min + 1)) + min), after_draws 1 w).
Proof.
  unfold randomInt, Math_random, bind, ret, after_draws. repeat f_equal. lia.
Qed.

Lemma randomInt_draw random min max w :
  (0 <= random (draws w) < 1)%Q -> min <= max ->
  exists n, randomInt random min max w = (Ok n, after_draws 1 w) /\ min <= n <= max.
Proof.
  intros Hrand Hle. eexists. split; [apply randomInt_value|].
  pose proof (Qfloor_scaled _ (max - min + 1) Hrand ltac:(lia)). lia.
Qed.

(** The calendar fields of a time value are those of its day. *)
Lemma calendar_fields t :
  YearFromTime (Day t * msPerDay) = YearFromTime t
  /\ MonthFromTime (Day t * msPerDay) = MonthFromTime t
  /\ DateFromTime (Day t * msPerDay) = DateFromTime t.
Proof.
  unfold DateFromTime, MonthFromTime, DayWithinYear, InLeapYear, YearFromTime.
  rewrite Day_of_day. repeat split.
Qed.

(** What [formatGitDate] returns for a valid date, with draws in
    [0, 1): the timestamp of the local day at a time of the working
    hours, after three draws. *)
Lemma formatGitDate_run engine random t w :
  (forall i, 0 <= random i < 1)%Q ->
  exists h m s,
    formatGitDate engine random (DateAt t) w
    = (Ok (timestamp (localDay engine t) h m s), after_draws 3 w)
    /\ working_hours h m s.
Proof.
  intros Hrand. unfold formatGitDate.
  destruct (randomInt_draw random 9 21 w (Hrand _) ltac:(lia)) as (h & Hh & Hhr).
  destruct (randomInt_draw random 0 59 (after_draws 1 w) (Hrand _) ltac:(lia))
    as (m & Hm & Hmr).
  destruct (randomInt_draw random 0 59 (after_draws 1 (after_draws 1 w)) (Hrand _)
              ltac:(lia)) as (s & Hs & Hsr).
  exists h, m, s. unfold bind at 1. rewrite Hh. unfold bind at 1. rewrite Hm.
  unfold bind at 1. rewrite Hs. unfold ret.
  cbn [getFullYear getMonth getDate fmap option_fmap option_map Js.String_num].
  split; [|now repeat split].
  f_equal.
  - f_equal. unfold timestamp, calendarDate, timeOfDay, localDay, getFullYear_tv, getMonth_tv,
      getDate_tv, pad2.
    destruct (calendar_fields (LocalTime engine t)) as (-> & -> & ->).
    rewrite !string_app_assoc. reflexivity.
  - unfold after_draws. cbn [fs repo staged history out err draws]. f_equal. lia.
Qed.

Lemma runs_formatGitDate engine random t :
  (forall i, 0 <= random i < 1)%Q ->
  runs [] [] (fun str => exists h m s, working_hours h m s
                                       /\ str = timestamp (localDay engine t) h m s)
       (formatGitDate engine random (DateAt t)).
Proof.
  intros Hrand w Hrepo.
  destruct (formatGitDate_run engine random t w Hrand) as (h & m & s & Hrun & Hhours).
  eexists _, _. split; [exact Hrun|]. split; [now exists h, m, s|].
  split; [now apply effect_quiet | exact Hrepo].
Qed.

(* ===================================================================== *)
(** * Fill mode *)
(* ===================================================================== *)

Lemma length_counting lo count : length (counting lo count) = Z.to_nat count.
Proof. unfold counting. now rewrite length_map, length_seq. Qed.

Lemma in_counting lo count x : In x (counting lo count) -> lo <= x < lo + count.
Proof.
  unfold counting. intros (i & <- & Hi%in_seq)%in_map_iff. lia.
Qed.

Lemma flat_map_nil {A B} (xs : list A) : flat_map (fun _ => @nil B) xs = [].
Proof. induction xs as [|x xs IH]; cbn; [reflexivity | exact IH]. Qed.

Lemma flat_map_unit {A B} (f : A -> B) (xs : list A) : flat_map (fun x => [f x]) xs = map f xs.
Proof. induction xs as [|x xs IH]; cbn; [reflexivity | now rewrite IH]. Qed.

Lemma dayRange_entries_valid engine startISO endISO e :
  In e (dayRange engine startISO endISO) -> exists t, date e = DateAt t.
Proof. intros [t ->]%dayRange_entries. now exists t. Qed.

Lemma silent_ret {A} (a : A) : silent (ret a).
Proof. intros w. reflexivity. Qed.

Lemma silent_bind {A B} (m : M A) (k : A -> M B) :
  silent m -> (forall a, silent (k a)) -> silent (bind m k).
Proof.
  intros Hm Hk w. unfold bind. specialize (Hm w).
  destruct (m w) as [[a|e|code] w1]; cbn [snd] in *; [|exact Hm..].
  now rewrite Hk.
Qed.

Lemma silent_for_of {A S} (xs : list A) (body : S -> A -> M S) :
  (forall s x, silent (body s x)) -> forall s, silent (for_of xs s body).
Proof.
  intros Hbody. induction xs as [|x xs IH]; intros s; [apply silent_ret|].
  cbn [for_of]. apply silent_bind; [apply Hbody | exact IH].
Qed.

Lemma silent_formatGitDate engine random d : silent (formatGitDate engine random d).
Proof. intros w. reflexivity. Qed.

Lemma silent_makeCommit git env clock cfg dateStr message :
  silent (makeCommit git env clock cfg dateStr message).
Proof.
  intros w. unfold makeCommit, bind, appendFileSync, git_add, git_commit.
  cbn [fs repo staged history out err draws].
  destruct (repo w); cbn [negb snd out]; [|reflexivity].
  rewrite lookup_insert_eq. cbn [fs repo staged history out err draws negb].
  now destruct (git _ _ _).
Qed.

Lemma silent_fill_commit engine random git env clock cfg entry totalCommits n :
  silent (fill_commit engine random git env clock cfg entry totalCommits n).
Proof.
  unfold fill_commit. apply silent_bind; [apply silent_formatGitDate | intros dateStr].
  apply silent_bind; [apply silent_makeCommit | intros _; apply silent_ret].
Qed.

Lemma progress_days_next (done n : Z) :
  0 <= n ->
  progress_days done (n + 1)
  = progress_days done n ++ (if (done + n + 1) mod 30 =? 0 then [done + n + 1] else []).
Proof.
  intros Hn. unfold progress_days, counting.
  replace (Z.to_nat (n + 1)) with (S (Z.to_nat n)) by lia.
  rewrite seq_S, map_app, List.filter_app. cbn [map List.filter Nat.add].
  replace (done + 1 + Z.of_nat (Z.to_nat n)) with (done + n + 1) by lia.
  now destruct (_ =? 0).
Qed.

Lemma progress_days_first (done n : Z) :
  0 <= n ->
  progress_days done (n + 1)
  = (if (done + 1) mod 30 =? 0 then [done + 1] else []) ++ progress_days (done + 1) n.
Proof.
  intros Hn. unfold progress_days, counting.
  replace (Z.to_nat (n + 1)) with (S (Z.to_nat n)) by lia.
  cbn [seq map List.filter]. rewrite <- seq_shift, map_map.
  replace (done + 1 + Z.of_nat 0) with (done + 1) by lia.
  assert (Hshift : map (fun i : nat => done + 1 + Z.of_nat (S i)) (seq 0 (Z.to_nat n))
                   = map (fun i : nat => done + 1 + 1 + Z.of_nat i) (seq 0 (Z.to_nat n))).
  { apply map_ext. intros i. lia. }
  rewrite Hshift. now destruct (_ =? 0).
Qed.

(** A progress line comes after every thirtieth day. *)
Lemma length_progress_days (n : nat) :
  Z.of_nat (length (progress_days 0 (Z.of_nat n))) = Z.of_nat n / 30.
Proof.
  induction n as [|n IH]; [reflexivity|].
  rewrite Nat2Z.inj_succ, <- Z.add_1_r, progress_days_next, length_app by lia.
  rewrite Nat2Z.inj_add, IH, !Z.add_0_l.
  destruct (Z.eqb_spec ((Z.of_nat n + 1) mod 30) 0) as [Hmod|Hmod]; cbn [length];
    Z.to_euclidean_division_equations; lia.
Qed.

Lemma length_entry_asks engine cfg count e :
  length (entry_asks engine cfg count e) = Z.to_nat count.
Proof. unfold entry_asks. now rewrite length_map, length_counting. Qed.

Lemma fill_asks_cons engine cfg e entries n counts :
  fill_asks engine cfg (e :: entries) (n :: counts)
  = entry_asks engine cfg n e ++ fill_asks engine cfg entries counts.
Proof. reflexivity. Qed.

(** With the same number of commits on every entry. *)
Lemma fill_asks_constant engine cfg k entries counts :
  length counts = length entries -> Forall (fun n => k <= n <= k) counts ->
  fill_asks engine cfg entries counts = flat_map (entry_asks engine cfg k) entries.
Proof.
  revert counts. induction entries as [|e entries IH]; intros counts Hlen Hall.
  - now destruct counts.
  - destruct counts as [|n counts]; [discriminate|].
    inversion Hall as [|? ? Hn Hrest]; subst.
    rewrite fill_asks_cons. cbn [flat_map]. rewrite IH by (assumption || now injection Hlen).
    now replace n with k by lia.
Qed.

Lemma length_fill_asks_bounds engine cfg (lo hi : Z) entries counts :
  0 <= lo -> length counts = length entries -> Forall (fun n => lo <= n <= hi) counts ->
  lo * Z.of_nat (length entries) <= Z.of_nat (length (fill_asks engine cfg entries counts))
  <= hi * Z.of_nat (length entries).
Proof.
  intros Hlo. revert counts. induction entries as [|e entries IH]; intros counts Hlen Hall.
  - destruct counts; [cbn; lia | discriminate].
  - destruct counts as [|n counts]; [discriminate|]. inversion Hall as [|? ? Hn Hrest]; subst.
    specialize (IH counts ltac:(now injection Hlen) Hrest).
    rewrite fill_asks_cons, length_app, length_entry_asks. cbn [length]. lia.
Qed.

Section FillFacts.
Variable engine : Engine.
Variable random : nat -> Q.
Variable git : Git.
Variable env : gmap string string.
Variable clock : string.
Variable cfg : Config.
Hypothesis Hrand : (forall i, 0 <= random i < 1)%Q.

Lemma runs_fill_commit entry t totalCommits n :
  date entry = DateAt t ->
  accepts git env (localDay engine t, fill_message cfg n (iso entry)) ->
  runs [(localDay engine t, fill_message cfg n (iso entry))] []
       (fun total => total = totalCommits + 1)
       (fill_commit engine random git env clock cfg entry totalCommits n).
Proof.
  intros Ht Haccept. unfold fill_commit. rewrite Ht.
  eapply runs_seq; [now apply runs_formatGitDate | | reflexivity..].
  intros dateStr (h & m & s & Hhours & ->).
  eapply runs_seq;
    [apply (runs_makeCommit git env clock cfg
              (localDay engine t, fill_message cfg n (iso entry)) h m s Haccept Hhours)
    | | reflexivity..].
  intros _ _. now apply runs_ret.
Qed.

(** One day of fill mode, inside a repository and with a git that takes
    its commits: a number of commits between the bounds, numbered from 1,
    on that day; the two counters brought up to date; and a progress line
    when the number of days is a multiple of 30. *)
Lemma fill_day_run totalCommits totalDays entry t w :
  repo w = true ->
  date entry = DateAt t ->
  MIN_COMMITS_PER_DAY cfg <= MAX_COMMITS_PER_DAY cfg ->
  (forall n, 1 <= n <= MAX_COMMITS_PER_DAY cfg ->
             accepts git env (entryDay engine entry, fill_message cfg n (iso entry))) ->
  exists n w',
    let total := totalCommits + Z.of_nat (length (entry_asks engine cfg n entry)) in
    fill_day engine random git env clock cfg (totalCommits, totalDays) entry w
    = (Ok (total, totalDays + 1), w')
    /\ MIN_COMMITS_PER_DAY cfg <= n <= MAX_COMMITS_PER_DAY cfg
    /\ effect (entry_asks engine cfg n entry) [] w w'
    /\ repo w' = true
    /\ out w' = out w ++ (if (totalDays + 1) mod 30 =? 0
                          then [progress_line (totalDays + 1) total] else []).
Proof.
  intros Hrepo Ht Hle Haccept. unfold fill_day.
  destruct (randomInt_draw random _ _ w (Hrand _) Hle) as (n & Hn & Hrange).
  exists n. unfold bind at 1. rewrite Hn.
  set (ask := fun i : Z => (entryDay engine entry, fill_message cfg i (iso entry))).
  assert (Hbody : forall s x, In x (counting 1 n) ->
                    runs [ask x] [] (fun s' => s' = s + Z.of_nat (length [ask x]))
                         (fill_commit engine random git env clock cfg entry s x)).
  { intros s x Hx%in_counting. specialize (Haccept x ltac:(lia)).
    unfold ask, entryDay in *. rewrite Ht in *. cbn [dateDay default from_option id] in *.
    now apply runs_fill_commit. }
  destruct (runs_for_of_tally (fun i => [ask i]) (counting 1 n) _ Hbody totalCommits
              (after_draws 1 w) Hrepo) as (total & w1 & Hloop & -> & Heff & Hrepo1).
  pose proof (silent_for_of (counting 1 n) _
                (fun s x => silent_fill_commit engine random git env clock cfg entry s x)
                totalCommits (after_draws 1 w)) as Hout.
  rewrite Hloop in Hout. cbn [snd out after_draws] in Hout.
  rewrite flat_map_unit in Heff, Hloop. fold (entry_asks engine cfg n entry) in Heff, Hloop.
  unfold bind at 1. rewrite Hloop.
  assert (Hquiet : effect [] [] w (after_draws 1 w)) by now apply effect_quiet.
  pose proof (effect_trans _ _ _ _ _ _ _ Hquiet Heff) as Hboth. cbn [app] in Hboth.
  cbv zeta. destruct (_ =? 0).
  - eexists. unfold bind, console_log, ret. split; [reflexivity|]. split; [exact Hrange|].
    cbn [out repo]. rewrite Hout. split; [|split; [exact Hrepo1 | reflexivity]].
    rewrite <- (app_nil_r (entry_asks _ _ _ _)), <- (app_nil_r (@nil string)).
    eapply effect_trans; [exact Hboth | now apply effect_quiet].
  - exists w1. unfold bind, ret. split; [reflexivity|]. split; [exact Hrange|].
    split; [exact Hboth|]. split; [exact Hrepo1|]. now rewrite Hout, app_nil_r.
Qed.

(** The days of fill mode, one after the other. *)
Lemma fill_days_run (entries : list DayEntry) :
  (forall e, In e entries -> exists t, date e = DateAt t) ->
  MIN_COMMITS_PER_DAY cfg <= MAX_COMMITS_PER_DAY cfg ->
  fill_accepted git env engine cfg entries (MAX_COMMITS_PER_DAY cfg) ->
  forall totalCommits totalDays w,
  repo w = true ->
  exists counts totals w',
    for_of entries (totalCommits, totalDays) (fill_day engine random git env clock cfg) w
    = (Ok (totalCommits + Z.of_nat (length (fill_asks engine cfg entries counts)),
           totalDays + Z.of_nat (length entries)), w')
    /\ length counts = length entries
    /\ Forall (fun n => MIN_COMMITS_PER_DAY cfg <= n <= MAX_COMMITS_PER_DAY cfg) counts
    /\ effect (fill_asks engine cfg entries counts) [] w w'
    /\ repo w' = true
    /\ length totals = length (progress_days totalDays (Z.of_nat (length entries)))
    /\ out w' = out w ++ zip_with progress_line
                           (progress_days totalDays (Z.of_nat (length entries))) totals.
Proof.
  intros Hvalid Hle.
  induction entries as [|e entries IH]; intros Haccept totalCommits totalDays w Hrepo.
  - exists [], [], w. cbn. rewrite !Z.add_0_r, app_nil_r.
    split; [reflexivity|]. split; [reflexivity|]. split; [constructor|].
    split; [apply effect_refl|]. auto.
  - destruct (Hvalid e (or_introl eq_refl)) as [t Ht].
    destruct (fill_day_run totalCommits totalDays e t w Hrepo Ht Hle
                (fun n Hn => Haccept e n (or_introl eq_refl) Hn))
      as (n & w1 & Hday & Hn & Heff1 & Hrepo1 & Hout1).
    cbv zeta in Hday, Hout1.
    destruct (IH (fun x Hx => Hvalid x (or_intror Hx))
                 (fun x k Hx Hk => Haccept x k (or_intror Hx) Hk)
                 (totalCommits + Z.of_nat (length (entry_asks engine cfg n e)))
                 (totalDays + 1) w1 Hrepo1)
      as (counts & totals & w2 & Hrest & Hlen & Hall & Heff2 & Hrepo2 & Hlines & Hout2).
    cbn [for_of length]. unfold bind. rewrite Hday, Hrest.
    rewrite Nat2Z.inj_succ, <- Z.add_1_r, progress_days_first by lia.
    assert (Heff : effect (fill_asks engine cfg (e :: entries) (n :: counts)) [] w w2).
    { rewrite fill_asks_cons. change (@nil string) with (@nil string ++ @nil string).
      eapply effect_trans; eassumption. }
    assert (Hresult : forall A (x : A),
               (Ok (totalCommits + Z.of_nat (length (entry_asks engine cfg n e))
                    + Z.of_nat (length (fill_asks engine cfg entries counts)),
                    totalDays + 1 + Z.of_nat (length entries)), x)
               = (Ok (totalCommits
                      + Z.of_nat (length (fill_asks engine cfg (e :: entries) (n :: counts))),
                      totalDays + (Z.of_nat (length entries) + 1)), x)).
    { intros A x. rewrite fill_asks_cons, length_app. do 3 f_equal; lia. }
    destruct ((totalDays + 1) mod 30 =? 0).
    + exists (n :: counts),
             (totalCommits + Z.of_nat (length (entry_asks engine cfg n e)) :: totals), w2.
      split; [apply Hresult|]. split; [cbn [length]; now rewrite Hlen|].
      split; [now constructor|]. split; [exact Heff|]. split; [exact Hrepo2|].
      split; [cbn [app length]; now rewrite Hlines|].
      cbn [app zip_with]. rewrite Hout2, Hout1, <- app_assoc. reflexivity.
    + exists (n :: counts), totals, w2.
      split; [apply Hresult|]. split; [cbn [length]; now rewrite Hlen|].
      split; [now constructor|]. split; [exact Heff|]. split; [exact Hrepo2|].
      split; [exact Hlines|]. cbn [app]. now rewrite Hout2, Hout1, app_nil_r.
Qed.

(** Fill mode, inside a repository and with a git that takes its commits:
    what it returns, the commits it makes and the lines it prints. *)
Lemma runFillMode_run w :
  repo w = true ->
  MIN_COMMITS_PER_DAY cfg <= MAX_COMMITS_PER_DAY cfg ->
  let entries := dayRange engine (START_DATE cfg) (END_DATE cfg) in
  fill_accepted git env engine cfg entries (MAX_COMMITS_PER_DAY cfg) ->
  exists counts totals w',
    runFillMode engine random git env clock cfg w = (Ok tt, w')
    /\ length counts = length entries
    /\ Forall (fun n => MIN_COMMITS_PER_DAY cfg <= n <= MAX_COMMITS_PER_DAY cfg) counts
    /\ effect (fill_asks engine cfg entries counts) [] w w'
    /\ repo w' = true
    /\ Z.of_nat (length totals) = Z.of_nat (length entries) / 30
    /\ out w' = out w ++ fill_header cfg
                ++ zip_with progress_line (progress_days 0 (Z.of_nat (length entries))) totals
                ++ [fill_done_line (Z.of_nat (length (fill_asks engine cfg entries counts)))
                                   (Z.of_nat (length entries))].
Proof.
  intros Hrepo Hle entries Haccept. unfold runFillMode, bind, console_log.
  match goal with
  | |- context [for_of ?es ?s ?body ?w0] =>
      destruct (fill_days_run es (dayRange_entries_valid engine _ _) Hle Haccept 0 0 w0 Hrepo)
        as (counts & totals & w1 & Hloop & Hlen & Hall & Heff & Hrepo1 & Hlines & Hout)
  end.
  rewrite Hloop. cbn [fst snd out] in *. fold entries in Hlen, Hall, Heff, Hlines, Hout |- *.
  exists counts, totals. eexists. split; [reflexivity|]. cbn [out repo].
  split; [exact Hlen|]. split; [exact Hall|]. split.
  { destruct Heff as (Hcs & Hfs & Herr). cbn [fs history err] in *. now repeat split. }
  split; [exact Hrepo1|]. split; [rewrite Hlines; apply length_progress_days|].
  rewrite Hout. unfold fill_header, fill_done_line. rewrite <- !app_assoc. reflexivity.
Qed.

(** Without a day to fill, fill mode only prints. *)
Lemma runs_runFillMode_empty :
  dayRange engine (START_DATE cfg) (END_DATE cfg) = [] ->
  runs [] [] any (runFillMode engine random git env clock cfg).
Proof.
  intros Hnil. unfold runFillMode. rewrite Hnil. cbn [for_of].
  do 3 (apply runs_after; [apply runs_console_log | intros _]).
  apply runs_after; [now apply runs_ret | intros totals]. apply runs_console_log.
Qed.
End FillFacts.




(* ===================================================================== *)
(** * Pattern mode *)
(* ===================================================================== *)

Example litCount_I : litCount Glyph.I = 11%nat /\ length (litCells Glyph.I) = 11%nat.
Proof. split; reflexivity. Qed.

Lemma litCells_spec grid week weekday :
  In (week, weekday) (litCells grid)
  <-> (week < width grid)%nat /\ (weekday < 7)%nat /\ is_lit grid week weekday = true.
Proof.
  unfold litCells. rewrite in_flat_map. split.
  - intros (wk & Hwk%in_seq & Hin). apply in_flat_map in Hin as (d & Hd%in_seq & Hin).
    destruct (is_lit grid wk d) eqn:Hlit; [|destruct Hin].
    destruct Hin as [[= <- <-]|[]]. repeat split; [lia | lia | assumption].
  - intros (Hwk & Hd & Hlit). exists week. split; [apply in_seq; lia|].
    apply in_flat_map. exists weekday. split; [apply in_seq; lia|].
    rewrite Hlit. now left.
Qed.

Lemma list_sum_cons (x : nat) (l : list nat) : list_sum (x :: l) = (x + list_sum l)%nat.
Proof. reflexivity. Qed.

Lemma list_sum_map_add {A} (f g : A -> nat) (l : list A) :
  list_sum (map (fun x => f x + g x)%nat l) = (list_sum (map f l) + list_sum (map g l))%nat.
Proof.
  induction l as [|x l IH]; [reflexivity|].
  cbn [map]. rewrite !list_sum_cons, IH. lia.
Qed.

Lemma list_sum_map_zero {A} (l : list A) : list_sum (map (fun _ => 0%nat) l) = 0%nat.
Proof.
  induction l as [|x l IH]; [reflexivity|].
  cbn [map]. now rewrite list_sum_cons, IH.
Qed.

(** Summing over columns then rows is summing over rows then columns. *)
Lemma list_sum_swap {A B} (f : A -> B -> nat) (l1 : list A) (l2 : list B) :
  list_sum (map (fun i => list_sum (map (fun j => f i j) l2)) l1)
  = list_sum (map (fun j => list_sum (map (fun i => f i j) l1)) l2).
Proof.
  induction l1 as [|i l1 IH].
  - cbn [map]. now rewrite list_sum_map_zero.
  - cbn [map]. rewrite list_sum_cons, IH.
    rewrite <- (list_sum_map_add (fun j => f i j)
                  (fun j => list_sum (map (fun i' => f i' j) l1))).
    reflexivity.
Qed.

Lemma count_lit_by_column (row : string) :
  count_lit row
  = list_sum (map (fun week => if Js.char_is (String.get week row) "#" then 1 else 0)%nat
                  (seq 0 (String.length row))).
Proof.
  induction row as [|c row IH]; [reflexivity|].
  cbn [String.length seq map count_lit]. rewrite list_sum_cons.
  rewrite <- seq_shift, map_map. cbn [String.get Js.char_is]. now rewrite <- IH.
Qed.

(** In a grid of seven rows of one length the lit cells are as many as the
    [#] characters. *)
Lemma length_litCells (grid : Grid) :
  length grid = 7%nat ->
  Forall (fun row => String.length row = width grid) grid ->
  length (litCells grid) = litCount grid.
Proof.
  intros Hrows Hwidth. unfold litCells.
  rewrite length_flat_map.
  rewrite (map_ext _ (fun week => list_sum (map (fun weekday =>
             if is_lit grid week weekday then 1 else 0)%nat (seq 0 7)))).
  2:{ intros week. rewrite length_flat_map. f_equal. apply map_ext.
      intros weekday. now destruct (is_lit grid week weekday). }
  rewrite list_sum_swap. unfold litCount.
  generalize dependent (width grid). intros n Hwidth.
  do 8 (destruct grid as [|? grid]; try discriminate Hrows).
  repeat match goal with
         | H : Forall _ (_ :: _) |- _ => apply Forall_cons in H as [? H]
         end.
  cbn [seq map is_lit lookup list_lookup].
  rewrite !count_lit_by_column.
  repeat match goal with
         | H : String.length _ = n |- _ => rewrite H; clear H
         end.
  reflexivity.
Qed.

Lemma flat_map_flat_map {A B C} (f : A -> list B) (g : B -> list C) (l : list A) :
  flat_map g (flat_map f l) = flat_map (fun x => flat_map g (f x)) l.
Proof.
  induction l as [|x l IH]; cbn; [reflexivity|].
  now rewrite flat_map_app, IH.
Qed.

Lemma steady_forward engine tza : steady engine tza -> forward engine.
Proof. intros Hz t. rewrite !Hz. lia. Qed.

Lemma forward_fixed_zone tza : forward (fixed_zone tza).
Proof. apply (steady_forward _ tza), steady_fixed_zone. Qed.

(** In a zone where a local time written back is never earlier, the date
    of a cell is on the local day of the start date moved by
    [7 * week + weekday] days, also across daylight-saving transitions:
    the time of day of the start, at most two hours, is kept. *)
Lemma localDay_cellDate engine s y m d cell :
  forward engine ->
  parseYMD s = Some (y, m, d) ->
  forall ts, new_Date_midnight engine s = DateAt ts ->
  localDay engine (cellDate engine ts cell)
  = MakeDay y (m - 1) d + (7 * Z.of_nat (fst cell) + Z.of_nat (snd cell)).
Proof.
  intros Hforward Hparse ts Hts.
  rewrite (new_Date_midnight_parsed _ _ _ _ _ Hparse) in Hts. injection Hts as <-.
  generalize (MakeDay y (m - 1) d). intros D.
  unfold cellDate, setDate_tv, getDate_tv.
  generalize (Z.of_nat (fst cell)) (Z.of_nat (snd cell)). intros week weekday.
  rewrite <- Z.add_assoc, MakeDay_DateFromTime.
  unfold localDay, LocalTime, UTC, MakeDate, TimeWithinDay, Day.
  pose proof (Hforward (D * msPerDay)) as Hf0.
  pose proof (LocalTZA_range engine (D * msPerDay) false) as Hb0.
  set (b0 := LocalTZA engine (D * msPerDay) false) in *.
  pose proof (LocalTZA_range engine (D * msPerDay - b0) true) as Ha0.
  set (a0 := LocalTZA engine (D * msPerDay - b0) true) in *.
  match goal with
  | |- context [LocalTZA engine ?L false] =>
      lazymatch L with
      | D * msPerDay => fail
      | _ => pose proof (Hforward L) as Hf1;
             pose proof (LocalTZA_range engine L false) as Hb1;
             set (b1 := LocalTZA engine L false) in *
      end
  end.
  match goal with
  | |- context [LocalTZA engine ?u true] =>
      lazymatch u with
      | D * msPerDay - b0 => fail
      | _ => pose proof (LocalTZA_range engine u true) as Ha1;
             set (a1 := LocalTZA engine u true) in *
      end
  end.
  clearbody a0 b0 a1 b1. div_lia.
Qed.

(** The zone of Cairo is such a zone, across both transitions of 2025. *)
Lemma forward_cairo : forward cairo.
Proof.
  intros t. cbn [LocalTZA cairo].
  unfold cairo_offset, cairo_spring_utc, cairo_autumn_utc, cairo_spring_local,
    cairo_autumn_local, msPerDay.
  destruct (Z.leb_spec (20203 * 86400000 + 3600000) t);
    destruct (Z.ltb_spec t (20392 * 86400000)); cbn [andb];
    repeat match goal with
           | |- context [?a <=? ?b] => destruct (Z.leb_spec a b)
           | |- context [?a <? ?b] => destruct (Z.ltb_spec a b)
           end; cbn [andb]; lia.
Qed.

Section PatternFacts.
Variable engine : Engine.
Variable random : nat -> Q.
Variable git : Git.
Variable argv : list string.
Variable env : gmap string string.
Variable clock : string.
Variable cfg : Config.
Variable patterns : Patterns.
Hypothesis Hrand : (forall i, 0 <= random i < 1)%Q.

Lemma runs_pattern_commit name t totalCommits n :
  accepts git env (localDay engine t,
                   pattern_message name (n + 1) (Js.slice0 10 (isoString t))) ->
  runs [(localDay engine t, pattern_message name (n + 1) (Js.slice0 10 (isoString t)))] []
       (fun total => total = totalCommits + 1)
       (pattern_commit engine random git env clock cfg name (DateAt t) totalCommits n).
Proof.
  intros Haccept. unfold pattern_commit.
  eapply runs_seq; [now apply runs_formatGitDate | | reflexivity..].
  intros dateStr (h & m & s & Hhours & ->). cbn [toISOString].
  eapply runs_seq;
    [apply (runs_makeCommit git env clock cfg
              (localDay engine t, pattern_message name (n + 1) (Js.slice0 10 (isoString t)))
              h m s Haccept Hhours)
    | | reflexivity..].
  intros _ _. now apply runs_ret.
Qed.

(** One cell of the grid: nothing for a blank cell, the commits of the
    cell for a lit one; the counter moves by their number. *)
Lemma runs_pattern_cell name grid week totalCommits weekday ts :
  (weekday < length grid)%nat ->
  new_Date_midnight engine (PATTERN_START_DATE cfg) = DateAt ts ->
  let asks := if is_lit grid week weekday
              then cell_asks engine cfg name ts (week, weekday) else [] in
  takes git env asks ->
  runs asks [] (fun total => total = totalCommits + Z.of_nat (length asks))
       (pattern_cell engine random git env clock cfg name grid week totalCommits weekday).
Proof.
  intros Hday Hstart. unfold pattern_cell, is_lit.
  destruct (grid !! weekday) as [row|] eqn:Hrow.
  2:{ apply lookup_ge_None in Hrow. lia. }
  cbv zeta. destruct (Js.char_is (String.get week row) "#"); cbn [negb]; intros Htakes.
  2:{ apply runs_ret. cbn. lia. }
  rewrite Hstart. cbn [getDate setDate fmap option_fmap option_map].
  fold (cellDate engine ts (week, weekday)).
  unfold cell_asks in *. rewrite <- flat_map_unit in *.
  apply (runs_for_of_tally (fun n => [_])). intros total n Hn.
  apply runs_pattern_commit. apply Htakes, in_flat_map. exists n. split; [exact Hn | now left].
Qed.

(** The two loops of pattern mode on a grid of seven rows. *)
Lemma runs_pattern_loops name grid ts row0 totalCommits :
  length grid = 7%nat ->
  grid !! 0%nat = Some row0 ->
  new_Date_midnight engine (PATTERN_START_DATE cfg) = DateAt ts ->
  takes git env (pattern_asks engine cfg name grid ts) ->
  runs (pattern_asks engine cfg name grid ts) []
       (fun total => total = totalCommits
                             + Z.of_nat (length (pattern_asks engine cfg name grid ts)))
       (for_of (seq 0 (String.length row0)) totalCommits
               (fun totalCommits week =>
                  for_of (seq 0 7) totalCommits
                         (pattern_cell engine random git env clock cfg name grid week))).
Proof.
  intros Hrows Hrow0 Hstart Htakes.
  set (cell := fun week weekday => if is_lit grid week weekday
                                   then cell_asks engine cfg name ts (week, weekday)
                                   else []).
  set (column := fun week => flat_map (cell week) (seq 0 7)).
  assert (Hcells : flat_map column (seq 0 (String.length row0))
                   = pattern_asks engine cfg name grid ts).
  { unfold pattern_asks, litCells, width. rewrite Hrow0. cbn [default from_option id].
    rewrite flat_map_flat_map. apply flat_map_ext. intros week.
    rewrite flat_map_flat_map. apply flat_map_ext. intros weekday. unfold cell.
    destruct (is_lit grid week weekday); [cbn; now rewrite app_nil_r | reflexivity]. }
  rewrite <- Hcells in *.
  apply (runs_for_of_tally column). intros total week Hweek.
  apply (runs_for_of_tally (cell week)). intros total' weekday Hday.
  apply runs_pattern_cell; [apply in_seq in Hday; lia | assumption |].
  intros ask Hask. apply Htakes, in_flat_map. exists week. split; [exact Hweek|].
  apply in_flat_map. exists weekday. split; [exact Hday | exact Hask].
Qed.

(** Pattern mode on a known pattern of seven rows, started on a valid
    date, makes the commits of its lit cells, column by column. *)
Lemma runs_runPatternMode grid ts :
  Obj.get patterns (patternName argv) = Some (Some grid) ->
  length grid = 7%nat ->
  new_Date_midnight engine (PATTERN_START_DATE cfg) = DateAt ts ->
  takes git env (pattern_asks engine cfg (patternName argv) grid ts) ->
  runs (pattern_asks engine cfg (patternName argv) grid ts) [] any
       (runPatternMode engine random git argv env clock cfg patterns).
Proof.
  intros Hget Hrows Hstart Htakes. unfold runPatternMode. rewrite Hget.
  do 3 (apply runs_after; [apply runs_console_log | intros _]).
  destruct (grid !! 0%nat) as [row0|] eqn:Hrow0.
  2:{ apply lookup_ge_None in Hrow0. lia. }
  eapply runs_seq;
    [now apply (runs_pattern_loops _ grid ts row0 0)
    | intros total _; apply runs_console_log | now rewrite app_nil_r | reflexivity].
Qed.

(** The same run, world by world, with the last line it prints. *)
Lemma runPatternMode_run grid ts w :
  repo w = true ->
  Obj.get patterns (patternName argv) = Some (Some grid) ->
  length grid = 7%nat ->
  new_Date_midnight engine (PATTERN_START_DATE cfg) = DateAt ts ->
  takes git env (pattern_asks engine cfg (patternName argv) grid ts) ->
  exists w' cs,
    runPatternMode engine random git argv env clock cfg patterns w = (Ok tt, w')
    /\ history w' = history w ++ cs
    /\ Forall2 made (pattern_asks engine cfg (patternName argv) grid ts) cs
    /\ last (out w') = Some (pattern_done_line (Z.of_nat (length cs))).
Proof.
  intros Hrepo Hget Hrows Hstart Htakes. unfold runPatternMode. rewrite Hget.
  destruct (grid !! 0%nat) as [row0|] eqn:Hrow0.
  2:{ apply lookup_ge_None in Hrow0. lia. }
  unfold bind, console_log.
  match goal with
  | |- context [for_of _ 0 _ ?w0] =>
      destruct (runs_pattern_loops (patternName argv) grid ts row0 0 Hrows Hrow0 Hstart
                  Htakes w0 Hrepo)
        as (total & w1 & Hrun & -> & ((cs & Hhist & Hmade) & _ & _) & _)
  end.
  rewrite Hrun. cbn [history] in Hhist.
  eexists _, cs. split; [reflexivity|]. cbn [history out].
  split; [exact Hhist|]. split; [exact Hmade|].
  rewrite last_snoc. apply Forall2_length in Hmade. rewrite Hmade. reflexivity.
Qed.

(** An unknown name ends the process with status 1 after two lines on
    the error stream. *)
Lemma exits_runPatternMode_unknown :
  (forall grid, Obj.get patterns (patternName argv) <> Some (Some grid)) ->
  exits [] (unknown_pattern_lines patterns (patternName argv)) 1
        (runPatternMode engine random git argv env clock cfg patterns).
Proof.
  intros Hunknown. unfold runPatternMode, unknown_pattern_lines.
  assert (Hexit : exits [] ["❌  Unknown pattern " +:+ Js.dquote +:+ patternName argv +:+ Js.dquote +:+ ".";
            "    Available: " +:+ Js.join ", " (Obj.keys patterns)] 1
            (console_error ("❌  Unknown pattern " +:+ Js.dquote +:+ patternName argv +:+ Js.dquote +:+ ".") ;;;
             console_error ("    Available: " +:+ Js.join ", " (Obj.keys patterns)) ;;;
             @process_exit unit 1)).
  { eapply exits_seq; [apply runs_console_error | intros _ _ | reflexivity..].
    eapply exits_seq; [apply runs_console_error | intros _ _ | reflexivity..].
    apply exits_process_exit. }
  destruct (Obj.get patterns (patternName argv)) as [[grid|]|]; [|exact Hexit..].
  now destruct (Hunknown grid).
Qed.
End PatternFacts.

Lemma length_cell_asks engine cfg name ts cell :
  length (cell_asks engine cfg name ts cell) = Z.to_nat (PATTERN_COMMITS cfg).
Proof. unfold cell_asks. now rewrite length_map, length_counting. Qed.

Lemma length_pattern_asks engine cfg name grid ts :
  length (pattern_asks engine cfg name grid ts)
  = (length (litCells grid) * Z.to_nat (PATTERN_COMMITS cfg))%nat.
Proof.
  unfold pattern_asks.
  now rewrite (flat_map_constant_length (c := Z.to_nat (PATTERN_COMMITS cfg)))
    by (intros; apply length_cell_asks).
Qed.

(** The days of the commits of pattern mode, for a start date written
    [YYYY-MM-DD]: the day written moved by [7 * week + weekday], once for
    every commit of the cell. *)
Lemma pattern_asks_days engine cfg name grid s y m d ts :
  forward engine ->
  parseYMD s = Some (y, m, d) ->
  new_Date_midnight engine s = DateAt ts ->
  map fst (pattern_asks engine cfg name grid ts)
  = flat_map (fun cell : nat * nat =>
                repeat (MakeDay y (m - 1) d + (7 * Z.of_nat (fst cell) + Z.of_nat (snd cell)))
                       (Z.to_nat (PATTERN_COMMITS cfg)))
             (litCells grid).
Proof.
  intros Hforward Hparse Hts. unfold pattern_asks.
  induction (litCells grid) as [|cell cells IH]; [reflexivity|].
  cbn [flat_map]. rewrite map_app, IH. f_equal.
  unfold cell_asks. rewrite map_map. cbn [fst].
  rewrite (localDay_cellDate _ _ _ _ _ _ Hforward Hparse _ Hts).
  rewrite <- (length_counting 0 (PATTERN_COMMITS cfg)).
  induction (counting 0 (PATTERN_COMMITS cfg)) as [|n ns IHn]; [reflexivity|].
  cbn [map length repeat]. now rewrite IHn.
Qed.




(* ===================================================================== *)
(** * The entry point *)
(* ===================================================================== *)

Section MainFacts.
Variable engine : Engine.
Variable random : nat -> Q.
Variable git : Git.
Variable argv : list string.
Variable env : gmap string string.
Variable clock : string.
Variable cfg : Config.
Variable patterns : Patterns.

(** Wherever it is started, [ensureRepo] leaves a repository. *)
Lemma ensureRepo_run w :
  exists w0, ensureRepo w = (Ok tt, w0) /\ repo w0 = true /\ effect [] [] w w0.
Proof.
  unfold ensureRepo, git_checkIsRepo, bind.
  destruct (repo w) eqn:Hrepo; cbn [negb].
  - exists w. split; [reflexivity|]. split; [exact Hrepo | apply effect_refl].
  - eexists. split; [reflexivity|]. split; [reflexivity | now apply effect_quiet].
Qed.

(** The banner and [ensureRepo]: what follows them starts inside a
    repository. *)
Lemma main_setup {A} (a b c : string) (k : M A) w :
  exists w0, repo w0 = true /\ effect [] [] w w0
             /\ (console_log a ;;; console_log b ;;; console_log c ;;; ensureRepo ;;; k) w
                = k w0.
Proof.
  unfold bind at 1 2 3 4. cbn [console_log].
  match goal with
  | |- context [ensureRepo ?w1] =>
      destruct (ensureRepo_run w1) as (w0 & Hrun & Hrepo & (Hh & Hfs & Herr)); rewrite Hrun
  end.
  exists w0. split; [exact Hrepo|]. split; [|reflexivity].
  cbn in Hh, Hfs, Herr. split; [exact Hh|]. split; [exact Hfs | exact Herr].
Qed.

(** The lines printed after the mode has run. *)
Lemma runs_next_steps :
  runs [] [] any
       (console_log (Js.LF +:+ "📌  Next steps:") ;;;
        console_log "    git remote add origin https://github.com/<you>/<repo>.git" ;;;
        console_log "    git branch -M main" ;;;
        console_log ("    git push -u origin main" +:+ Js.LF)).
Proof.
  do 3 (apply runs_after; [apply runs_console_log | intros _]). apply runs_console_log.
Qed.

Lemma runs_main_fill d :
  parse_mode argv = "fill" ->
  runs d [] any (runFillMode engine random git env clock cfg) ->
  runs_anywhere d [] any (main engine random git argv env clock cfg patterns).
Proof.
  intros Hmode Hfill w. unfold main.
  match goal with
  | |- context [ensureRepo ;;; ?k] =>
      destruct (main_setup (Js.repeat "═" 60) "  GitHub Contribution Graph Filler"
                  (Js.repeat "═" 60 +:+ Js.LF) k w) as (w0 & Hrepo & He & ->)
  end.
  rewrite Hmode. cbn [String.eqb Ascii.eqb Bool.eqb].
  destruct (runs_seq d [] [] [] d [] any any _ _ Hfill (fun _ _ => runs_next_steps)
              (eq_sym (app_nil_r d)) eq_refl w0 Hrepo) as (a & w' & Hrun & _ & He' & _).
  exists a, w'. split; [exact Hrun|]. split; [exact Logic.I|].
  apply (effect_trans [] [] d [] w w0 w' He He').
Qed.

Lemma runs_main_pattern d :
  parse_mode argv = "pattern" ->
  runs d [] any (runPatternMode engine random git argv env clock cfg patterns) ->
  runs_anywhere d [] any (main engine random git argv env clock cfg patterns).
Proof.
  intros Hmode Hpattern w. unfold main.
  match goal with
  | |- context [ensureRepo ;;; ?k] =>
      destruct (main_setup (Js.repeat "═" 60) "  GitHub Contribution Graph Filler"
                  (Js.repeat "═" 60 +:+ Js.LF) k w) as (w0 & Hrepo & He & ->)
  end.
  rewrite Hmode. cbn [String.eqb Ascii.eqb Bool.eqb].
  destruct (runs_seq d [] [] [] d [] any any _ _ Hpattern (fun _ _ => runs_next_steps)
              (eq_sym (app_nil_r d)) eq_refl w0 Hrepo) as (a & w' & Hrun & _ & He' & _).
  exists a, w'. split; [exact Hrun|]. split; [exact Logic.I|].
  apply (effect_trans [] [] d [] w w0 w' He He').
Qed.

Lemma exits_main_pattern d l code :
  parse_mode argv = "pattern" ->
  exits d l code (runPatternMode engine random git argv env clock cfg patterns) ->
  exits_anywhere d l code (main engine random git argv env clock cfg patterns).
Proof.
  intros Hmode Hpattern w. unfold main.
  match goal with
  | |- context [ensureRepo ;;; ?k] =>
      destruct (main_setup (Js.repeat "═" 60) "  GitHub Contribution Graph Filler"
                  (Js.repeat "═" 60 +:+ Js.LF) k w) as (w0 & Hrepo & He & ->)
  end.
  rewrite Hmode. cbn [String.eqb Ascii.eqb Bool.eqb].
  destruct (Hpattern w0 Hrepo) as (w' & Hrun & He').
  exists w'. split; [unfold bind; now rewrite Hrun|].
  apply (effect_trans [] [] d l w w0 w' He He').
Qed.

Lemma exits_main_unknown :
  parse_mode argv <> "fill" -> parse_mode argv <> "pattern" ->
  exits_anywhere [] [unknown_mode_line (parse_mode argv)] 1
        (main engine random git argv env clock cfg patterns).
Proof.
  intros Hfill Hpattern w. unfold main.
  match goal with
  | |- context [ensureRepo ;;; ?k] =>
      destruct (main_setup (Js.repeat "═" 60) "  GitHub Contribution Graph Filler"
                  (Js.repeat "═" 60 +:+ Js.LF) k w) as (w0 & Hrepo & He & ->)
  end.
  apply String.eqb_neq in Hfill, Hpattern. rewrite Hfill, Hpattern.
  unfold bind, console_error, process_exit. eexists. split; [reflexivity|].
  destruct He as (Hh & Hfs & Herr).
  split; [exact Hh|]. split; [intros _; cbn [fs]; now apply Hfs|].
  cbn [err]. now rewrite Herr, app_nil_r.
Qed.

(** What a normal run and an exit of [main] mean for the script. *)
Lemma script_of_runs d l w :
  runs_anywhere d l any (main engine random git argv env clock cfg patterns) ->
  exists w', script engine random git argv env clock cfg patterns w = (Ok tt, w')
             /\ effect d l w w'.
Proof.
  intros Hmain. destruct (Hmain w) as ([] & w' & Hrun & _ & He).
  exists w'. unfold script, catch. rewrite Hrun. now split.
Qed.

Lemma script_of_exits d l code w :
  exits_anywhere d l code (main engine random git argv env clock cfg patterns) ->
  exists w', script engine random git argv env clock cfg patterns w = (Exited code, w')
             /\ effect d l w w'.
Proof.
  intros Hmain. destruct (Hmain w) as (w' & Hrun & He).
  exists w'. unfold script, catch. rewrite Hrun. now split.
Qed.

Lemma effect_no_commit l w w' :
  effect [] l w w' -> err w' = err w ++ l /\ history w' = history w /\ fs w' = fs w.
Proof.
  intros ((cs & Hhist & Hmade) & Hfs & Herr). inversion Hmade; subst.
  rewrite app_nil_r in Hhist. auto.
Qed.
End MainFacts.

(* ===================================================================== *)
(** * Invalid date range *)
(* ===================================================================== *)

Lemma dayRange_reversed engine startISO endISO ts te :
  new_Date_midnight engine startISO = DateAt ts ->
  new_Date_midnight engine endISO = DateAt te ->
  te < ts ->
  dayRange engine startISO endISO = [].
Proof.
  intros Hs He Hlt. unfold dayRange. rewrite Hs, He. unfold dayRange_loop.
  destruct (Z.to_nat _); [reflexivity|]. cbn [dayRange_while].
  destruct (ts <=? te) eqn:Hle; [lia | reflexivity].
Qed.

(** The claim C6 fails on the code: with the start date after the end date
    the script runs to its end, exit status 0, and writes nothing to the
    error stream. *)
Lemma reversed_range_goes_unreported :
  let run := script (fixed_zone 0) (fun _ => 1 # 2) strict_git
                    ["/usr/bin/node"; "/repo/index.js"] ∅ "now"
                    reversed_range PATTERNS fresh_world in
  JsDate.le (new_Date_midnight (fixed_zone 0) (START_DATE reversed_range))
            (new_Date_midnight (fixed_zone 0) (END_DATE reversed_range)) = false
  /\ fst run = Ok tt
  /\ exit_code (fst run) = 0
  /\ err (snd run) = []
  /\ history (snd run) = [].
Proof. vm_compute. repeat split. Qed.

(** C6, as the code has it.  In fill mode, when the start date is after
    the end date the day sequencer yields nothing and nothing checks the
    range: the script returns normally (exit status 0), writes nothing to
    the error stream, makes no commit and changes no file, in every time
    zone and whatever git would answer. *)
Theorem script_reversed_range engine random git argv env clock cfg patterns ts te w :
  parse_mode argv = "fill" ->
  new_Date_midnight engine (START_DATE cfg) = DateAt ts ->
  new_Date_midnight engine (END_DATE cfg) = DateAt te ->
  te < ts ->
  dayRange engine (START_DATE cfg) (END_DATE cfg) = []
  /\ exists w',
       script engine random git argv env clock cfg patterns w = (Ok tt, w')
       /\ exit_code (fst (script engine random git argv env clock cfg patterns w)) = 0
       /\ err w' = err w
       /\ history w' = history w
       /\ fs w' = fs w.
Proof.
  intros Hmode Hs He Hlt.
  pose proof (dayRange_reversed _ _ _ _ _ Hs He Hlt) as Hnil. split; [exact Hnil|].
  pose proof (runs_runFillMode_empty engine random git env clock cfg Hnil) as Hfill.
  destruct (script_of_runs engine random git argv env clock cfg patterns _ _ w
              (runs_main_fill _ _ _ _ _ _ _ _ _ Hmode Hfill)) as (w' & Hrun & Heff).
  apply effect_no_commit in Heff as (Herr & Hhist & Hfs).
  exists w'. rewrite Hrun. rewrite app_nil_r in Herr. auto.
Qed.

Lemma script_reversed_range_witness :
  exists w',
    script (fixed_zone 19800000) (fun _ => 1 # 2) strict_git
           ["/usr/bin/node"; "/repo/index.js"] ∅ "now"
           reversed_range PATTERNS fresh_world = (Ok tt, w')
    /\ err w' = [] /\ history w' = [].
Proof.
  destruct (script_reversed_range (fixed_zone 19800000) (fun _ => 1 # 2) strict_git
              ["/usr/bin/node"; "/repo/index.js"]
              ∅ "now" reversed_range PATTERNS
              (20453 * msPerDay - 19800000) (20089 * msPerDay - 19800000) fresh_world)
    as (_ & w' & Hrun & _ & Herr & Hhist & _).
  - reflexivity.
  - reflexivity.
  - reflexivity.
  - unfold msPerDay. lia.
  - exists w'. split; [exact Hrun|]. split; [exact Herr | exact Hhist].
Defined.

(* ===================================================================== *)
(** * Pattern names *)
(* ===================================================================== *)

Lemma script_unknown_pattern engine random git argv env clock cfg patterns w :
  parse_mode argv = "pattern" ->
  (forall grid, Obj.get patterns (patternName argv) <> Some (Some grid)) ->
  exists w',
    script engine random git argv env clock cfg patterns w = (Exited 1, w')
    /\ err w' = err w ++ unknown_pattern_lines patterns (patternName argv)
    /\ history w' = history w
    /\ fs w' = fs w.
Proof.
  intros Hmode Hunknown.
  pose proof (exits_runPatternMode_unknown engine random git argv env clock cfg patterns
                Hunknown) as Hexit.
  destruct (script_of_exits engine random git argv env clock cfg patterns _ _ _ w
              (exits_main_pattern _ _ _ _ _ _ _ _ _ _ _ Hmode Hexit)) as (w' & Hrun & Heff).
  apply effect_no_commit in Heff. now exists w'.
Qed.

(** A name that is a defined pattern, in whatever case it is written, has
    its grid drawn when git takes the commits. *)
Lemma script_draws_pattern engine random git argv env clock cfg patterns grid ts w :
  (forall i, 0 <= random i < 1)%Q ->
  parse_mode argv = "pattern" ->
  Obj.get patterns (patternName argv) = Some (Some grid) ->
  length grid = 7%nat ->
  new_Date_midnight engine (PATTERN_START_DATE cfg) = DateAt ts ->
  takes git env (pattern_asks engine cfg (patternName argv) grid ts) ->
  exists w' cs,
    script engine random git argv env clock cfg patterns w = (Ok tt, w')
    /\ history w' = history w ++ cs
    /\ Forall2 made (pattern_asks engine cfg (patternName argv) grid ts) cs.
Proof.
  intros Hrand Hmode Hget Hrows Hstart Htakes.
  pose proof (runs_runPatternMode engine random git argv env clock cfg patterns Hrand grid ts
                Hget Hrows Hstart Htakes) as Hpattern.
  destruct (script_of_runs engine random git argv env clock cfg patterns _ _ w
              (runs_main_pattern _ _ _ _ _ _ _ _ _ Hmode Hpattern))
    as (w' & Hrun & (cs & Hhist & Hmade) & _).
  now exists w', cs.
Qed.

(** The names are matched without regard to case. *)
Example patternName_lower_case :
  patternName ["/usr/bin/node"; "/repo/index.js"; "x"; "heart"; "--mode"; "pattern"] = "HEART"
  /\ patternName ["/usr/bin/node"; "/repo/index.js"; "x"; ""; "--mode"; "pattern"] = "HI"
  /\ patternName ["/usr/bin/node"; "/repo/index.js"; "x"] = "HI".
Proof. repeat split. Qed.

(** C8 fails on the code.  Run as documented, [node index.js --mode
    pattern], the script reads the name from [argv[3]], which holds the
    word [pattern] itself: the name is [PATTERN], which is no pattern, and
    the script exits with status 1 after the two error lines, without a
    commit; the grid [HI] is not drawn.  This is so in every time zone and
    whatever git would answer. *)
Theorem pattern_mode_without_name engine random git env clock w :
  let argv := ["/usr/bin/node"; "/repo/index.js"; "--mode"; "pattern"] in
  parse_mode argv = "pattern"
  /\ patternName argv = "PATTERN"
  /\ exists w',
       script engine random git argv env clock CONFIG PATTERNS w = (Exited 1, w')
       /\ err w' = err w ++ ["❌  Unknown pattern " +:+ Js.dquote +:+ "PATTERN" +:+ Js.dquote +:+ ".";
                             "    Available: H, I, HEART, SMILE, HI"]
       /\ history w' = history w
       /\ fs w' = fs w.
Proof.
  intros argv. split; [reflexivity|]. split; [reflexivity|].
  apply (script_unknown_pattern engine random git argv env clock CONFIG PATTERNS w);
    [reflexivity|].
  intros grid. discriminate.
Qed.

(** C9.  When pattern mode is selected and the name, made of ASCII
    characters, is not a defined pattern, the script puts the error and
    the list of the valid names on the error stream and exits with status
    1; it makes no commit and changes no file. *)
Theorem unknown_pattern_exits engine random git argv env clock cfg patterns w :
  ascii_name argv ->
  parse_mode argv = "pattern" ->
  (forall grid, Obj.get patterns (patternName argv) <> Some (Some grid)) ->
  exists w',
    script engine random git argv env clock cfg patterns w = (Exited 1, w')
    /\ exit_code (fst (script engine random git argv env clock cfg patterns w)) = 1
    /\ err w' = err w ++ ["❌  Unknown pattern " +:+ Js.dquote +:+ patternName argv +:+ Js.dquote +:+ ".";
                          "    Available: " +:+ Js.join ", " (Obj.keys patterns)]
    /\ history w' = history w
    /\ fs w' = fs w.
Proof.
  intros _ Hmode Hunknown.
  destruct (script_unknown_pattern engine random git argv env clock cfg patterns w Hmode
              Hunknown) as (w' & Hrun & Herr & Hhist & Hfs).
  exists w'. rewrite Hrun. auto.
Qed.

Lemma unknown_pattern_exits_witness :
  exists w',
    script cairo (fun _ => 1 # 2) strict_git
           ["/usr/bin/node"; "/repo/index.js"; "x"; "X"; "--mode"; "pattern"]
           ∅ "now" CONFIG PATTERNS fresh_world = (Exited 1, w')
    /\ err w' = ["❌  Unknown pattern " +:+ Js.dquote +:+ "X" +:+ Js.dquote +:+ ".";
                 "    Available: H, I, HEART, SMILE, HI"]
    /\ history w' = []
    /\ fs w' = ∅.
Proof.
  destruct (unknown_pattern_exits cairo (fun _ => 1 # 2) strict_git
              ["/usr/bin/node"; "/repo/index.js"; "x"; "X"; "--mode"; "pattern"]
              ∅ "now" CONFIG PATTERNS fresh_world)
    as (w' & Hrun & _ & Herr & Hhist & Hfs).
  - reflexivity.
  - reflexivity.
  - intros grid. discriminate.
  - exists w'. split; [exact Hrun|]. split; [exact Herr|]. split; [exact Hhist | exact Hfs].
Defined.

(* ===================================================================== *)
(** * The mode flag *)
(* ===================================================================== *)

Lemma indexOf_absent (xs : list string) (x : string) : ~ In x xs -> Js.indexOf xs x = -1.
Proof.
  induction xs as [|y xs IH]; intros Hnot; [reflexivity|].
  cbn [Js.indexOf]. destruct (String.eqb_spec y x) as [->|Hne].
  - destruct Hnot. now left.
  - rewrite IH by (intros Hin; apply Hnot; now right). reflexivity.
Qed.

Lemma find_present {A} (p : A -> bool) (xs : list A) :
  (exists a, In a xs /\ p a = true) -> exists b, Js.find p xs = Some b.
Proof.
  intros (a & Hin & Hp). unfold Js.find.
  destruct (List.find p xs) as [b|] eqn:Hfind; [now exists b|].
  pose proof (find_none _ _ Hfind _ Hin) as Hfalse. congruence.
Qed.

(** Lower-casing keeps a character that is no capital letter. *)
Lemma has_char_toLowerCase (c : ascii) (s : string) :
  Js.lower_char c = c -> Js.has_char c s = true -> Js.has_char c (Js.toLowerCase s) = true.
Proof.
  intros Hc. induction s as [|x s IH]; [discriminate|].
  cbn [Js.has_char Js.toLowerCase Js.map_chars]. intros [Hx | Hs]%orb_true_iff.
  - apply Ascii.eqb_eq in Hx as ->. rewrite Hc, Ascii.eqb_refl. reflexivity.
  - rewrite (IH Hs). apply orb_true_r.
Qed.

Lemma exec_path_is_no_mode (exe : string) :
  is_exec_path exe ->
  exe <> "" /\ Js.toLowerCase exe <> "fill" /\ Js.toLowerCase exe <> "pattern".
Proof.
  intros Hpath. split; [|split].
  - intros ->. destruct Hpath; discriminate.
  - intros Heq. destruct Hpath as [Hsep | Hsep];
      apply has_char_toLowerCase in Hsep; try reflexivity;
      rewrite Heq in Hsep; discriminate.
  - intros Heq. destruct Hpath as [Hsep | Hsep];
      apply has_char_toLowerCase in Hsep; try reflexivity;
      rewrite Heq in Hsep; discriminate.
Qed.

(** C10.  When some argument starts with [--mode] but none is exactly
    [--mode], [indexOf] gives -1 and the mode is read from [argv[0]], the
    path of the runtime executable, in lower case; that is neither [fill]
    nor [pattern], so the script takes the unknown-mode path: one line on
    the error stream, exit status 1, no commit and no file changed, in
    every time zone and whatever git would answer. *)
Theorem mode_flag_without_separate_value engine random git exe rest env clock cfg patterns w :
  let argv := exe :: rest in
  is_exec_path exe ->
  (exists a, In a argv /\ Js.startsWith a "--mode" = true) ->
  ~ In "--mode" argv ->
  Js.at_ argv (Js.indexOf argv "--mode" + 1) = Some exe
  /\ parse_mode argv = Js.toLowerCase exe
  /\ exists w',
       script engine random git argv env clock cfg patterns w = (Exited 1, w')
       /\ exit_code (fst (script engine random git argv env clock cfg patterns w)) = 1
       /\ err w' = err w ++ [unknown_mode_line (Js.toLowerCase exe)]
       /\ history w' = history w
       /\ fs w' = fs w.
Proof.
  intros argv Hpath Hflag Habsent.
  destruct (exec_path_is_no_mode exe Hpath) as (Hnonempty & Hfill & Hpattern).
  assert (Harg : Js.at_ argv (Js.indexOf argv "--mode" + 1) = Some exe)
    by now rewrite indexOf_absent.
  assert (Hmode : parse_mode argv = Js.toLowerCase exe).
  { unfold parse_mode. rewrite Harg.
    destruct (find_present _ _ Hflag) as (flag & ->).
    cbn [Js.or_else]. apply String.eqb_neq in Hnonempty. now rewrite Hnonempty. }
  split; [exact Harg|]. split; [exact Hmode|].
  pose proof (exits_main_unknown engine random git argv env clock cfg patterns) as Hexit.
  rewrite Hmode in Hexit. specialize (Hexit Hfill Hpattern).
  destruct (script_of_exits engine random git argv env clock cfg patterns _ _ _ w Hexit)
    as (w' & Hrun & Heff).
  apply effect_no_commit in Heff as (Herr & Hhist & Hfs).
  exists w'. rewrite Hrun. auto.
Qed.

Lemma mode_flag_without_separate_value_witness :
  parse_mode ["/usr/bin/node"; "/repo/index.js"; "--mode=pattern"] = "/usr/bin/node"
  /\ exists w',
       script (fixed_zone 0) (fun _ => 1 # 2) strict_git
              ["/usr/bin/node"; "/repo/index.js"; "--mode=pattern"]
              ∅ "now" CONFIG PATTERNS fresh_world = (Exited 1, w')
       /\ err w' = [unknown_mode_line "/usr/bin/node"]
       /\ history w' = [].
Proof.
  destruct (mode_flag_without_separate_value (fixed_zone 0) (fun _ => 1 # 2) strict_git
              "/usr/bin/node" ["/repo/index.js"; "--mode=pattern"]
              ∅ "now" CONFIG PATTERNS fresh_world)
    as (_ & Hmode & w' & Hrun & _ & Herr & Hhist & _).
  - left. reflexivity.
  - exists "--mode=pattern". split; [cbn; tauto | reflexivity].
  - cbn. intros [H | [H | [H | []]]]; discriminate H.
  - split; [exact Hmode|]. exists w'. split; [exact Hrun|]. split; [exact Herr | exact Hhist].
Defined.

(* ===================================================================== *)
(** * More on random draws and timestamps *)
(* ===================================================================== *)

(** [randomInt(min, max)] with [min <= max] and a draw in [0, 1) returns an
    integer between [min] and [max], both included, and makes one draw. *)
Theorem randomInt_in_range random min max w :
  (0 <= random (draws w) < 1)%Q -> min <= max ->
  exists n, randomInt random min max w = (Ok n, after_draws 1 w) /\ min <= n <= max.
Proof.
  intros Hrand Hle. rewrite randomInt_value.
  exists (Qfloor (random (draws w) * inject_Z (max - min + 1)) + min).
  split; [reflexivity|].
  assert (Hspan : 0 < max - min + 1) by lia.
  destruct (Qfloor_scaled (random (draws w)) (max - min + 1) Hrand Hspan) as [Hlo Hhi].
  split; lia.
Qed.

Lemma randomInt_in_range_witness :
  exists n, randomInt (fun _ => 9 # 10) 0 3 fresh_world = (Ok n, after_draws 1 fresh_world)
            /\ 0 <= n <= 3.
Proof.
  apply (randomInt_in_range (fun _ => 9 # 10) 0 3 fresh_world).
  - split; [discriminate | reflexivity].
  - lia.
Defined.

(** A check of a property on every integer of a range by computation. *)
Lemma counting_forallb (P : Z -> bool) (lo count : Z) :
  forallb P (counting lo count) = true ->
  forall z, lo <= z < lo + count -> P z = true.
Proof.
  intros Hall z Hz. rewrite forallb_forall in Hall. apply Hall.
  unfold counting. apply in_map_iff. exists (Z.to_nat (z - lo)). split; [lia|].
  apply in_seq. lia.
Qed.

Lemma pad2_length (n : Z) : 0 <= n <= 99 -> String.length (pad2 n) = 2%nat.
Proof.
  intros Hn.
  apply Nat.eqb_eq.
  apply (counting_forallb (fun z => (String.length (pad2 z) =? 2)%nat) 0 100); [|lia].
  vm_compute. reflexivity.
Qed.

Lemma timeOfDay_length h m s :
  0 <= h <= 99 -> 0 <= m <= 99 -> 0 <= s <= 99 -> String.length (timeOfDay h m s) = 8%nat.
Proof.
  intros Hh Hm Hs. unfold timeOfDay.
  rewrite !string_length_append, !pad2_length by assumption. reflexivity.
Qed.

(** [formatGitDate] of a valid date, with draws in [0, 1), writes the
    calendar date of the local day, a blank and a time [HH:MM:SS] of eight
    characters with the hour in 9..21 and the minute and second in 0..59;
    it makes three draws and changes nothing else. *)
Theorem formatGitDate_shape engine random t w :
  (forall i, 0 <= random i < 1)%Q ->
  exists hour minute second,
    formatGitDate engine random (DateAt t) w
    = (Ok (calendarDate (localDay engine t) +:+ " " +:+ timeOfDay hour minute second),
       after_draws 3 w)
    /\ 9 <= hour <= 21 /\ 0 <= minute <= 59 /\ 0 <= second <= 59
    /\ String.length (timeOfDay hour minute second) = 8%nat.
Proof.
  intros Hrand.
  destruct (formatGitDate_run engine random t w Hrand) as (h & m & s & Hrun & Hh & Hm & Hs).
  exists h, m, s. split; [exact Hrun|]. do 3 (split; [assumption|]).
  apply timeOfDay_length; lia.
Qed.

Lemma formatGitDate_shape_witness :
  exists hour minute second,
    formatGitDate cairo (fun _ => 1 # 2) (DateAt (20093 * msPerDay)) fresh_world
    = (Ok (calendarDate (localDay cairo (20093 * msPerDay)) +:+ " "
           +:+ timeOfDay hour minute second),
       after_draws 3 fresh_world)
    /\ 9 <= hour <= 21 /\ 0 <= minute <= 59 /\ 0 <= second <= 59
    /\ String.length (timeOfDay hour minute second) = 8%nat.
Proof.
  apply (formatGitDate_shape cairo (fun _ => 1 # 2) (20093 * msPerDay) fresh_world).
  intros i. split; [discriminate | reflexivity].
Defined.

(* ===================================================================== *)
(** * More on the pattern compiler *)
(* ===================================================================== *)

Lemma join_nil_sep (xs : list string) : Js.join "" xs = fold_right append "" xs.
Proof.
  unfold Js.join. induction xs as [|x xs IH]; [reflexivity|].
  destruct xs as [|y xs].
  - cbn. clear. induction x as [|c x IH]; [reflexivity|].
    rewrite string_app_cons. now rewrite <- IH.
  - change (String.concat "" (x :: y :: xs)) with (x +:+ "" +:+ String.concat "" (y :: xs)).
    rewrite string_app_nil_l, IH. reflexivity.
Qed.

Lemma string_app_nil_r (s : string) : s +:+ "" = s.
Proof.
  induction s as [|c s IH]; [reflexivity|]. rewrite string_app_cons. now rewrite IH.
Qed.

(** Combining is associative on grids of seven rows: combining a combined
    pair with a third grid, on either side, is combining the three. *)
Theorem combinePatterns_assoc (a b c : Grid) :
  length a = 7%nat -> length b = 7%nat -> length c = 7%nat ->
  combinePatterns [combinePatterns [a; b]; c] = combinePatterns [a; b; c]
  /\ combinePatterns [a; combinePatterns [b; c]] = combinePatterns [a; b; c].
Proof.
  intros Ha Hb Hc.
  do 8 (destruct a as [|? a]; try discriminate Ha).
  do 8 (destruct b as [|? b]; try discriminate Hb).
  do 8 (destruct c as [|? c]; try discriminate Hc).
  rewrite !combinePatterns_rows.
  cbn [with_spacers seq map row_of lookup list_lookup default].
  rewrite !join_nil_sep. cbn [fold_right]. unfold row_of, spacer. cbn [lookup list_lookup default from_option id].
  rewrite !string_app_nil_r, !string_app_assoc. split; reflexivity.
Qed.

Lemma combinePatterns_assoc_witness :
  combinePatterns [combinePatterns [Glyph.H; Glyph.I]; Glyph.HEART]
  = combinePatterns [Glyph.H; Glyph.I; Glyph.HEART]
  /\ combinePatterns [Glyph.H; combinePatterns [Glyph.I; Glyph.HEART]]
     = combinePatterns [Glyph.H; Glyph.I; Glyph.HEART].
Proof. exact (combinePatterns_assoc Glyph.H Glyph.I Glyph.HEART eq_refl eq_refl eq_refl). Defined.

Lemma count_lit_append (a b : string) :
  count_lit (a +:+ b) = (count_lit a + count_lit b)%nat.
Proof.
  induction a as [|x a IH]; [reflexivity|].
  rewrite string_app_cons. simpl. rewrite IH. lia.
Qed.

Lemma count_lit_join (xs : list string) :
  count_lit (Js.join "" xs) = list_sum (map count_lit xs).
Proof.
  rewrite join_nil_sep. induction xs as [|x xs IH]; [reflexivity|].
  cbn [fold_right map]. now rewrite count_lit_append, list_sum_cons, IH.
Qed.

(** The [#] characters of a part, counted through its first seven rows. *)
Lemma litCount_by_row (p : Grid) :
  length p = 7%nat ->
  list_sum (map (fun row => count_lit (row_of row p)) (seq 0 7)) = litCount p.
Proof.
  intros Hp. do 8 (destruct p as [|? p]; try discriminate Hp). reflexivity.
Qed.

Lemma list_sum_with_spacers (f : Grid -> nat) (letters : list Grid) :
  f spacer = 0%nat ->
  list_sum (map f (with_spacers letters)) = list_sum (map f letters).
Proof.
  intros Hspacer. destruct letters as [|l rest]; [reflexivity|].
  rewrite with_spacers_cons. cbn [map]. rewrite !list_sum_cons. f_equal.
  induction rest as [|l' rest IH]; [reflexivity|].
  cbn [flat_map app map]. rewrite !list_sum_cons, Hspacer, IH. reflexivity.
Qed.

(** Combining neither adds nor loses a lit cell: the combined grid of any
    number of seven-row letters has as many [#] characters as the letters
    together. *)
Theorem combinePatterns_litCount (letters : list Grid) :
  Forall (fun letter => length letter = 7%nat) letters ->
  litCount (combinePatterns letters) = list_sum (map litCount letters).
Proof.
  intros Hrows. rewrite combinePatterns_rows. unfold litCount at 1. rewrite map_map.
  rewrite (map_ext _ (fun row => list_sum (map (fun p => count_lit (row_of row p))
                                               (with_spacers letters)))).
  2:{ intros row. now rewrite count_lit_join, map_map. }
  rewrite list_sum_swap.
  rewrite (list_sum_with_spacers
             (fun p => list_sum (map (fun row => count_lit (row_of row p)) (seq 0 7))))
    by reflexivity.
  f_equal. apply map_ext_in. intros p Hp. apply litCount_by_row.
  rewrite Forall_forall in Hrows. apply Hrows. now apply list_elem_of_In.
Qed.

Lemma combinePatterns_litCount_witness :
  litCount (combinePatterns [Glyph.H; Glyph.I]) = list_sum (map litCount [Glyph.H; Glyph.I]).
Proof. exact (combinePatterns_litCount [Glyph.H; Glyph.I] ltac:(repeat constructor)). Defined.

(* ===================================================================== *)
(** * More on the commit writer *)
(* ===================================================================== *)

Lemma string_app_same_l (s t : string) : s +:+ t = s -> t = "".
Proof.
  intros Heq. apply (f_equal String.length) in Heq.
  rewrite string_length_append in Heq. destruct t; [reflexivity | simpl in Heq; lia].
Qed.

(** [makeCommit] always changes the activity file, whatever the message
    and the timestamp, the empty strings included, also when git refuses
    the commit or there is no repository.  Inside a repository whose
    index agrees with the file, when git takes the commit, the call
    returns and the tree of the new commit differs from that index: the
    commit is not empty. *)
Theorem makeCommit_never_empty git env clock cfg dateStr message w :
  let file := ACTIVITY_FILE cfg in
  let result := makeCommit git env clock cfg dateStr message w in
  fs (snd result) !! file <> fs w !! file
  /\ (repo w = true ->
      git (commit_env env dateStr) message [("--date", dateStr)] = None ->
      staged w !! file = fs w !! file ->
      fst result = Ok tt
      /\ exists c, last (history (snd result)) = Some c
                   /\ c_tree c !! file <> staged w !! file).
Proof.
  intros file result.
  assert (Hchange : Some (default "" (fs w !! file) +:+ message +:+ "  |  " +:+ dateStr +:+ Js.LF)
                    <> fs w !! file).
  { destruct (fs w !! file) as [before|]; [|discriminate].
    cbn [default]. intros [= Heq]. apply string_app_same_l in Heq.
    apply (f_equal String.length) in Heq.
    rewrite !string_length_append in Heq. simpl in Heq. lia. }
  split.
  - unfold result. destruct (repo w) eqn:Hrepo.
    + destruct (git (commit_env env dateStr) message [("--date", dateStr)]) as [e|] eqn:Hgit.
      * rewrite (makeCommit_refused git env clock cfg dateStr message e w Hrepo Hgit).
        cbn [snd fs]. fold file. now rewrite lookup_insert_eq.
      * rewrite (makeCommit_run git env clock cfg dateStr message w Hrepo Hgit).
        cbn [snd fs]. fold file. now rewrite lookup_insert_eq.
    + rewrite (makeCommit_outside git env clock cfg dateStr message w Hrepo).
      cbn [snd fs]. fold file. now rewrite lookup_insert_eq.
  - intros Hrepo Hgit Hsame. unfold result.
    rewrite (makeCommit_run git env clock cfg dateStr message w Hrepo Hgit).
    cbn [fst snd history]. split; [reflexivity|].
    eexists. split; [apply last_snoc|].
    cbn [c_tree]. fold file. rewrite lookup_insert_eq, Hsame. exact Hchange.
Qed.

(* ===================================================================== *)
(** * More on the mode flag *)
(* ===================================================================== *)

Lemma indexOf_first (pre post : list string) (x : string) :
  ~ In x pre -> Js.indexOf (pre ++ x :: post) x = Z.of_nat (length pre).
Proof.
  induction pre as [|y pre IH]; intros Hnot.
  - cbn [app Js.indexOf length]. now rewrite String.eqb_refl.
  - cbn [app Js.indexOf length]. destruct (String.eqb_spec y x) as [->|Hne].
    + destruct Hnot. now left.
    + rewrite IH by (intros Hin; apply Hnot; now right).
      destruct (Z.ltb_spec (Z.of_nat (length pre)) 0); lia.
Qed.

Lemma at_middle {A} (pre post : list A) (x : A) :
  Js.at_ (pre ++ x :: post) (Z.of_nat (length pre)) = Some x.
Proof.
  unfold Js.at_. destruct (Z.ltb_spec (Z.of_nat (length pre)) 0); [lia|].
  rewrite Nat2Z.id. now rewrite list_lookup_middle.
Qed.

(** The mode is the value that follows the first argument equal to
    [--mode], in lower case. *)
Theorem parse_mode_reads_next_argument (pre post : list string) (value : string) :
  ~ In "--mode" pre -> value <> "" ->
  parse_mode (pre ++ "--mode" :: value :: post) = Js.toLowerCase value.
Proof.
  intros Hfirst Hvalue. unfold parse_mode.
  destruct (find_present (fun a => Js.startsWith a "--mode") (pre ++ "--mode" :: value :: post))
    as (flag & ->).
  { exists "--mode". split; [apply in_app_iff; right; now left | reflexivity]. }
  rewrite indexOf_first by assumption.
  replace (Z.of_nat (length pre) + 1) with (Z.of_nat (length (pre ++ ["--mode"])))
    by (rewrite length_app; cbn; lia).
  replace (pre ++ "--mode" :: value :: post) with ((pre ++ ["--mode"]) ++ value :: post)
    by now rewrite <- app_assoc.
  rewrite at_middle. cbn [Js.or_else].
  apply String.eqb_neq in Hvalue. now rewrite Hvalue.
Qed.

Lemma parse_mode_reads_next_argument_witness :
  parse_mode (["/usr/bin/node"; "/repo/index.js"] ++ "--mode" :: "Pattern" :: ["smile"])
  = Js.toLowerCase "Pattern".
Proof.
  apply (parse_mode_reads_next_argument ["/usr/bin/node"; "/repo/index.js"] ["smile"] "Pattern").
  - cbn. intros [H | [H | []]]; discriminate H.
  - discriminate.
Defined.

(** Without a value the mode is [fill]: when no argument starts with
    [--mode], and when the only [--mode] is the last argument. *)
Theorem parse_mode_defaults_to_fill (argv : list string) :
  (forall a, In a argv -> Js.startsWith a "--mode" = false)
  \/ (exists pre, argv = pre ++ ["--mode"] /\ ~ In "--mode" pre) ->
  parse_mode argv = "fill".
Proof.
  intros [Hnone | (pre & -> & Hfirst)]; unfold parse_mode.
  - destruct (Js.find _ argv) as [flag|] eqn:Hfind; [|reflexivity].
    apply find_some in Hfind as [Hin Hflag]. rewrite (Hnone _ Hin) in Hflag. discriminate.
  - rewrite indexOf_first by assumption.
    assert (Hout : Js.at_ (pre ++ ["--mode"]) (Z.of_nat (length pre) + 1) = None).
    { unfold Js.at_. destruct (Z.ltb_spec (Z.of_nat (length pre) + 1) 0); [reflexivity|].
      apply lookup_ge_None. rewrite length_app. cbn. lia. }
    rewrite Hout. now destruct (Js.find _ _).
Qed.

Lemma parse_mode_defaults_to_fill_witness :
  parse_mode ["/usr/bin/node"; "/repo/index.js"; "--mode"] = "fill".
Proof.
  apply (parse_mode_defaults_to_fill ["/usr/bin/node"; "/repo/index.js"; "--mode"]).
  right. exists ["/usr/bin/node"; "/repo/index.js"]. split; [reflexivity|].
  cbn. intros [H | [H | []]]; discriminate H.
Defined.

(** A mode that is neither [fill] nor [pattern] ends the script with
    status 1 after one line on the error stream that quotes the mode; no
    commit is made and no file changes. *)
Theorem unknown_mode_exits engine random git argv env clock cfg patterns w :
  parse_mode argv <> "fill" -> parse_mode argv <> "pattern" ->
  exists w',
    script engine random git argv env clock cfg patterns w = (Exited 1, w')
    /\ err w' = err w ++ [unknown_mode_line (parse_mode argv)]
    /\ history w' = history w
    /\ fs w' = fs w.
Proof.
  intros Hfill Hpattern.
  destruct (script_of_exits engine random git argv env clock cfg patterns _ _ _ w
              (exits_main_unknown engine random git argv env clock cfg patterns Hfill Hpattern))
    as (w' & Hrun & Heff).
  apply effect_no_commit in Heff. now exists w'.
Qed.

Lemma unknown_mode_exits_witness :
  exists w',
    script cairo (fun _ => 1 # 2) strict_git
           ["/usr/bin/node"; "/repo/index.js"; "--mode"; "Draw"]
           ∅ "now" CONFIG PATTERNS fresh_world = (Exited 1, w')
    /\ err w' = [unknown_mode_line "draw"]
    /\ history w' = []
    /\ fs w' = ∅.
Proof.
  apply (unknown_mode_exits cairo (fun _ => 1 # 2) strict_git
           ["/usr/bin/node"; "/repo/index.js"; "--mode"; "Draw"]
           ∅ "now" CONFIG PATTERNS fresh_world); discriminate.
Defined.

(* ===================================================================== *)
(** * What the script never does *)
(* ===================================================================== *)

Lemma grows_refl file w : grows file w w.
Proof.
  split; [|split; [|split; [|split; [|split; [|split]]]]]; auto.
  - exists []. split; [now rewrite app_nil_r | constructor].
  - exists []. now rewrite app_nil_r.
  - exists []. now rewrite app_nil_r.
  - exists "". now rewrite string_app_nil_r.
Qed.

Lemma grows_trans file w1 w2 w3 : grows file w1 w2 -> grows file w2 w3 -> grows file w1 w3.
Proof.
  intros ((cs1 & Hh1 & Hc1) & (o1 & Ho1) & (e1 & He1) & Hf1 & (t1 & Ht1) & Hd1 & Hr1)
         ((cs2 & Hh2 & Hc2) & (o2 & Ho2) & (e2 & He2) & Hf2 & (t2 & Ht2) & Hd2 & Hr2).
  split; [|split; [|split; [|split; [|split; [|split]]]]].
  - exists (cs1 ++ cs2). split; [now rewrite Hh2, Hh1, app_assoc | now apply Forall_app].
  - exists (o1 ++ o2). now rewrite Ho2, Ho1, app_assoc.
  - exists (e1 ++ e2). now rewrite He2, He1, app_assoc.
  - intros path Hpath. now rewrite Hf2, Hf1.
  - exists (t1 +:+ t2). now rewrite Ht2, Ht1, string_app_assoc.
  - lia.
  - auto.
Qed.

(** A step that leaves history, files and error stream alone, adds [lines]
    to the output, makes [n] draws and keeps or creates the repository. *)
Lemma grows_quiet file w w' :
  history w' = history w -> fs w' = fs w ->
  (exists lines, out w' = out w ++ lines) -> (exists lines, err w' = err w ++ lines) ->
  (draws w <= draws w')%nat -> (repo w = true -> repo w' = true) ->
  grows file w w'.
Proof.
  intros Hh Hf Ho He Hd Hr. split; [|split; [|split; [|split; [|split; [|split]]]]];
    try assumption.
  - exists []. split; [now rewrite app_nil_r | constructor].
  - intros path _. now rewrite Hf.
  - exists "". now rewrite Hf, string_app_nil_r.
Qed.

Lemma safe_ret {A} file (a : A) : safe file (ret a).
Proof. intros w. split; [exact Logic.I | apply grows_refl]. Qed.

Lemma safe_throw {A} file e : safe file (@throw A e).
Proof. intros w. split; [exact Logic.I | apply grows_refl]. Qed.

Lemma safe_process_exit {A} file : safe file (@process_exit A 1).
Proof. intros w. split; [reflexivity | apply grows_refl]. Qed.

Lemma safe_bind {A B} file (m : M A) (k : A -> M B) :
  safe file m -> (forall a, safe file (k a)) -> safe file (bind m k).
Proof.
  intros Hm Hk w. specialize (Hm w). unfold bind.
  destruct (m w) as [[a | e | code] w1]; cbn [fst snd] in Hm; [|exact Hm..].
  destruct Hm as [_ Hg1]. destruct (Hk a w1) as [Ht Hg2].
  split; [exact Ht | eapply grows_trans; eassumption].
Qed.

Lemma safe_catch {A} file (m : M A) handler :
  safe file m -> (forall e, safe file (handler e)) -> safe file (catch m handler).
Proof.
  intros Hm Hh w. specialize (Hm w). unfold catch.
  destruct (m w) as [[a | e | code] w1]; cbn [fst snd] in Hm; [exact Hm | | exact Hm].
  destruct Hm as [_ Hg1]. destruct (Hh e w1) as [Ht Hg2].
  split; [exact Ht | eapply grows_trans; eassumption].
Qed.

Lemma safe_for_of {A S} file (xs : list A) (body : S -> A -> M S) :
  (forall s x, safe file (body s x)) -> forall s, safe file (for_of xs s body).
Proof.
  intros Hbody. induction xs as [|x xs IH]; intros s; cbn [for_of].
  - apply safe_ret.
  - apply safe_bind; [apply Hbody | intros s'; apply IH].
Qed.

Lemma safe_console_log file s : safe file (console_log s).
Proof.
  intros w. split; [exact Logic.I|]. apply grows_quiet; cbn; auto.
  - now exists [s].
  - exists []. now rewrite app_nil_r.
Qed.

Lemma safe_console_error file s : safe file (console_error s).
Proof.
  intros w. split; [exact Logic.I|]. apply grows_quiet; cbn; auto.
  - exists []. now rewrite app_nil_r.
  - now exists [s].
Qed.

Lemma safe_randomInt file random min max : safe file (randomInt random min max).
Proof.
  intros w. split; [exact Logic.I|]. apply grows_quiet; cbn; auto;
    exists []; now rewrite app_nil_r.
Qed.

Lemma safe_formatGitDate file engine random d : safe file (formatGitDate engine random d).
Proof.
  unfold formatGitDate.
  do 3 (apply safe_bind; [apply safe_randomInt | intros ?]). apply safe_ret.
Qed.

Lemma safe_ensureRepo file : safe file ensureRepo.
Proof.
  intros w. unfold ensureRepo, git_checkIsRepo, bind. destruct (repo w) eqn:Hrepo; cbn [negb].
  - split; [exact Logic.I | apply grows_refl].
  - split; [exact Logic.I|]. apply grows_quiet; cbn; auto.
    + now eexists.
    + exists []. now rewrite app_nil_r.
Qed.

Lemma safe_makeCommit git env clock cfg dateStr message :
  safe (ACTIVITY_FILE cfg) (makeCommit git env clock cfg dateStr message).
Proof.
  intros w.
  assert (Hgrown : forall r st h,
             (exists cs, h = history w ++ cs
                         /\ Forall (fun c => c_author_date c = c_committer_date c
                                             /\ is_Some (c_tree c !! ACTIVITY_FILE cfg)) cs) ->
             (repo w = true -> r = true) ->
             grows (ACTIVITY_FILE cfg) w
                   {| fs := <[ACTIVITY_FILE cfg
                              := default "" (fs w !! ACTIVITY_FILE cfg)
                                 +:+ message +:+ "  |  " +:+ dateStr +:+ Js.LF]> (fs w);
                      repo := r; staged := st; history := h;
                      out := out w; err := err w; draws := draws w |}).
  { intros r st h Hh Hr.
    split; [|split; [|split; [|split; [|split; [|split]]]]];
      cbn [fs repo history out err draws].
    - exact Hh.
    - exists []. now rewrite app_nil_r.
    - exists []. now rewrite app_nil_r.
    - intros path Hpath. now rewrite lookup_insert_ne.
    - rewrite lookup_insert_eq. now eexists.
    - lia.
    - exact Hr. }
  destruct (repo w) eqn:Hrepo.
  - destruct (git (commit_env env dateStr) message [("--date", dateStr)]) as [e|] eqn:Hgit.
    + rewrite (makeCommit_refused git env clock cfg dateStr message e w Hrepo Hgit).
      cbn [fst snd]. split; [exact Logic.I|]. apply Hgrown; [|auto].
      exists []. split; [now rewrite app_nil_r | constructor].
    + rewrite (makeCommit_run git env clock cfg dateStr message w Hrepo Hgit).
      cbn [fst snd]. split; [exact Logic.I|]. apply Hgrown; [|auto].
      eexists. split; [reflexivity|]. repeat constructor.
      cbn [c_tree]. rewrite lookup_insert_eq. now eexists.
  - rewrite (makeCommit_outside git env clock cfg dateStr message w Hrepo).
    cbn [fst snd]. split; [exact Logic.I|]. apply Hgrown; [|discriminate].
    exists []. split; [now rewrite app_nil_r | constructor].
Qed.

Lemma settles_after_log {B} (s : string) (k : unit -> M B) :
  (forall a, settles (k a)) -> settles (bind (console_log s) k).
Proof. intros Hk w. unfold bind, console_log. apply Hk. Qed.

Lemma settles_bind {A B} file (m : M A) (k : A -> M B) :
  settles m -> (forall a, safe file (k a)) -> settles (bind m k).
Proof.
  intros Hm Hk w. specialize (Hm w). unfold bind.
  destruct (m w) as [[a | e | code] w1]; cbn [snd] in *; [|exact Hm..].
  destruct (Hk a w1) as (_ & _ & _ & _ & _ & _ & _ & Hrepo). now apply Hrepo.
Qed.

Lemma settles_ensureRepo : settles ensureRepo.
Proof.
  intros w. unfold ensureRepo, git_checkIsRepo, bind.
  destruct (repo w) eqn:Hrepo; [exact Hrepo | reflexivity].
Qed.

Section SafeScript.
Variable engine : Engine.
Variable random : nat -> Q.
Variable git : Git.
Variable argv : list string.
Variable env : gmap string string.
Variable clock : string.
Variable cfg : Config.
Variable patterns : Patterns.

Lemma safe_runFillMode : safe (ACTIVITY_FILE cfg) (runFillMode engine random git env clock cfg).
Proof.
  unfold runFillMode.
  do 3 (apply safe_bind; [apply safe_console_log | intros _]).
  apply safe_bind; [|intros ?; apply safe_console_log].
  apply safe_for_of. intros [totalCommits totalDays] entry. unfold fill_day.
  apply safe_bind; [apply safe_randomInt | intros numCommits].
  apply safe_bind.
  - apply safe_for_of. intros total n. unfold fill_commit.
    apply safe_bind; [apply safe_formatGitDate | intros dateStr].
    apply safe_bind; [apply safe_makeCommit | intros _; apply safe_ret].
  - intros total. apply safe_bind; [|intros _; apply safe_ret].
    destruct (_ =? 0); [apply safe_console_log | apply safe_ret].
Qed.

Lemma safe_runPatternMode :
  safe (ACTIVITY_FILE cfg) (runPatternMode engine random git argv env clock cfg patterns).
Proof.
  unfold runPatternMode.
  assert (Hunknown : forall A (a b : string),
             safe (ACTIVITY_FILE cfg) (console_error a ;;; console_error b ;;; @process_exit A 1)).
  { intros A a b. do 2 (apply safe_bind; [apply safe_console_error | intros _]).
    apply safe_process_exit. }
  destruct (Obj.get patterns (patternName argv)) as [[pattern|]|]; [|apply Hunknown..].
  do 3 (apply safe_bind; [apply safe_console_log | intros _]).
  destruct (pattern !! 0%nat) as [row0|]; [|apply safe_throw].
  apply safe_bind; [|intros ?; apply safe_console_log].
  apply safe_for_of. intros total week. apply safe_for_of. intros total' day.
  unfold pattern_cell. destruct (pattern !! day) as [row|]; [|apply safe_throw].
  cbv zeta. destruct (negb _); [apply safe_ret|].
  apply safe_for_of. intros total'' n. unfold pattern_commit.
  apply safe_bind; [apply safe_formatGitDate | intros dateStr].
  destruct (toISOString _); [|apply safe_throw].
  apply safe_bind; [apply safe_makeCommit | intros _; apply safe_ret].
Qed.

Lemma safe_main : safe (ACTIVITY_FILE cfg) (main engine random git argv env clock cfg patterns).
Proof.
  unfold main.
  do 3 (apply safe_bind; [apply safe_console_log | intros _]).
  apply safe_bind; [apply safe_ensureRepo | intros _].
  apply safe_bind.
  - destruct (String.eqb _ "fill"); [apply safe_runFillMode|].
    destruct (String.eqb _ "pattern"); [apply safe_runPatternMode|].
    apply safe_bind; [apply safe_console_error | intros _; apply safe_process_exit].
  - intros _. do 3 (apply safe_bind; [apply safe_console_log | intros _]).
    apply safe_console_log.
Qed.

Lemma safe_script : safe (ACTIVITY_FILE cfg) (script engine random git argv env clock cfg patterns).
Proof.
  unfold script. apply safe_catch; [apply safe_main|].
  intros e. apply safe_bind; [apply safe_console_error | intros _; apply safe_process_exit].
Qed.

Lemma settles_main : settles (main engine random git argv env clock cfg patterns).
Proof.
  unfold main.
  do 3 (apply settles_after_log; intros _).
  apply (settles_bind (ACTIVITY_FILE cfg)); [apply settles_ensureRepo | intros _].
  apply safe_bind.
  - destruct (String.eqb _ "fill"); [apply safe_runFillMode|].
    destruct (String.eqb _ "pattern"); [apply safe_runPatternMode|].
    apply safe_bind; [apply safe_console_error | intros _; apply safe_process_exit].
  - intros _. do 3 (apply safe_bind; [apply safe_console_log | intros _]).
    apply safe_console_log.
Qed.
End SafeScript.

Lemma settles_catch {A} file (m : M A) handler :
  settles m -> (forall e, safe file (handler e)) -> settles (catch m handler).
Proof.
  intros Hm Hh w. specialize (Hm w). unfold catch.
  destruct (m w) as [[a | e | code] w1]; cbn [snd] in *; [exact Hm | | exact Hm].
  destruct (Hh e w1) as (_ & _ & _ & _ & _ & _ & _ & Hrepo). now apply Hrepo.
Qed.

(** Whatever the command line, the configuration, the pattern table, the
    draws and the world, the script ends in one of two ways: it returns
    normally (exit status 0) or it exits with status 1; no exception
    escapes its handler. *)
Theorem script_exit_status engine random git argv env clock cfg patterns w :
  fst (script engine random git argv env clock cfg patterns w) = Ok tt
  \/ fst (script engine random git argv env clock cfg patterns w) = Exited 1.
Proof.
  destruct (safe_main engine random git argv env clock cfg patterns w) as [Htame _].
  unfold script, catch.
  destruct (main engine random git argv env clock cfg patterns w) as [[[] | e | code] w1];
    cbn [fst] in *.
  - now left.
  - now right.
  - right. now rewrite Htame.
Qed.

(** The history is only ever extended: whatever the inputs and however the
    script ends, the commits that were there stay, in order, and every
    commit added has equal author and committer timestamps and holds the
    activity file; the lines already on the two streams stay as well. *)
Theorem script_history_append_only engine random git argv env clock cfg patterns w :
  let w' := snd (script engine random git argv env clock cfg patterns w) in
  (exists cs, history w' = history w ++ cs
              /\ Forall (fun c => c_author_date c = c_committer_date c
                                  /\ is_Some (c_tree c !! ACTIVITY_FILE cfg)) cs)
  /\ (exists lines, out w' = out w ++ lines)
  /\ (exists lines, err w' = err w ++ lines).
Proof.
  destruct (safe_script engine random git argv env clock cfg patterns w)
    as (_ & Hhist & Hout & Herr & _).
  auto.
Qed.

(** The script writes to one file only: whatever the inputs and however it
    ends, every file other than the activity file is as it was (present or
    absent), and the activity file holds its old content followed by the
    text appended. *)
Theorem script_touches_only_activity_file engine random git argv env clock cfg patterns w :
  let w' := snd (script engine random git argv env clock cfg patterns w) in
  (forall path, path <> ACTIVITY_FILE cfg -> fs w' !! path = fs w !! path)
  /\ exists text,
       default "" (fs w' !! ACTIVITY_FILE cfg)
       = default "" (fs w !! ACTIVITY_FILE cfg) +:+ text.
Proof.
  destruct (safe_script engine random git argv env clock cfg patterns w)
    as (_ & _ & _ & _ & Hother & Hfile & _).
  auto.
Qed.

(** Whatever the inputs and however the script ends (also on an unknown
    mode or pattern), the working directory is a repository afterwards:
    [ensureRepo] runs before the mode is looked at. *)
Theorem script_leaves_repository engine random git argv env clock cfg patterns w :
  repo (snd (script engine random git argv env clock cfg patterns w)) = true.
Proof.
  unfold script. apply (settles_catch (ACTIVITY_FILE cfg)); [apply settles_main|].
  intros e. apply safe_bind; [apply safe_console_error | intros _; apply safe_process_exit].
Qed.

(* ===================================================================== *)
(** * Exceptions in pattern mode *)
(* ===================================================================== *)

Lemma fails_throw {A} e : fails [] [] e (@throw A e).
Proof. intros w _. exists w. split; [reflexivity | apply effect_refl]. Qed.

Lemma fails_bind_l {A B} d l e (m : M A) (k : A -> M B) :
  fails d l e m -> fails d l e (bind m k).
Proof.
  intros Hm w Hrepo. destruct (Hm w Hrepo) as (w' & Hrun & He).
  exists w'. unfold bind. now rewrite Hrun.
Qed.

Lemma fails_seq {A B} d1 l1 d2 l2 d l e (P : A -> Prop) (m : M A) (k : A -> M B) :
  runs d1 l1 P m -> (forall a, P a -> fails d2 l2 e (k a)) ->
  d = d1 ++ d2 -> l = l1 ++ l2 ->
  fails d l e (bind m k).
Proof.
  intros Hm Hk -> -> w Hrepo. destruct (Hm w Hrepo) as (a & w1 & Hrun & Ha & He1 & Hrepo1).
  destruct (Hk a Ha w1 Hrepo1) as (w2 & Hrun2 & He2).
  exists w2. unfold bind. rewrite Hrun. eauto using effect_trans.
Qed.

Lemma fails_after {A B} d l e (m : M A) (k : A -> M B) :
  runs [] [] any m -> (forall a, fails d l e (k a)) -> fails d l e (bind m k).
Proof. intros Hm Hk. eapply fails_seq; [exact Hm | intros a _; apply Hk | reflexivity..]. Qed.

Lemma for_of_app {A S} (xs ys : list A) (s : S) (body : S -> A -> M S) (w : World) :
  for_of (xs ++ ys) s body w = bind (for_of xs s body) (fun s' => for_of ys s' body) w.
Proof.
  revert s w. induction xs as [|x xs IH]; intros s w; [reflexivity|].
  cbn [app for_of]. unfold bind.
  destruct (body s x w) as [[s' | e | code] w1]; [rewrite IH; reflexivity | reflexivity..].
Qed.

(** An exception of the script's [main] becomes a line on the error stream
    and exit status 1. *)
Lemma script_of_fails engine random git argv env clock cfg patterns d l e w :
  fails_anywhere d l e (main engine random git argv env clock cfg patterns) ->
  exists w', script engine random git argv env clock cfg patterns w = (Exited 1, w')
             /\ effect d (l ++ [fatal_line e]) w w'.
Proof.
  intros Hmain. destruct (Hmain w) as (w1 & Hrun & (Hh & Hfs & Herr)).
  unfold script, catch. rewrite Hrun. unfold bind, console_error, process_exit.
  eexists. split; [reflexivity|]. split; [exact Hh|]. split; [exact Hfs|].
  cbn [err]. rewrite Herr, <- app_assoc. reflexivity.
Qed.

Lemma fails_main_pattern engine random git argv env clock cfg patterns d l e :
  parse_mode argv = "pattern" ->
  fails d l e (runPatternMode engine random git argv env clock cfg patterns) ->
  fails_anywhere d l e (main engine random git argv env clock cfg patterns).
Proof.
  intros Hmode Hpattern w. unfold main.
  match goal with
  | |- context [ensureRepo ;;; ?k] =>
      destruct (main_setup (Js.repeat "═" 60) "  GitHub Contribution Graph Filler"
                  (Js.repeat "═" 60 +:+ Js.LF) k w) as (w0 & Hrepo & He & ->)
  end.
  rewrite Hmode. cbn [String.eqb Ascii.eqb Bool.eqb].
  destruct (Hpattern w0 Hrepo) as (w' & Hrun & He').
  exists w'. split; [unfold bind; now rewrite Hrun|].
  apply (effect_trans [] [] d l w w0 w' He He').
Qed.

(** ** An invalid start date *)

(** A loop whose body either throws, after changing the world by [g], or
    does nothing, by a test on the element: it throws at the first element
    that passes the test. *)
Lemma for_of_first_throw {A S} (p : A -> bool) (e : string) (g : World -> World)
    (xs : list A) (body : S -> A -> M S) :
  (forall s x w, In x xs -> body s x w = if p x then (Thrown e, g w) else (Ok s, w)) ->
  forall s w, for_of xs s body w = if existsb p xs then (Thrown e, g w) else (Ok s, w).
Proof.
  induction xs as [|x xs IH]; intros Hbody s w; [reflexivity|].
  cbn [for_of existsb]. unfold bind. rewrite Hbody by now left.
  destruct (p x); [reflexivity|]. cbn [orb].
  apply IH. intros s' y w' Hy. apply Hbody. now right.
Qed.

Lemma formatGitDate_draws engine random d w :
  exists s, formatGitDate engine random d w = (Ok s, after_draws 3 w).
Proof.
  unfold formatGitDate, randomInt, Math_random, bind, ret. eexists. f_equal.
  unfold after_draws. cbn [fs repo staged history out err draws]. f_equal. lia.
Qed.

Section InvalidStart.
Variable engine : Engine.
Variable random : nat -> Q.
Variable git : Git.
Variable argv : list string.
Variable env : gmap string string.
Variable clock : string.
Variable cfg : Config.
Variable patterns : Patterns.
Hypothesis Hstart : new_Date_midnight engine (PATTERN_START_DATE cfg) = InvalidDate.
Hypothesis Hcommits : 1 <= PATTERN_COMMITS cfg.

Lemma pattern_cell_invalid_start name grid week total weekday w :
  length grid = 7%nat -> (weekday < 7)%nat ->
  pattern_cell engine random git env clock cfg name grid week total weekday w
  = if is_lit grid week weekday
    then (Thrown "RangeError: Invalid time value", after_draws 3 w)
    else (Ok total, w).
Proof.
  intros Hrows Hday. unfold pattern_cell, is_lit.
  destruct (grid !! weekday) as [row|] eqn:Hrow.
  2:{ apply lookup_ge_None in Hrow. lia. }
  cbv zeta. destruct (Js.char_is (String.get week row) "#"); cbn [negb]; [|reflexivity].
  rewrite Hstart. cbn [getDate setDate fmap option_fmap option_map].
  unfold counting.
  destruct (Z.to_nat (PATTERN_COMMITS cfg)) as [|n] eqn:Hn; [lia|].
  cbn [seq map for_of]. unfold bind, pattern_commit, bind.
  destruct (formatGitDate_draws engine random InvalidDate w) as (s & ->).
  reflexivity.
Qed.

Lemma runPatternMode_invalid_start grid :
  Obj.get patterns (patternName argv) = Some (Some grid) ->
  length grid = 7%nat -> litCells grid <> [] ->
  fails [] [] "RangeError: Invalid time value"
        (runPatternMode engine random git argv env clock cfg patterns).
Proof.
  intros Hget Hrows Hlit. unfold runPatternMode. rewrite Hget.
  do 3 (apply fails_after; [apply runs_console_log | intros _]).
  destruct (grid !! 0%nat) as [row0|] eqn:Hrow0.
  2:{ apply lookup_ge_None in Hrow0. lia. }
  apply fails_bind_l. intros w Hrepo.
  rewrite (for_of_first_throw (fun week => existsb (is_lit grid week) (seq 0 7))
             "RangeError: Invalid time value" (after_draws 3)).
  - assert (Hex : existsb (fun week => existsb (is_lit grid week) (seq 0 7))
                          (seq 0 (String.length row0)) = true).
    { destruct (litCells grid) as [|[week weekday] rest] eqn:Hcells; [now destruct Hlit|].
      assert (Hin : In (week, weekday) (litCells grid)) by (rewrite Hcells; now left).
      apply litCells_spec in Hin as (Hweek & Hday & Hcell).
      unfold width in Hweek. rewrite Hrow0 in Hweek. cbn [default from_option id] in Hweek.
      apply existsb_exists. exists week. split; [apply in_seq; lia|].
      apply existsb_exists. exists weekday. split; [apply in_seq; lia | exact Hcell]. }
    rewrite Hex. eexists. split; [reflexivity|]. now apply effect_quiet.
  - intros total week w' _.
    apply (for_of_first_throw (is_lit grid week) "RangeError: Invalid time value"
             (after_draws 3)).
    intros total' weekday w'' Hday%in_seq.
    apply pattern_cell_invalid_start; [assumption | lia].
Qed.
End InvalidStart.



(** ** A pattern with fewer than seven rows *)

Lemma seq_split_at (n : nat) :
  (n < 7)%nat -> seq 0 7 = seq 0 n ++ n :: seq (S n) (6 - n).
Proof.
  intros Hn. do 7 (destruct n as [|n]; [reflexivity|]). lia.
Qed.

Section ShortGrid.
Variable engine : Engine.
Variable random : nat -> Q.
Variable git : Git.
Variable argv : list string.
Variable env : gmap string string.
Variable clock : string.
Variable cfg : Config.
Variable patterns : Patterns.
Hypothesis Hrand : (forall i, 0 <= random i < 1)%Q.

Lemma runPatternMode_short_grid grid ts :
  Obj.get patterns (patternName argv) = Some (Some grid) ->
  (length grid < 7)%nat -> (0 < width grid)%nat ->
  new_Date_midnight engine (PATTERN_START_DATE cfg) = DateAt ts ->
  takes git env (first_column_asks engine cfg (patternName argv) grid ts) ->
  fails (first_column_asks engine cfg (patternName argv) grid ts) []
        (cannot_read "0")
        (runPatternMode engine random git argv env clock cfg patterns).
Proof.
  intros Hget Hrows Hwidth Hstart Htakes. unfold runPatternMode. rewrite Hget.
  do 3 (apply fails_after; [apply runs_console_log | intros _]).
  unfold width in Hwidth.
  destruct (grid !! 0%nat) as [row0|] eqn:Hrow0; [|cbn in Hwidth; lia].
  cbn [default from_option id] in Hwidth.
  apply fails_bind_l.
  destruct (String.length row0) as [|n]; [lia|].
  change (seq 0 (S n)) with (0%nat :: seq 1 n). cbn [for_of]. apply fails_bind_l.
  rewrite (seq_split_at (length grid)) by assumption.
  intros w. rewrite for_of_app. revert w.
  eapply (fails_seq (first_column_asks engine cfg (patternName argv) grid ts) [] [] []);
    [ | | symmetry; apply app_nil_r | reflexivity].
  - apply (runs_for_of_tally
             (fun weekday => if is_lit grid 0 weekday
                             then cell_asks engine cfg (patternName argv) ts (0%nat, weekday)
                             else [])).
    intros total weekday Hday. apply runs_pattern_cell; [assumption | | assumption |].
    + apply in_seq in Hday. lia.
    + intros ask Hask. apply Htakes, in_flat_map. exists weekday. now split.
  - intros total _. cbn [for_of]. apply fails_bind_l.
    unfold pattern_cell. rewrite (proj2 (lookup_ge_None grid (length grid))) by lia.
    apply fails_throw.
Qed.
End ShortGrid.

(** A pattern with fewer than seven rows (and a first row that is not
    empty) stops the script in the first column: the commits of the lit
    cells of that column in the rows that exist are made, when git takes
    them, then reading the missing row throws the [TypeError] of column
    0; the script prints one fatal line and exits with status 1, and the
    commits made stay in the history. *)
Theorem pattern_mode_short_grid engine random git argv env clock cfg patterns grid ts w :
  (forall i, 0 <= random i < 1)%Q ->
  ascii_name argv ->
  parse_mode argv = "pattern" ->
  Obj.get patterns (patternName argv) = Some (Some grid) ->
  (length grid < 7)%nat -> (0 < width grid)%nat ->
  new_Date_midnight engine (PATTERN_START_DATE cfg) = DateAt ts ->
  takes git env (first_column_asks engine cfg (patternName argv) grid ts) ->
  exists w' cs,
    script engine random git argv env clock cfg patterns w = (Exited 1, w')
    /\ err w' = err w ++ [fatal_line "TypeError: Cannot read properties of undefined (reading '0')"]
    /\ history w' = history w ++ cs
    /\ Forall2 made (first_column_asks engine cfg (patternName argv) grid ts) cs.
Proof.
  intros Hrand _ Hmode Hget Hrows Hwidth Hstart Htakes.
  pose proof (runPatternMode_short_grid engine random git argv env clock cfg patterns Hrand
                grid ts Hget Hrows Hwidth Hstart Htakes) as Hfails.
  destruct (script_of_fails engine random git argv env clock cfg patterns _ _ _ w
              (fails_main_pattern _ _ _ _ _ _ _ _ _ _ _ Hmode Hfails))
    as (w' & Hrun & (cs & Hhist & Hmade) & _ & Herr).
  now exists w', cs.
Qed.

Lemma pattern_mode_short_grid_witness :
  exists w' cs,
    script (fixed_zone 0) (fun _ => 1 # 2) obliging
           ["/usr/bin/node"; "/repo/index.js"; "x"; "bar"; "--mode"; "pattern"]
           ∅ "now" CONFIG [("BAR", Some ["##"; ".#"; "#."])] fresh_world = (Exited 1, w')
    /\ err w' = [fatal_line "TypeError: Cannot read properties of undefined (reading '0')"]
    /\ history w' = cs
    /\ length cs = 6%nat.
Proof.
  destruct (pattern_mode_short_grid (fixed_zone 0) (fun _ => 1 # 2) obliging
              ["/usr/bin/node"; "/repo/index.js"; "x"; "bar"; "--mode"; "pattern"]
              ∅ "now" CONFIG [("BAR", Some ["##"; ".#"; "#."])] ["##"; ".#"; "#."]
              (20093 * msPerDay) fresh_world)
    as (w' & cs & Hrun & Herr & Hhist & Hmade); try reflexivity.
  - intros i. split; [discriminate | reflexivity].
  - cbn. lia.
  - cbn. lia.
  - intros ask _ h m s _. reflexivity.
  - exists w', cs. split; [exact Hrun|]. split; [exact Herr|]. split; [exact Hhist|].
    apply Forall2_length in Hmade. rewrite <- Hmade. reflexivity.
Defined.

(* ===================================================================== *)
(** * The ISO label of a day *)
(* ===================================================================== *)

Lemma repeat_char_length c n : String.length (Js.repeat_char c n) = n.
Proof. induction n as [|n IH]; simpl; [reflexivity | now rewrite IH]. Qed.

Lemma padStart_length_ge n c s : (n <= String.length (Js.padStart n c s))%nat.
Proof.
  unfold Js.padStart. rewrite string_length_append, repeat_char_length. lia.
Qed.

Lemma substring_prefix (n : nat) (a b : string) :
  (n <= String.length a)%nat -> substring 0 n (a +:+ b) = substring 0 n a.
Proof.
  revert a. induction n as [|n IH]; intros a Hn.
  - destruct (a +:+ b); destruct a; reflexivity.
  - destruct a as [|c a]; [simpl in Hn; lia|].
    rewrite string_app_cons. simpl. f_equal. apply IH. simpl in Hn. lia.
Qed.

Lemma isoDatePart_length t : (10 <= String.length (isoDatePart t))%nat.
Proof.
  unfold isoDatePart. rewrite !string_length_append.
  assert (Hy : (4 <= String.length (isoYear (YearFromTime t)))%nat).
  { unfold isoYear. destruct (_ && _); [apply padStart_length_ge|].
    rewrite string_length_append.
    pose proof (padStart_length_ge 6 "0" (Js.String_ (Z.abs (YearFromTime t)))). lia. }
  pose proof (padStart_length_ge 2 "0" (Js.String_ (MonthFromTime t + 1))) as Hm.
  pose proof (padStart_length_ge 2 "0" (Js.String_ (DateFromTime t))) as Hd.
  unfold pad2. change (String.length "-") with 1%nat. lia.
Qed.

Lemma isoString_parts u :
  isoString u = isoDatePart u +:+ "T" +:+ pad2 (HourFromTime u) +:+ ":" +:+
            pad2 (MinFromTime u) +:+ ":" +:+ pad2 (SecFromTime u) +:+ "." +:+
            pad3 (msFromTime u) +:+ "Z".
Proof. unfold isoString, isoDatePart. rewrite !string_app_assoc. reflexivity. Qed.

Lemma slice_isoDatePart u : Js.slice0 10 (isoString u) = Js.slice0 10 (isoDatePart u).
Proof.
  rewrite isoString_parts. unfold Js.slice0. apply substring_prefix, isoDatePart_length.
Qed.

(** The first ten characters of [toISOString] are those of the date part,
    so they depend on the UTC day only. *)
Lemma slice_isoString t : Js.slice0 10 (isoString t) = isoDate (Day t).
Proof.
  unfold isoDate. rewrite !slice_isoDatePart. unfold isoDatePart.
  now destruct (calendar_fields t) as (-> & -> & ->).
Qed.

Lemma utc_day_of_shifted d i tza :
  Day (d * msPerDay - tza + i * msPerDay) = d + i + Day (- tza).
Proof. unfold Day. div_lia. Qed.

Lemma Day_whole_offset d tza :
  (- msPerDay < tza <= 0 -> d + Day (- tza) = d)
  /\ (0 < tza <= msPerDay -> d + Day (- tza) = d - 1).
Proof. unfold Day. split; intros Hz; div_lia. Qed.



(* ===================================================================== *)
(** * Fill mode with a random density *)
(* ===================================================================== *)

(** Fill mode with [min <= max] and draws in [0, 1), inside a repository
    and with a git that takes the commits it may ask for, returns
    normally; every entry the day sequencer yields gets a number of
    commits between [min] and [max] (none for a number below 1), numbered
    from 1 and dated on the local day of the entry, in the order of the
    entries; with [0 <= min] the commits are between [min] and [max]
    times the number of entries; and the last line printed reports the
    number of commits made and the number of entries. *)
Theorem runFillMode_commit_bounds engine random git env clock cfg w :
  (forall i, 0 <= random i < 1)%Q ->
  repo w = true ->
  MIN_COMMITS_PER_DAY cfg <= MAX_COMMITS_PER_DAY cfg ->
  let entries := dayRange engine (START_DATE cfg) (END_DATE cfg) in
  fill_accepted git env engine cfg entries (MAX_COMMITS_PER_DAY cfg) ->
  exists w' cs counts,
    runFillMode engine random git env clock cfg w = (Ok tt, w')
    /\ history w' = history w ++ cs
    /\ length counts = length entries
    /\ Forall (fun n => MIN_COMMITS_PER_DAY cfg <= n <= MAX_COMMITS_PER_DAY cfg) counts
    /\ Forall2 made (fill_asks engine cfg entries counts) cs
    /\ (0 <= MIN_COMMITS_PER_DAY cfg ->
        MIN_COMMITS_PER_DAY cfg * Z.of_nat (length entries) <= Z.of_nat (length cs)
        <= MAX_COMMITS_PER_DAY cfg * Z.of_nat (length entries))
    /\ last (out w') = Some (fill_done_line (Z.of_nat (length cs))
                                            (Z.of_nat (length entries))).
Proof.
  intros Hrand Hrepo Hle entries Haccept.
  destruct (runFillMode_run engine random git env clock cfg Hrand w Hrepo Hle Haccept)
    as (counts & totals & w' & Hrun & Hlen & Hall & ((cs & Hhist & Hmade) & _ & _) & _ & _
        & Hout).
  fold entries in Hlen, Hall, Hmade, Hout.
  exists w', cs, counts.
  pose proof (Forall2_length _ _ _ Hmade) as Hcs.
  split; [exact Hrun|]. split; [exact Hhist|]. split; [exact Hlen|]. split; [exact Hall|].
  split; [exact Hmade|]. split.
  - intros Hlo. rewrite <- Hcs. now apply length_fill_asks_bounds.
  - rewrite Hout, !app_assoc, last_snoc, Hcs. reflexivity.
Qed.

Lemma runFillMode_commit_bounds_witness :
  exists w' cs,
    runFillMode (fixed_zone 0) (fun _ => 9 # 10) obliging ∅ "now"
      {| START_DATE := "2025-01-01"; END_DATE := "2025-01-02";
         MIN_COMMITS_PER_DAY := 1; MAX_COMMITS_PER_DAY := 3;
         ACTIVITY_FILE := "activity.txt"; COMMIT_MESSAGE := "Activity update #{n} on {date}";
         PATTERN_START_DATE := "2025-01-05"; PATTERN_COMMITS := 3 |} fresh_repo = (Ok tt, w')
    /\ history w' = cs
    /\ last (out w') = Some (fill_done_line (Z.of_nat (length cs)) 2).
Proof.
  destruct (runFillMode_commit_bounds (fixed_zone 0) (fun _ => 9 # 10) obliging ∅ "now"
      {| START_DATE := "2025-01-01"; END_DATE := "2025-01-02";
         MIN_COMMITS_PER_DAY := 1; MAX_COMMITS_PER_DAY := 3;
         ACTIVITY_FILE := "activity.txt"; COMMIT_MESSAGE := "Activity update #{n} on {date}";
         PATTERN_START_DATE := "2025-01-05"; PATTERN_COMMITS := 3 |} fresh_repo)
    as (w' & cs & counts & Hrun & Hhist & _ & _ & _ & _ & Hlast).
  - intros i. split; [discriminate | reflexivity].
  - reflexivity.
  - cbn. lia.
  - intros e n _ _ h m s _. reflexivity.
  - exists w', cs. split; [exact Hrun|]. split; [exact Hhist|]. exact Hlast.
Defined.

(* ===================================================================== *)
(** * Dates that cannot be read *)
(* ===================================================================== *)

Lemma dayRange_invalid engine startISO endISO :
  new_Date_midnight engine startISO = InvalidDate
  \/ new_Date_midnight engine endISO = InvalidDate ->
  dayRange engine startISO endISO = [].
Proof.
  intros [H|H]; unfold dayRange; rewrite H; [reflexivity|].
  now destruct (new_Date_midnight engine startISO).
Qed.

(** In fill mode a start or end date of which the engine makes no date
    goes unnoticed: the day sequencer yields nothing, and the script
    returns normally (exit status 0) with no commit, no file changed and
    nothing on the error stream. *)
Theorem fill_mode_invalid_date engine random git argv env clock cfg patterns w :
  parse_mode argv = "fill" ->
  new_Date_midnight engine (START_DATE cfg) = InvalidDate
  \/ new_Date_midnight engine (END_DATE cfg) = InvalidDate ->
  dayRange engine (START_DATE cfg) (END_DATE cfg) = []
  /\ exists w',
       script engine random git argv env clock cfg patterns w = (Ok tt, w')
       /\ err w' = err w
       /\ history w' = history w
       /\ fs w' = fs w.
Proof.
  intros Hmode Hbad.
  pose proof (dayRange_invalid _ _ _ Hbad) as Hnil. split; [exact Hnil|].
  pose proof (runs_runFillMode_empty engine random git env clock cfg Hnil) as Hfill.
  destruct (script_of_runs engine random git argv env clock cfg patterns _ _ w
              (runs_main_fill _ _ _ _ _ _ _ _ _ Hmode Hfill)) as (w' & Hrun & Heff).
  apply effect_no_commit in Heff as (Herr & Hhist & Hfs).
  exists w'. rewrite app_nil_r in Herr. auto.
Qed.

Lemma fill_mode_invalid_date_witness :
  exists w',
    script (fixed_zone 0) (fun _ => 1 # 2) strict_git ["/usr/bin/node"; "/repo/index.js"] ∅ "now"
      {| START_DATE := "2025-01-01"; END_DATE := "soon";
         MIN_COMMITS_PER_DAY := 1; MAX_COMMITS_PER_DAY := 3;
         ACTIVITY_FILE := "activity.txt"; COMMIT_MESSAGE := "Activity update #{n} on {date}";
         PATTERN_START_DATE := "2025-01-05"; PATTERN_COMMITS := 3 |} PATTERNS fresh_world
    = (Ok tt, w')
    /\ err w' = [] /\ history w' = [].
Proof.
  destruct (fill_mode_invalid_date (fixed_zone 0) (fun _ => 1 # 2) strict_git
      ["/usr/bin/node"; "/repo/index.js"] ∅ "now"
      {| START_DATE := "2025-01-01"; END_DATE := "soon";
         MIN_COMMITS_PER_DAY := 1; MAX_COMMITS_PER_DAY := 3;
         ACTIVITY_FILE := "activity.txt"; COMMIT_MESSAGE := "Activity update #{n} on {date}";
         PATTERN_START_DATE := "2025-01-05"; PATTERN_COMMITS := 3 |} PATTERNS fresh_world)
    as (_ & w' & Hrun & Herr & Hhist & _).
  - reflexivity.
  - right. reflexivity.
  - exists w'. split; [exact Hrun|]. split; [exact Herr | exact Hhist].
Defined.

(* ===================================================================== *)
(** * The pattern table *)
(* ===================================================================== *)

(** Every name of the table, [HI] included, holds a well-formed grid once
    the script has built its compound patterns. *)
Lemma PATTERNS_well_formed (name : string) :
  In name (Obj.keys PATTERNS) ->
  exists grid, Obj.get PATTERNS name = Some (Some grid) /\ well_formed grid.
Proof.
  intros Hin. vm_compute in Hin.
  repeat (destruct Hin as [<- | Hin];
          [eexists; split; [reflexivity | split; [reflexivity | repeat constructor]]|]).
  destruct Hin.
Qed.

(** Every name that the table lists is drawn in full: whatever the case in
    which the name is written (in ASCII characters) on the command line,
    with a valid start date, [c >= 0] commits per cell, draws in [0, 1)
    and a git that takes the commits, the script returns normally and
    adds [c] commits for every [#] of the grid.  The entry [HI], [null] in
    the literal, is a grid by the time pattern mode reads it. *)
Theorem shipped_patterns_draw engine random git argv env clock cfg ts w :
  (forall i, 0 <= random i < 1)%Q ->
  ascii_name argv ->
  parse_mode argv = "pattern" ->
  In (patternName argv) (Obj.keys PATTERNS) ->
  new_Date_midnight engine (PATTERN_START_DATE cfg) = DateAt ts ->
  0 <= PATTERN_COMMITS cfg ->
  (forall grid, Obj.get PATTERNS (patternName argv) = Some (Some grid) ->
                takes git env (pattern_asks engine cfg (patternName argv) grid ts)) ->
  exists grid w' cs,
    Obj.get PATTERNS (patternName argv) = Some (Some grid)
    /\ well_formed grid
    /\ script engine random git argv env clock cfg PATTERNS w = (Ok tt, w')
    /\ history w' = history w ++ cs
    /\ Forall2 made (pattern_asks engine cfg (patternName argv) grid ts) cs
    /\ Z.of_nat (length cs) = Z.of_nat (litCount grid) * PATTERN_COMMITS cfg.
Proof.
  intros Hrand _ Hmode Hin Hstart Hc Htakes.
  destruct (PATTERNS_well_formed _ Hin) as (grid & Hget & Hrows & Hshape).
  destruct (script_draws_pattern engine random git argv env clock cfg PATTERNS grid ts w
              Hrand Hmode Hget Hrows Hstart (Htakes grid Hget))
    as (w' & cs & Hrun & Hhist & Hmade).
  exists grid, w', cs. split; [exact Hget|]. split; [now split|].
  split; [exact Hrun|]. split; [exact Hhist|]. split; [exact Hmade|].
  apply Forall2_length in Hmade. rewrite <- Hmade, length_pattern_asks.
  rewrite length_litCells; [lia | exact Hrows |].
  eapply Forall_impl; [exact Hshape | now intros row [Hlen _]].
Qed.

Lemma shipped_patterns_draw_witness :
  exists grid w' cs,
    Obj.get PATTERNS "SMILE" = Some (Some grid)
    /\ script (fixed_zone 0) (fun _ => 1 # 2) obliging
         ["/usr/bin/node"; "/repo/index.js"; "x"; "smile"; "--mode"; "pattern"]
         ∅ "now" CONFIG PATTERNS fresh_world = (Ok tt, w')
    /\ history w' = cs
    /\ Z.of_nat (length cs) = Z.of_nat (litCount grid) * 3.
Proof.
  destruct (shipped_patterns_draw (fixed_zone 0) (fun _ => 1 # 2) obliging
              ["/usr/bin/node"; "/repo/index.js"; "x"; "smile"; "--mode"; "pattern"]
              ∅ "now" CONFIG (20093 * msPerDay) fresh_world)
    as (grid & w' & cs & Hget & _ & Hrun & Hhist & _ & Hlen).
  - intros i. split; [discriminate | reflexivity].
  - reflexivity.
  - reflexivity.
  - vm_compute. do 3 right. left. reflexivity.
  - reflexivity.
  - cbn. lia.
  - intros grid _ ask _ h m s _. reflexivity.
  - exists grid, w', cs. split; [exact Hget|]. split; [exact Hrun|].
    split; [exact Hhist | exact Hlen].
Defined.

(* ===================================================================== *)
(** * Rows and days of the week *)
(* ===================================================================== *)

Lemma WeekDay_of_day (day : Z) : WeekDay (day * msPerDay) = (day + 4) mod 7.
Proof. unfold WeekDay. now rewrite Day_of_day. Qed.

Lemma WeekDay_cell (start week weekday : Z) :
  WeekDay ((start + (7 * week + weekday)) * msPerDay)
  = (WeekDay (start * msPerDay) + weekday) mod 7.
Proof. rewrite !WeekDay_of_day. Z.to_euclidean_division_equations. lia. Qed.

Lemma Forall2_flat_map_same {A B C} (R : B -> C -> Prop) (f : A -> list B) (g : A -> list C)
    (xs : list A) :
  (forall x, In x xs -> Forall2 R (f x) (g x)) ->
  Forall2 R (flat_map f xs) (flat_map g xs).
Proof.
  induction xs as [|x xs IH]; intros Hall; [constructor|].
  cbn [flat_map]. apply Forall2_app.
  - apply Hall. now left.
  - apply IH. intros y Hy. apply Hall. now right.
Qed.

Lemma Forall2_repeat {B C} (R : B -> C -> Prop) (b : B) (c : C) (n : nat) :
  R b c -> Forall2 R (repeat b n) (repeat c n).
Proof. intros Hbc. induction n as [|n IH]; cbn; now constructor. Qed.



(* ===================================================================== *)
(** * From a date string to a timestamp and back *)
(* ===================================================================== *)

Lemma digit_inv (c : ascii) (k : Z) : digit c = Some k -> 0 <= k <= 9 /\ c = digit_char k.
Proof.
  unfold digit, digit_char. destruct (_ && _) eqn:Hc; [|discriminate]. intros [= <-].
  apply andb_true_iff in Hc as [Hlo%Z.leb_le Hhi%Z.leb_le]. split; [lia|].
  replace (Z.to_nat (Z.of_nat (nat_of_ascii c) - 48 + 48)) with (nat_of_ascii c) by lia.
  now rewrite ascii_nat_embedding.
Qed.

Lemma digits_two_inv (a b : ascii) (n : Z) :
  digits 0 (String a (String b "")) = Some n ->
  0 <= n <= 99 /\ String a (String b "") = two_digits n.
Proof.
  cbn [digits]. destruct (digit a) as [p|] eqn:Ha; [|discriminate].
  destruct (digit b) as [q|] eqn:Hb; [|discriminate]. intros [= <-].
  apply digit_inv in Ha as [Hp ->], Hb as [Hq ->]. split; [lia|].
  unfold two_digits. repeat f_equal; Z.to_euclidean_division_equations; lia.
Qed.

Lemma digits_four_inv (a b c d : ascii) (n : Z) :
  digits 0 (String a (String b (String c (String d "")))) = Some n ->
  0 <= n <= 9999 /\ String a (String b (String c (String d ""))) = four_digits n.
Proof.
  cbn [digits]. destruct (digit a) as [p|] eqn:Ha; [|discriminate].
  destruct (digit b) as [q|] eqn:Hb; [|discriminate].
  destruct (digit c) as [r|] eqn:Hc; [|discriminate].
  destruct (digit d) as [s|] eqn:Hd; [|discriminate]. intros [= <-].
  apply digit_inv in Ha as [Hp ->], Hb as [Hq ->], Hc as [Hr ->], Hd as [Hs ->].
  split; [lia|].
  unfold four_digits, two_digits. repeat f_equal; Z.to_euclidean_division_equations; lia.
Qed.

Lemma pad2_two_digits (n : Z) : 0 <= n <= 99 -> pad2 n = two_digits n.
Proof.
  intros Hn. apply String.eqb_eq.
  apply (counting_forallb (fun z => String.eqb (pad2 z) (two_digits z)) 0 100); [|lia].
  vm_compute. reflexivity.
Qed.

Lemma isoYear_four_digits (y : Z) : 0 <= y <= 9999 -> isoYear y = four_digits y.
Proof.
  intros Hy. apply String.eqb_eq.
  apply (counting_forallb (fun z => String.eqb (isoYear z) (four_digits z)) 0 10000); [|lia].
  vm_compute. reflexivity.
Qed.

Lemma String_four_digits (y : Z) : 1000 <= y <= 9999 -> Js.String_ y = four_digits y.
Proof.
  intros Hy. apply String.eqb_eq.
  apply (counting_forallb (fun z => String.eqb (Js.String_ z) (four_digits z)) 1000 9000); [|lia].
  vm_compute. reflexivity.
Qed.

(** A date string that the parser reads is the ISO form of its fields. *)
Lemma parseYMD_inv (s : string) (y m d : Z) :
  parseYMD s = Some (y, m, d) ->
  0 <= y <= 9999 /\ 1 <= m <= 12 /\ 1 <= d <= 31
  /\ s = four_digits y +:+ "-" +:+ two_digits m +:+ "-" +:+ two_digits d.
Proof.
  unfold parseYMD. destruct (negb (String.length s =? 10)%nat) eqn:Hlen; [discriminate|].
  apply negb_false_iff, Nat.eqb_eq in Hlen.
  destruct s as [|c0 s]; [discriminate|]. destruct s as [|c1 s]; [discriminate|].
  destruct s as [|c2 s]; [discriminate|]. destruct s as [|c3 s]; [discriminate|].
  destruct s as [|c4 s]; [discriminate|]. destruct s as [|c5 s]; [discriminate|].
  destruct s as [|c6 s]; [discriminate|]. destruct s as [|c7 s]; [discriminate|].
  destruct s as [|c8 s]; [discriminate|]. destruct s as [|c9 s]; [discriminate|].
  destruct s; [|discriminate]. clear Hlen.
  cbn [substring].
  destruct (String.eqb_spec (String c4 "") "-") as [[= ->]|]; [|discriminate].
  destruct (String.eqb_spec (String c7 "") "-") as [[= ->]|]; [|discriminate].
  cbn [andb negb].
  destruct (digits 0 (String c0 _)) as [y0|] eqn:Hy; [|discriminate].
  destruct (digits 0 (String c5 _)) as [m0|] eqn:Hm; [|discriminate].
  destruct (digits 0 (String c8 _)) as [d0|] eqn:Hd; [|discriminate].
  destruct (_ && _) eqn:Hrange; [|discriminate]. intros [= <- <- <-].
  apply digits_four_inv in Hy as [Hy Hys]. apply digits_two_inv in Hm as [_ Hms].
  apply digits_two_inv in Hd as [_ Hds].
  repeat (apply andb_true_iff in Hrange as [Hrange ?]).
  split; [exact Hy|]. split; [lia|]. split; [lia|].
  rewrite <- Hys, <- Hms, <- Hds. reflexivity.
Qed.

(** In a zone where a local time written back is never earlier, the date
    made of the midnight of a day is on that local day. *)
Lemma localDay_written engine D :
  forward engine -> localDay engine (UTC engine (D * msPerDay)) = D.
Proof.
  intros Hforward. unfold localDay, LocalTime, UTC, Day.
  pose proof (Hforward (D * msPerDay)) as Hf.
  pose proof (LocalTZA_range engine (D * msPerDay) false) as Hb.
  set (b := LocalTZA engine (D * msPerDay) false) in *.
  pose proof (LocalTZA_range engine (D * msPerDay - b) true) as Ha.
  set (a := LocalTZA engine (D * msPerDay - b) true) in *.
  clearbody a b. div_lia.
Qed.

(** The date part of the timestamp of [formatGitDate], whatever the
    draws. *)
Lemma formatGitDate_date engine random t w :
  exists hms, fst (formatGitDate engine random (DateAt t) w)
              = Ok (calendarDate (localDay engine t) +:+ " " +:+ hms).
Proof.
  unfold formatGitDate.
  unfold bind at 1. rewrite randomInt_value. unfold bind at 1. rewrite randomInt_value.
  unfold bind at 1. rewrite randomInt_value. unfold ret.
  cbn [fst getFullYear getMonth getDate fmap option_fmap option_map Js.String_num].
  eexists. f_equal.
  unfold calendarDate, localDay, getFullYear_tv, getMonth_tv, getDate_tv.
  destruct (calendar_fields (LocalTime engine t)) as (-> & -> & ->).
  rewrite !string_app_assoc. reflexivity.
Qed.

(** A date string [YYYY-MM-DD] of a day that exists, read by
    [new Date(s + "T00:00:00")] and written back, in a zone where a local
    time written back is never earlier (every zone without daylight saving
    is one): with a year from 1000 on, the timestamp of [formatGitDate] is
    the string itself followed by a time; where the offset at that
    midnight is at or west of Greenwich (less than a day) the first ten
    characters of [toISOString] are the string itself. *)
Theorem date_string_round_trip engine random (s : string) (y m d : Z) w :
  forward engine ->
  parseYMD s = Some (y, m, d) ->
  d <= DaysInMonth (m - 1) (if DaysInYear y =? 366 then 1 else 0) ->
  exists t,
    new_Date_midnight engine s = DateAt t
    /\ (1000 <= y ->
        exists hms, fst (formatGitDate engine random (DateAt t) w) = Ok (s +:+ " " +:+ hms))
    /\ (- msPerDay < LocalTZA engine (MakeDay y (m - 1) d * msPerDay) false <= 0 ->
        Js.slice0 10 (isoString t) = s).
Proof.
  intros Hforward Hparse Hday.
  destruct (parseYMD_inv s y m d Hparse) as (Hy & Hm & Hd & Hs).
  destruct (fields_of_MakeDay y (m - 1) d) as (Hyear & Hmonth & Hdate); [lia | lia |].
  exists (UTC engine (MakeDay y (m - 1) d * msPerDay)).
  split; [apply (new_Date_midnight_parsed _ _ _ _ _ Hparse)|]. split.
  - intros Hlong.
    destruct (formatGitDate_date engine random (UTC engine (MakeDay y (m - 1) d * msPerDay)) w)
      as (hms & ->).
    exists hms. do 2 f_equal.
    rewrite (localDay_written _ _ Hforward). unfold calendarDate.
    rewrite Hyear, Hmonth, Hdate.
    replace (m - 1 + 1) with m by lia.
    rewrite String_four_digits, !pad2_two_digits by lia. now rewrite Hs.
  - intros Hwest. rewrite slice_isoString.
    assert (Hsame : Day (UTC engine (MakeDay y (m - 1) d * msPerDay)) = MakeDay y (m - 1) d).
    { unfold UTC. revert Hwest.
      generalize (LocalTZA engine (MakeDay y (m - 1) d * msPerDay) false).
      generalize (MakeDay y (m - 1) d). clear. intros D b Hwest. unfold Day. div_lia. }
    rewrite Hsame. unfold isoDate. rewrite slice_isoDatePart. unfold isoDatePart.
    rewrite Hyear, Hmonth, Hdate.
    replace (m - 1 + 1) with m by lia.
    rewrite isoYear_four_digits, !pad2_two_digits by lia. rewrite Hs. reflexivity.
Qed.

Lemma date_string_round_trip_witness :
  exists t,
    new_Date_midnight (fixed_zone 0) "2024-02-29" = DateAt t
    /\ (exists hms, fst (formatGitDate (fixed_zone 0) (fun _ => 1 # 2) (DateAt t) fresh_world)
                    = Ok ("2024-02-29" +:+ " " +:+ hms))
    /\ Js.slice0 10 (isoString t) = "2024-02-29".
Proof.
  destruct (date_string_round_trip (fixed_zone 0) (fun _ => 1 # 2) "2024-02-29" 2024 2 29
              fresh_world)
    as (t & Ht & Hformat & Hiso).
  - apply forward_fixed_zone.
  - reflexivity.
  - vm_compute. discriminate.
  - exists t. split; [exact Ht|].
    split; [apply Hformat; lia | apply Hiso; cbn; unfold msPerDay; lia].
Defined.

(** With a year before 1000 the timestamp does not give the string back:
    [getFullYear] is written without leading zeros. *)
Example short_year_is_not_padded :
  fst (formatGitDate (fixed_zone 0) (fun _ => 0 # 1)
         (new_Date_midnight (fixed_zone 0) "0999-01-01") fresh_world)
  = Ok "999-01-01 09:00:00".
Proof. vm_compute. reflexivity. Qed.

(* ===================================================================== *)
(** * The commit messages of fill mode *)
(* ===================================================================== *)

Lemma prefix_append (p rest : string) : String.prefix p (p +:+ rest) = true.
Proof.
  induction p as [|c p IH]; [rewrite string_app_nil_l; now destruct rest|].
  rewrite string_app_cons. cbn [String.prefix]. now destruct (ascii_dec c c).
Qed.

Lemma substring_after (p rest : string) :
  substring (String.length p) (String.length (p +:+ rest) - String.length p) (p +:+ rest)
  = rest.
Proof.
  induction p as [|c p IH].
  - rewrite string_app_nil_l. cbn [String.length]. rewrite Nat.sub_0_r.
    induction rest as [|x rest IHr]; [reflexivity|]. cbn. now rewrite IHr.
  - rewrite string_app_cons. cbn [String.length substring]. exact IH.
Qed.

(** [replace] rewrites the first occurrence: the one after a text that
    does not hold the first character of the pattern. *)
Lemma replace_first (pre pat by_ rest : string) (c : ascii) (p : string) :
  pat = String c p -> Js.has_char c pre = false ->
  Js.replace (pre +:+ pat +:+ rest) pat by_ = pre +:+ by_ +:+ rest.
Proof.
  intros -> Hpre. induction pre as [|x pre IH].
  - rewrite !string_app_nil_l.
    pose proof (prefix_append (String c p) rest) as Hp.
    pose proof (substring_after (String c p) rest) as Hs.
    rewrite string_app_cons in *. cbn [Js.replace]. now rewrite Hp, Hs.
  - cbn [Js.has_char] in Hpre. apply orb_false_iff in Hpre as [Hx Hpre].
    rewrite !(string_app_cons x pre). cbn [Js.replace String.prefix].
    destruct (ascii_dec c x) as [->|_]; [now rewrite Ascii.eqb_refl in Hx|].
    now rewrite IH.
Qed.

Lemma has_char_append (c : ascii) (a b : string) :
  Js.has_char c (a +:+ b) = Js.has_char c a || Js.has_char c b.
Proof.
  induction a as [|x a IH]; [now rewrite string_app_nil_l|].
  rewrite string_app_cons. cbn [Js.has_char]. now rewrite IH, orb_assoc.
Qed.

Lemma string_of_uint_no_brace (u : Decimal.uint) :
  Js.has_char "{" (NilZero.string_of_uint u) = false.
Proof.
  assert (Hdigits : forall v, Js.has_char "{" (NilEmpty.string_of_uint v) = false)
    by (induction v; cbn; auto).
  destruct u; [reflexivity | apply Hdigits..].
Qed.

(** The decimal form of an integer holds no brace. *)
Lemma String_no_brace (n : Z) : Js.has_char "{" (Js.String_ n) = false.
Proof.
  unfold Js.String_, NilZero.string_of_int.
  destruct (Z.to_int n); cbn [Js.has_char]; apply string_of_uint_no_brace.
Qed.

(** The message of fill mode for a template that holds [{n}] and then
    [{date}], each after a text without a brace. *)
Lemma fill_message_template cfg (pre mid post : string) (n : Z) (label : string) :
  COMMIT_MESSAGE cfg = pre +:+ "{n}" +:+ mid +:+ "{date}" +:+ post ->
  Js.has_char "{" pre = false -> Js.has_char "{" mid = false ->
  fill_message cfg n label = pre +:+ Js.String_ n +:+ mid +:+ label +:+ post.
Proof.
  intros Htemplate Hpre Hmid. unfold fill_message. rewrite Htemplate.
  rewrite (replace_first pre "{n}" _ _ "{" "n}" eq_refl Hpre).
  rewrite <- !string_app_assoc.
  rewrite (string_app_assoc _ "{date}" post).
  rewrite (replace_first _ "{date}" _ post "{" "date}" eq_refl).
  - now rewrite !string_app_assoc.
  - now rewrite !has_char_append, Hpre, Hmid, String_no_brace.
Qed.

Lemma made_messages (asks : list Ask) (cs : list Commit) :
  Forall2 made asks cs -> map c_message cs = map snd asks.
Proof.
  induction 1 as [|ask c asks cs (Hmessage & _) _ IH]; [reflexivity|].
  cbn [map]. now rewrite Hmessage, IH.
Qed.

Lemma fill_asks_messages engine cfg entries counts :
  map snd (fill_asks engine cfg entries counts)
  = flat_map (fun en : DayEntry * Z =>
                map (fun n => fill_message cfg n (iso (fst en))) (counting 1 (snd en)))
             (combine entries counts).
Proof.
  unfold fill_asks. induction (combine entries counts) as [|en rest IH]; [reflexivity|].
  cbn [flat_map]. rewrite map_app, IH. f_equal.
  unfold entry_asks. rewrite map_map. reflexivity.
Qed.

(** With a template that holds [{n}] and then [{date}], each after a text
    without a brace, the commits of fill mode carry, entry after entry,
    the template with [{n}] replaced by the numbers 1 to the count of the
    entry, in that order, and [{date}] by the ISO label of the entry.
    This is so inside a repository, with [min <= max], draws in [0, 1)
    and a git that takes the commits. *)
Theorem fill_commit_message engine random git env clock cfg (pre mid post : string) w :
  (forall i, 0 <= random i < 1)%Q ->
  repo w = true ->
  MIN_COMMITS_PER_DAY cfg <= MAX_COMMITS_PER_DAY cfg ->
  COMMIT_MESSAGE cfg = pre +:+ "{n}" +:+ mid +:+ "{date}" +:+ post ->
  Js.has_char "{" pre = false -> Js.has_char "{" mid = false ->
  let entries := dayRange engine (START_DATE cfg) (END_DATE cfg) in
  fill_accepted git env engine cfg entries (MAX_COMMITS_PER_DAY cfg) ->
  exists w' cs counts,
    runFillMode engine random git env clock cfg w = (Ok tt, w')
    /\ history w' = history w ++ cs
    /\ length counts = length entries
    /\ Forall (fun n => MIN_COMMITS_PER_DAY cfg <= n <= MAX_COMMITS_PER_DAY cfg) counts
    /\ map c_message cs
       = flat_map (fun en : DayEntry * Z =>
                     map (fun n => pre +:+ Js.String_ n +:+ mid +:+ iso (fst en) +:+ post)
                         (counting 1 (snd en)))
                  (combine entries counts).
Proof.
  intros Hrand Hrepo Hle Htemplate Hpre Hmid entries Haccept.
  destruct (runFillMode_run engine random git env clock cfg Hrand w Hrepo Hle Haccept)
    as (counts & totals & w' & Hrun & Hlen & Hall & ((cs & Hhist & Hmade) & _ & _) & _).
  fold entries in Hlen, Hall, Hmade.
  exists w', cs, counts.
  split; [exact Hrun|]. split; [exact Hhist|]. split; [exact Hlen|]. split; [exact Hall|].
  rewrite (made_messages _ _ Hmade), fill_asks_messages.
  apply flat_map_ext. intros en. apply map_ext. intros n.
  now apply fill_message_template.
Qed.

Lemma fill_commit_message_witness :
  let cfg := {| START_DATE := "2025-01-01"; END_DATE := "2025-01-02";
                MIN_COMMITS_PER_DAY := 2; MAX_COMMITS_PER_DAY := 2;
                ACTIVITY_FILE := "activity.txt";
                COMMIT_MESSAGE := "Activity update #{n} on {date}";
                PATTERN_START_DATE := "2025-01-05"; PATTERN_COMMITS := 3 |} in
  exists w' cs counts,
    runFillMode (fixed_zone 0) (fun _ => 1 # 2) obliging ∅ "now" cfg fresh_repo = (Ok tt, w')
    /\ history w' = cs
    /\ Forall (fun n => 2 <= n <= 2) counts
    /\ map c_message cs
       = flat_map (fun en : DayEntry * Z =>
                     map (fun n => "Activity update #" +:+ Js.String_ n +:+ " on "
                                   +:+ iso (fst en) +:+ "")
                         (counting 1 (snd en)))
                  (combine (dayRange (fixed_zone 0) "2025-01-01" "2025-01-02") counts).
Proof.
  intros cfg.
  destruct (fill_commit_message (fixed_zone 0) (fun _ => 1 # 2) obliging ∅ "now" cfg
              "Activity update #" " on " "" fresh_repo)
    as (w' & cs & counts & Hrun & Hhist & Hlen & Hall & Hmessages); try reflexivity.
  - intros i. split; [discriminate | reflexivity].
  - intros e n _ _ h m s _. reflexivity.
  - exists w', cs, counts. split; [exact Hrun|]. split; [exact Hhist|].
    split; [exact Hall | exact Hmessages].
Defined.

(* ===================================================================== *)
(** * The commit counter of pattern mode *)
(* ===================================================================== *)



(* ===================================================================== *)
(** * The case of a pattern name *)
(* ===================================================================== *)

Lemma ascii_forall (P : ascii -> bool) :
  forallb (fun n => P (ascii_of_nat n)) (seq 0 256) = true -> forall c, P c = true.
Proof.
  intros Hall c. rewrite forallb_forall in Hall.
  rewrite <- (ascii_nat_embedding c). apply Hall, in_seq.
  pose proof (nat_ascii_bounded c). lia.
Qed.

Lemma upper_lower_char (c : ascii) : Js.upper_char (Js.lower_char c) = Js.upper_char c.
Proof.
  apply Ascii.eqb_eq.
  apply (ascii_forall (fun c => Ascii.eqb (Js.upper_char (Js.lower_char c)) (Js.upper_char c))).
  vm_compute. reflexivity.
Qed.

Lemma upper_upper_char (c : ascii) : Js.upper_char (Js.upper_char c) = Js.upper_char c.
Proof.
  apply Ascii.eqb_eq.
  apply (ascii_forall (fun c => Ascii.eqb (Js.upper_char (Js.upper_char c)) (Js.upper_char c))).
  vm_compute. reflexivity.
Qed.

Lemma toUpperCase_of_case (f : ascii -> ascii) (s : string) :
  (forall c, Js.upper_char (f c) = Js.upper_char c) ->
  Js.toUpperCase (Js.map_chars f s) = Js.toUpperCase s.
Proof.
  intros Hf. induction s as [|c s IH]; [reflexivity|].
  cbn [Js.toUpperCase Js.map_chars] in *. now rewrite Hf, IH.
Qed.

Lemma patternName_fourth (a0 a1 a2 s : string) (rest : list string) :
  patternName (a0 :: a1 :: a2 :: s :: rest)
  = Js.toUpperCase (if String.eqb s "" then "HI" else s).
Proof. now destruct s. Qed.

Lemma case_of_empty (s : string) :
  String.eqb (Js.toLowerCase s) "" = String.eqb s ""
  /\ String.eqb (Js.toUpperCase s) "" = String.eqb s "".
Proof. now destruct s. Qed.

(** The pattern name is read without regard to case: writing the name at
    [argv[3]] in lower case or in upper case (a name of ASCII characters)
    gives the same pattern name, which is the name in upper case; no name
    or an empty one gives [HI]. *)
Theorem patternName_ignores_case (a0 a1 a2 name : string) (rest : list string) :
  is_ascii name = true ->
  let named := fun s => patternName (a0 :: a1 :: a2 :: s :: rest) in
  named (Js.toLowerCase name) = named name
  /\ named (Js.toUpperCase name) = named name
  /\ named name = (if String.eqb name "" then "HI" else Js.toUpperCase name)
  /\ Js.toUpperCase (named name) = named name.
Proof.
  intros _ named. unfold named. rewrite !patternName_fourth.
  destruct (case_of_empty name) as [-> ->].
  destruct (String.eqb name "") eqn:Hname; [repeat split|].
  unfold Js.toLowerCase.
  split; [apply toUpperCase_of_case, upper_lower_char|].
  split; [apply (toUpperCase_of_case Js.upper_char), upper_upper_char|].
  split; [reflexivity|].
  apply (toUpperCase_of_case Js.upper_char), upper_upper_char.
Qed.

Lemma patternName_ignores_case_witness :
  patternName ["/usr/bin/node"; "/repo/index.js"; "x"; Js.toLowerCase "Heart"; "--mode"; "pattern"]
  = patternName ["/usr/bin/node"; "/repo/index.js"; "x"; "Heart"; "--mode"; "pattern"].
Proof.
  apply (patternName_ignores_case "/usr/bin/node" "/repo/index.js" "x" "Heart"
           ["--mode"; "pattern"]).
  reflexivity.
Defined.

(* ===================================================================== *)
(** * What fill mode prints *)
(* ===================================================================== *)

(** Inside a repository, with [min <= max], draws in [0, 1) and a git
    that takes the commits, fill mode returns normally and prints its
    three header lines, one progress line at every thirtieth entry of the
    day sequencer (and at no other moment), and the [Done] line with the
    number of commits made and the number of entries. *)
Theorem runFillMode_output engine random git env clock cfg w :
  (forall i, 0 <= random i < 1)%Q ->
  repo w = true ->
  MIN_COMMITS_PER_DAY cfg <= MAX_COMMITS_PER_DAY cfg ->
  let entries := dayRange engine (START_DATE cfg) (END_DATE cfg) in
  let days := Z.of_nat (length entries) in
  fill_accepted git env engine cfg entries (MAX_COMMITS_PER_DAY cfg) ->
  exists w' cs totals,
    runFillMode engine random git env clock cfg w = (Ok tt, w')
    /\ history w' = history w ++ cs
    /\ Z.of_nat (length totals) = days / 30
    /\ out w' = out w ++ fill_header cfg
                ++ zip_with progress_line (progress_days 0 days) totals
                ++ [fill_done_line (Z.of_nat (length cs)) days].
Proof.
  intros Hrand Hrepo Hle entries days Haccept.
  destruct (runFillMode_run engine random git env clock cfg Hrand w Hrepo Hle Haccept)
    as (counts & totals & w' & Hrun & _ & _ & ((cs & Hhist & Hmade) & _ & _) & _ & Hlen
        & Hout).
  fold entries in Hmade, Hlen, Hout. fold days in Hlen, Hout.
  exists w', cs, totals.
  split; [exact Hrun|]. split; [exact Hhist|]. split; [exact Hlen|].
  rewrite Hout. apply Forall2_length in Hmade. now rewrite Hmade.
Qed.

Lemma runFillMode_output_witness :
  let cfg := {| START_DATE := "2025-01-01"; END_DATE := "2025-03-15";
                MIN_COMMITS_PER_DAY := 0; MAX_COMMITS_PER_DAY := 1;
                ACTIVITY_FILE := "activity.txt";
                COMMIT_MESSAGE := "Activity update #{n} on {date}";
                PATTERN_START_DATE := "2025-01-05"; PATTERN_COMMITS := 3 |} in
  let days := Z.of_nat (length (dayRange (fixed_zone 0) (START_DATE cfg) (END_DATE cfg))) in
  exists w' cs totals,
    runFillMode (fixed_zone 0) (fun _ => 1 # 2) obliging ∅ "now" cfg fresh_repo = (Ok tt, w')
    /\ history w' = history fresh_repo ++ cs
    /\ Z.of_nat (length totals) = days / 30
    /\ out w' = out fresh_repo ++ fill_header cfg
                ++ zip_with progress_line (progress_days 0 days) totals
                ++ [fill_done_line (Z.of_nat (length cs)) days].
Proof.
  intros cfg days.
  apply (runFillMode_output (fixed_zone 0) (fun _ => 1 # 2) obliging ∅ "now" cfg fresh_repo).
  - intros i. split; [discriminate | reflexivity].
  - reflexivity.
  - unfold cfg. cbn. lia.
  - intros e n _ _ h m s _. reflexivity.
Defined.

(* ===================================================================== *)
(** * A commit that git refuses *)
(* ===================================================================== *)

Lemma counting_first (lo count : Z) :
  1 <= count -> counting lo count = lo :: counting (lo + 1) (count - 1).
Proof.
  intros Hcount. unfold counting.
  replace (Z.to_nat count) with (S (Z.to_nat (count - 1))) by lia.
  cbn [seq map]. rewrite Z.add_0_r. f_equal.
  rewrite <- seq_shift, map_map. apply map_ext. intros i. lia.
Qed.

(** Fill mode started inside a repository, when git refuses the first
    commit of the first entry: the text of that commit is in the file, no
    commit is made and the exception of git leaves fill mode. *)
Lemma runFillMode_refused engine random git env clock cfg k e rest refusal w :
  (forall i, 0 <= random i < 1)%Q ->
  repo w = true ->
  MIN_COMMITS_PER_DAY cfg = k -> MAX_COMMITS_PER_DAY cfg = k -> 1 <= k ->
  dayRange engine (START_DATE cfg) (END_DATE cfg) = e :: rest ->
  refuses git env (entryDay engine e, fill_message cfg 1 (iso e)) refusal ->
  exists w' h m s,
    working_hours h m s
    /\ runFillMode engine random git env clock cfg w = (Thrown refusal, w')
    /\ err w' = err w
    /\ history w' = history w
    /\ fs w' = <[ACTIVITY_FILE cfg
                 := default "" (fs w !! ACTIVITY_FILE cfg)
                    +:+ fill_message cfg 1 (iso e) +:+ "  |  "
                    +:+ timestamp (entryDay engine e) h m s +:+ Js.LF]> (fs w).
Proof.
  intros Hrand Hrepo Hmin Hmax Hk Hrange Hrefuses.
  assert (Hentry : exists t, e = entry_at t).
  { apply (dayRange_entries engine (START_DATE cfg) (END_DATE cfg)). rewrite Hrange. now left. }
  destruct Hentry as (t & ->).
  unfold runFillMode. rewrite Hrange. cbn [for_of]. unfold fill_day.
  rewrite Hmin, Hmax.
  unfold bind at 1 2 3 4 5 6. unfold console_log at 1 2 3.
  match goal with
  | |- context [randomInt random k k ?w1] =>
      destruct (randomInt_draw random k k w1 (Hrand _) (Z.le_refl k)) as (n & Hdraw & Hn);
      rewrite Hdraw
  end.
  assert (n = k) as -> by lia.
  rewrite (counting_first 1 k Hk). cbn [for_of]. unfold fill_commit.
  cbn [date iso entry_at].
  unfold bind at 1 2 3.
  match goal with
  | |- context [formatGitDate engine random (DateAt t) ?w1] =>
      destruct (formatGitDate_run engine random t w1 Hrand) as (h & m & s & Hformat & Hhours);
      rewrite Hformat
  end.
  specialize (Hrefuses h m s Hhours). cbn [fst snd] in Hrefuses.
  unfold entryDay in Hrefuses. cbn [entry_at date iso dateDay default from_option id] in Hrefuses.
  fold (fill_message cfg 1 (Js.slice0 10 (isoString t))).
  unfold bind at 1.
  match goal with
  | |- context [makeCommit git env clock cfg ?d ?msg ?w1] =>
      rewrite (makeCommit_refused git env clock cfg d msg refusal w1 Hrepo Hrefuses)
  end.
  eexists _, h, m, s. split; [exact Hhours|]. split; [reflexivity|].
  cbn [err history fs after_draws]. unfold entryDay.
  cbn [entry_at date iso dateDay default from_option id]. auto.
Qed.


